(** * breathe3: subtitle time shift, file discovery and batch loop

    A shallow embedding of [src/breathe3.py] (class
    [SpeedOptimizedConverter]): the timestamp arithmetic of [adjust_time],
    the line rewriting of [apply_time_offset], the directory walk of
    [find_video_files] and the per-file / per-batch control flow of
    [process_video_optimized] and [process_videos]; further the setup
    checks, the elapsed-time display and the speed profiles.

    Modelling conventions.
    - Python [str] is [string]; every character is one [ascii] code.  The
      classification of characters (white space, digits, case) is the one
      Python applies to code points below 128; codes from 128 on are
      ordinary characters.
    - Python [int] is [Z]; [int()] reads literals of any length (no limit
      on the number of digits).
    - Python [float] is IEEE binary64.  Every finite binary64 value is an
      integer multiple of [2^-1074]; a finite float is represented by that
      integer, and every arithmetic operation rounds the exact result to
      the nearest value with at most 53 significant bits, ties to even.
      The sign of zero is not represented: the program only feeds floats
      to [+], [>], [==], [//], [%], [*] and [int()], none of which
      observes it.
    - A Python exception is the [Raise] branch of [res]; [try]/[except]
      is a [match] on it. *)

From Stdlib Require Import ZArith Lia List Bool Ascii String.
From Stdlib Require Import Sorting.Sorted Sorting.Permutation.
From Stdlib Require Import Floats.SpecFloat.
Import ListNotations.

Local Open Scope Z_scope.

(** ** Exceptions *)

Inductive pyexc : Type :=
| ValueError
| OverflowError
| ZeroDivisionError
| CalledProcessError
| OSError.

Inductive res (A : Type) : Type :=
| Ok (a : A)
| Raise (e : pyexc).
Arguments Ok {A} a.
Arguments Raise {A} e.

Definition bind {A B : Type} (m : res A) (k : A -> res B) : res B :=
  match m with
  | Ok a => k a
  | Raise e => Raise e
  end.

Notation "x <- m ;; k" := (bind m (fun x => k))
  (at level 61, m at next level, right associativity).

(** ** Binary64 floats *)

Module Float.

(** One unit is [2^-1074], the smallest positive binary64 value: the float
    [1.0] is [Fin U]. *)
Definition U : Z := 2 ^ 1074.

(** First value (in units) too large for a finite binary64: [2^1024]. *)
Definition HUGE : Z := 2 ^ 2098.

Inductive float : Type :=
| Fin (n : Z)
| Inf (neg : bool)
| NaN.

(** Number of binary digits of a non-negative integer. *)
Definition bits (a : Z) : Z := if a =? 0 then 0 else Z.log2 a + 1.

(** [round_pos num den] rounds the non-negative rational [num / den]
    (in units) to the nearest integer with at most 53 significant bits,
    ties to the even significand. *)
Definition round_pos (num den : Z) : Z :=
  let s := Z.max 0 (bits (num / den) - 53) in
  let D := den * 2 ^ s in
  let q := num / D in
  let r := num mod D in
  let q' := if (D <? 2 * r) || ((2 * r =? D) && Z.odd q) then q + 1 else q in
  q' * 2 ^ s.

(** [round num den] for [0 < den]: the binary64 nearest to [num / den]
    units; overflow gives an infinity. *)
Definition round (num den : Z) : float :=
  let a := round_pos (Z.abs num) den in
  if HUGE <=? a then Inf (num <? 0) else Fin (Z.sgn num * a).

Definition of_ratio (num den : Z) : float :=
  if 0 <? den then round num den else round (- num) (- den).

Definition fadd (x y : float) : float :=
  match x, y with
  | NaN, _ | _, NaN => NaN
  | Inf a, Inf b => if Bool.eqb a b then Inf a else NaN
  | Inf a, Fin _ => Inf a
  | Fin _, Inf b => Inf b
  | Fin a, Fin b => round (a + b) 1
  end.

Definition fneg (x : float) : float :=
  match x with
  | Fin a => Fin (- a)
  | Inf b => Inf (negb b)
  | NaN => NaN
  end.

Definition fsub (x y : float) : float := fadd x (fneg y).

Definition fmul (x y : float) : float :=
  match x, y with
  | NaN, _ | _, NaN => NaN
  | Inf a, Inf b => Inf (xorb a b)
  | Inf a, Fin b => if b =? 0 then NaN else Inf (xorb a (b <? 0))
  | Fin a, Inf b => if a =? 0 then NaN else Inf (xorb (a <? 0) b)
  | Fin a, Fin b => round (a * b) U
  end.

(** IEEE division; a finite divisor is non-zero wherever the program
    divides (Python tests for zero first). *)
Definition fdiv (x y : float) : float :=
  match x, y with
  | NaN, _ | _, NaN => NaN
  | Inf _, Inf _ => NaN
  | Inf a, Fin b => Inf (xorb a (b <? 0))
  | Fin _, Inf _ => Fin 0
  | Fin a, Fin b =>
      if b =? 0 then (if a =? 0 then NaN else Inf (a <? 0))
      else of_ratio (a * U) b
  end.

(** C [fmod]: exact, sign of the dividend. *)
Definition fmod (x y : float) : float :=
  match x, y with
  | NaN, _ | _, NaN => NaN
  | Inf _, _ => NaN
  | Fin a, Inf _ => Fin a
  | Fin a, Fin b => if b =? 0 then NaN else Fin (Z.rem a b)
  end.

(** C [floor]. *)
Definition ffloor (x : float) : float :=
  match x with
  | Fin a => Fin (a / U * U)
  | _ => x
  end.

Definition flt (x y : float) : bool :=
  match x, y with
  | NaN, _ | _, NaN => false
  | Inf a, Inf b => a && negb b
  | Inf a, Fin _ => a
  | Fin _, Inf b => negb b
  | Fin a, Fin b => a <? b
  end.

Definition is_zero (x : float) : bool :=
  match x with
  | Fin a => a =? 0
  | _ => false
  end.

Definition fzero : float := Fin 0.
Definition fone : float := Fin U.
Definition fhalf : float := Fin (U / 2).

(** Conversion of a Python [int] ([PyLong_AsDouble]). *)
Definition of_int (z : Z) : res float :=
  match round (z * U) 1 with
  | Fin n => Ok (Fin n)
  | _ => Raise OverflowError
  end.

(** [int / int]: the correctly rounded quotient. *)
Definition int_true_div (a b : Z) : res float :=
  if b =? 0 then Raise ZeroDivisionError
  else match of_ratio (a * U) b with
       | Fin n => Ok (Fin n)
       | _ => Raise OverflowError
       end.

(** Python [int(x)] on a float: truncation towards zero. *)
Definition to_int (x : float) : res Z :=
  match x with
  | Fin a => Ok (Z.quot a U)
  | Inf _ => Raise OverflowError
  | NaN => Raise ValueError
  end.

(** [float_rem] of CPython: [vx % wx]. *)
Definition py_mod (vx wx : float) : res float :=
  if is_zero wx then Raise ZeroDivisionError
  else
    let m := fmod vx wx in
    if is_zero m then Ok fzero
    else if negb (Bool.eqb (flt wx fzero) (flt m fzero)) then Ok (fadd m wx)
    else Ok m.

(** [_float_div_mod] of CPython, quotient part: [vx // wx]. *)
Definition py_floordiv (vx wx : float) : res float :=
  if is_zero wx then Raise ZeroDivisionError
  else
    let m := fmod vx wx in
    let d := fdiv (fsub vx m) wx in
    let d :=
      if is_zero m then d
      else if negb (Bool.eqb (flt wx fzero) (flt m fzero)) then fsub d fone
      else d in
    if is_zero d then Ok fzero
    else
      let fl := ffloor d in
      if flt fhalf (fsub d fl) then Ok (fadd fl fone) else Ok fl.

(** A literal [m * 2^e]. *)
Definition lit (m e : Z) : float := Fin (m * 2 ^ (e + 1074)).

(** Reading of a [spec_float] of the Standard Library. *)
Definition of_spec (x : spec_float) : float :=
  match x with
  | S754_zero _ => Fin 0
  | S754_infinity s => Inf s
  | S754_nan => NaN
  | S754_finite s m e => Fin ((if s then -1 else 1) * (Z.pos m * 2 ^ (e + 1074)))
  end.

Definition to_spec (x : float) : spec_float :=
  match x with
  | Fin 0 => S754_zero false
  | Fin (Z.pos p) => S754_finite false p (-1074)
  | Fin (Z.neg p) => S754_finite true p (-1074)
  | Inf s => S754_infinity s
  | NaN => S754_nan
  end.

End Float.


(** ** Strings *)

Module PyStr.

Local Open Scope string_scope.
Local Open Scope Z_scope.

Definition code (c : ascii) : Z := Z.of_N (N_of_ascii c).

(** White space removed by [str.strip()]: tab, line feed, vertical tab,
    form feed, carriage return, the four separators 28-31, space. *)
Definition is_space (c : ascii) : bool :=
  ((9 <=? code c) && (code c <=? 13)) || ((28 <=? code c) && (code c <=? 32)).

Fixpoint lstrip (s : string) : string :=
  match s with
  | String c s' => if is_space c then lstrip s' else s
  | EmptyString => EmptyString
  end.

Fixpoint rstrip (s : string) : string :=
  match s with
  | String c s' =>
      match rstrip s' with
      | EmptyString => if is_space c then EmptyString else String c EmptyString
      | t => String c t
      end
  | EmptyString => EmptyString
  end.

(** [s.strip()] *)
Definition strip (s : string) : string := rstrip (lstrip s).

(** [sub in s] *)
Fixpoint contains (sub s : string) : bool :=
  prefix sub s ||
  match s with
  | String _ s' => contains sub s'
  | EmptyString => false
  end.

(** [s.split(sep)] for a non-empty [sep]: the pieces between the leftmost
    non-overlapping occurrences of [sep].  [skip] counts the characters of
    a matched separator that are still to be passed over. *)
Fixpoint split_from (sep : string) (skip : nat) (s : string) : list string :=
  match s with
  | EmptyString => [EmptyString]
  | String c s' =>
      match skip with
      | S k => split_from sep k s'
      | O =>
          if prefix sep s then EmptyString :: split_from sep (Nat.pred (length sep)) s'
          else match split_from sep O s' with
               | p :: ps => String c p :: ps
               | [] => [String c EmptyString]
               end
      end
  end.

Definition split (sep s : string) : list string := split_from sep O s.

(** [sep.join(l)] *)
Fixpoint join (sep : string) (l : list string) : string :=
  match l with
  | [] => EmptyString
  | [x] => x
  | x :: rest => x ++ sep ++ join sep rest
  end.

Definition newline : string := String "010"%char EmptyString.

(** [s.lower()] on the letters A-Z. *)
Definition lower_char (c : ascii) : ascii :=
  if (65 <=? code c) && (code c <=? 90)
  then ascii_of_N (N_of_ascii c + 32) else c.

Fixpoint lower (s : string) : string :=
  match s with
  | String c s' => String (lower_char c) (lower s')
  | EmptyString => EmptyString
  end.

End PyStr.

(** ** Integer literals and formatting *)

Module PyInt.

Import PyStr.
Local Open Scope string_scope.
Local Open Scope Z_scope.

Definition is_digit (c : ascii) : bool := (48 <=? code c) && (code c <=? 57).
Definition digit_val (c : ascii) : Z := code c - 48.

(** White space accepted around an integer literal by [int()]. *)
Definition is_cspace (c : ascii) : bool :=
  ((9 <=? code c) && (code c <=? 13)) || (code c =? 32).

Fixpoint skip_cspace (s : string) : string :=
  match s with
  | String c s' => if is_cspace c then skip_cspace s' else s
  | EmptyString => EmptyString
  end.

(** The digit loop of [PyLong_FromString] in base 10: digits, with single
    underscores allowed between them.  Returns the value and the rest of
    the text. *)
Fixpoint scan_digits (acc : Z) (any prev_us : bool) (s : string)
  : option (Z * string) :=
  match s with
  | String c s' =>
      if is_digit c then scan_digits (10 * acc + digit_val c) true false s'
      else if (code c =? 95) then
             (if prev_us then None else scan_digits acc any true s')
      else if prev_us || negb any then None else Some (acc, s)
  | EmptyString => if prev_us || negb any then None else Some (acc, s)
  end.

(** [int(s)] *)
Definition py_int (s : string) : res Z :=
  let s1 := skip_cspace s in
  let '(neg, s2) :=
    match s1 with
    | String c r => if code c =? 43 then (false, r)
                    else if code c =? 45 then (true, r)
                    else (false, s1)
    | EmptyString => (false, s1)
    end in
  match s2 with
  | String c _ =>
      if code c =? 95 then Raise ValueError
      else match scan_digits 0 false false s2 with
           | Some (v, rest) =>
               match skip_cspace rest with
               | EmptyString => Ok (if neg then - v else v)
               | _ => Raise ValueError
               end
           | None => Raise ValueError
           end
  | EmptyString => Raise ValueError
  end.

Definition digit_char (d : Z) : ascii := ascii_of_N (Z.to_N (48 + d)).

Fixpoint digits_fuel (fuel : nat) (n : Z) (acc : string) : string :=
  match fuel with
  | O => acc
  | S f =>
      let acc' := String (digit_char (n mod 10)) acc in
      if n <? 10 then acc' else digits_fuel f (n / 10) acc'
  end.

(** Decimal digits of a non-negative integer. *)
Definition str_nat (n : Z) : string :=
  digits_fuel (S (Z.to_nat (Z.log2 n))) n EmptyString.

Fixpoint zeros (k : nat) : string :=
  match k with
  | O => EmptyString
  | S k' => String "0"%char (zeros k')
  end.

(** [format(z, "0<w>d")]: decimal, zero-padded after the sign to a
    minimum width of [w]. *)
Definition format_d (w : nat) (z : Z) : string :=
  let d := str_nat (Z.abs z) in
  if z <? 0 then String "-"%char (zeros (w - 1 - length d)%nat ++ d)
  else zeros (w - length d)%nat ++ d.

End PyInt.

(** ** Numbers: [int] or [float] *)

Module PyNum.

Import Float.

Inductive num : Type :=
| NInt (z : Z)
| NFloat (f : float).

Definition to_float (x : num) : res float :=
  match x with
  | NInt z => of_int z
  | NFloat f => Ok f
  end.

(** [x + y] *)
Definition add (x y : num) : res num :=
  match x, y with
  | NInt a, NInt b => Ok (NInt (a + b))
  | _, _ => a <- to_float x ;; b <- to_float y ;; Ok (NFloat (fadd a b))
  end.

(** [x * y] *)
Definition mul (x y : num) : res num :=
  match x, y with
  | NInt a, NInt b => Ok (NInt (a * b))
  | _, _ => a <- to_float x ;; b <- to_float y ;; Ok (NFloat (fmul a b))
  end.

(** [x / y] *)
Definition truediv (x y : num) : res num :=
  match x, y with
  | NInt a, NInt b => f <- int_true_div a b ;; Ok (NFloat f)
  | _, _ =>
      a <- to_float x ;; b <- to_float y ;;
      if is_zero b then Raise ZeroDivisionError else Ok (NFloat (fdiv a b))
  end.

(** [x // y] *)
Definition floordiv (x y : num) : res num :=
  match x, y with
  | NInt a, NInt b => if b =? 0 then Raise ZeroDivisionError else Ok (NInt (a / b))
  | _, _ => a <- to_float x ;; b <- to_float y ;; f <- py_floordiv a b ;; Ok (NFloat f)
  end.

(** [x % y] *)
Definition modulo (x y : num) : res num :=
  match x, y with
  | NInt a, NInt b => if b =? 0 then Raise ZeroDivisionError else Ok (NInt (a mod b))
  | _, _ => a <- to_float x ;; b <- to_float y ;; f <- py_mod a b ;; Ok (NFloat f)
  end.

(** [x > y]; an [int] is compared with a float by value. *)
Definition gt (x y : num) : bool :=
  match x, y with
  | NInt a, NInt b => b <? a
  | NInt a, NFloat f => flt f (Fin (a * U))
  | NFloat f, NInt b => flt (Fin (b * U)) f
  | NFloat f, NFloat g => flt g f
  end.

(** [x == 0] *)
Definition equals_zero (x : num) : bool :=
  match x with
  | NInt a => a =? 0
  | NFloat f => Float.is_zero f
  end.

(** [max(a, b)]: the first argument unless the second is greater. *)
Definition max (a b : num) : num := if gt b a then b else a.

(** [int(x)] *)
Definition int (x : num) : res Z :=
  match x with
  | NInt a => Ok a
  | NFloat f => to_int f
  end.

End PyNum.

(** ** Time codec: [adjust_time] *)

Import Float PyStr PyInt PyNum.
Local Open Scope string_scope.
Local Open Scope Z_scope.

(** Lines 495-497: the four integer fields of [time_str]. *)
Definition decode (time_str : string) : res (Z * Z * Z * Z) :=
  match split "," time_str with
  | [time_part; ms_part] =>
      match split ":" time_part with
      | [a; b; c] =>
          hours <- py_int a ;;
          minutes <- py_int b ;;
          seconds <- py_int c ;;
          milliseconds <- py_int ms_part ;;
          Ok (hours, minutes, seconds, milliseconds)
      | _ => Raise ValueError
      end
  | _ => Raise ValueError
  end.

(** Line 499. *)
Definition total_seconds (t : Z * Z * Z * Z) : res num :=
  let '(hours, minutes, seconds, milliseconds) := t in
  frac <- truediv (NInt milliseconds) (NInt 1000) ;;
  add (NInt (hours * 3600 + minutes * 60 + seconds)) frac.

(** Line 500: the offset is added and the sum clamped at 0. *)
Definition shifted_total (t : Z * Z * Z * Z) (offset_seconds : num) : res num :=
  total <- total_seconds t ;;
  moved <- add total offset_seconds ;;
  Ok (PyNum.max (NInt 0) moved).

(** Lines 502-505: back to hours, minutes, seconds, milliseconds. *)
Definition decompose (total_seconds : num) : res (Z * Z * Z * Z) :=
  q <- floordiv total_seconds (NInt 3600) ;;
  hours <- PyNum.int q ;;
  r <- modulo total_seconds (NInt 3600) ;;
  q' <- floordiv r (NInt 60) ;;
  minutes <- PyNum.int q' ;;
  r' <- modulo total_seconds (NInt 60) ;;
  seconds_int <- PyNum.int r' ;;
  f <- modulo total_seconds (NInt 1) ;;
  p <- mul f (NInt 1000) ;;
  milliseconds <- PyNum.int p ;;
  Ok (hours, minutes, seconds_int, milliseconds).

(** Line 507. *)
Definition format_time (t : Z * Z * Z * Z) : string :=
  let '(hours, minutes, seconds, milliseconds) := t in
  format_d 2 hours ++ ":" ++ format_d 2 minutes ++ ":" ++
  format_d 2 seconds ++ "," ++ format_d 3 milliseconds.

(** The body of the [try] of [adjust_time]. *)
Definition adjust_time_try (time_str : string) (offset_seconds : num) : res string :=
  t <- decode time_str ;;
  total_seconds <- shifted_total t offset_seconds ;;
  t' <- decompose total_seconds ;;
  Ok (format_time t').

(** [adjust_time]: any exception gives back [time_str]. *)
Definition adjust_time (time_str : string) (offset_seconds : num) : string :=
  match adjust_time_try time_str offset_seconds with
  | Ok s => s
  | Raise _ => time_str
  end.

(** ** Offset transform: [apply_time_offset] *)

(** Lines 475-484: what is appended to [modified_lines] for one line. *)
Definition transform_line (offset_seconds : num) (line : string) : string :=
  if contains "-->" line then
    match split " --> " (strip line) with
    | [p0; p1] =>
        let start_time := adjust_time p0 offset_seconds in
        let end_time := adjust_time p1 offset_seconds in
        start_time ++ " --> " ++ end_time
    | _ => line
    end
  else line.

(** The text written back for the text read ([content]); for a zero
    offset the function returns before it opens the file. *)
Definition apply_time_offset (content : string) (offset_seconds : num) : string :=
  if PyNum.equals_zero offset_seconds then content
  else
    let lines := split newline content in
    let modified_lines := map (transform_line offset_seconds) lines in
    join newline modified_lines.

(** ** File discovery: [find_video_files] *)

Module Discovery.

(** What lies under a folder: files and sub-folders, in the order in which
    the operating system lists them. *)
#[local] Unset Elimination Schemes.
Inductive entry : Type :=
| File (name : string)
| Dir (name : string) (children : list entry).
#[local] Set Elimination Schemes.

(** A path is the list of its components, which is what [PurePosixPath]
    compares. *)
Definition path : Type := list string.

(** Line 35. *)
Definition video_formats : list string :=
  [".mp4"; ".avi"; ".mkv"; ".mov"; ".wmv"; ".flv"; ".webm"; ".m4v"; ".mpg"; ".mpeg"].

Definition mem (x : string) (l : list string) : bool := existsb (String.eqb x) l.

(** The part of [s] from its last full stop on, if it has one. *)
Fixpoint from_last_dot (s : string) : option string :=
  match s with
  | EmptyString => None
  | String c s' =>
      match from_last_dot s' with
      | Some t => Some t
      | None => if code c =? 46 then Some s else None
      end
  end.

(** [PurePath.suffix] of a file name: from the last full stop on, provided
    that stop is neither the first nor the last character. *)
Definition suffix (name : string) : string :=
  match name with
  | EmptyString => EmptyString
  | String _ rest =>
      match from_last_dot rest with
      | Some t => if (1 <? length t)%nat then t else EmptyString
      | None => EmptyString
      end
  end.

Definition name_of (p : path) : string := last p EmptyString.

(** [folder.rglob('*')]: every entry below the folder, with [is_file()]. *)
Fixpoint walk (dir : path) (e : entry) : list (path * bool) :=
  match e with
  | File n => [((dir ++ [n])%list, true)]
  | Dir n cs => ((dir ++ [n])%list, false) :: flat_map (walk (dir ++ [n])%list) cs
  end.

Definition rglob (folder : path) (children : list entry) : list (path * bool) :=
  flat_map (walk folder) children.

(** Order of paths: component by component, each by code points. *)
Fixpoint path_compare (p q : path) : comparison :=
  match p, q with
  | [], [] => Eq
  | [], _ :: _ => Lt
  | _ :: _, [] => Gt
  | a :: p', b :: q' =>
      match String.compare a b with
      | Eq => path_compare p' q'
      | c => c
      end
  end.

Definition path_leb (p q : path) : bool :=
  match path_compare p q with
  | Gt => false
  | _ => true
  end.

Fixpoint insert (p : path) (l : list path) : list path :=
  match l with
  | [] => [p]
  | q :: l' => if path_leb p q then p :: l else q :: insert p l'
  end.

(** [sorted(l)]: the order of paths is total and equal paths are the same
    value, so the result does not depend on the sorting algorithm. *)
Fixpoint sorted (l : list path) : list path :=
  match l with
  | [] => []
  | p :: l' => insert p (sorted l')
  end.

Definition is_video (x : path * bool) : bool :=
  snd x && mem (lower (suffix (name_of (fst x)))) video_formats.

(** Lines 333-342. *)
Definition find_video_files (folder_path : path) (children : list entry) : list path :=
  let video_files := map fst (filter is_video (rglob folder_path children)) in
  sorted video_files.

End Discovery.

(** ** Batch orchestration *)

Module Batch.

(** What the outside world does while one video is handled. *)
Record file_env : Type := {
  video : string;
  (** [srt_path.exists()] when the file is reached *)
  srt_exists : bool;
  (** [srt_path.unlink()] raises *)
  unlink_fails : bool;
  (** [subprocess.Popen] raises *)
  spawn_fails : bool;
  (** number of polls that find the transcriber still running *)
  run_polls : nat;
  (** exit status of the transcriber *)
  returncode : Z;
  (** [stop_processing()] is called during this sleep of the monitor loop *)
  stop_during : option nat;
  (** text of the subtitle file the transcriber leaves, if any *)
  srt_written : option string;
  (** [video_path.stat()] raises *)
  stat_fails : bool;
  (** seconds spent on the file *)
  elapsed : Z
}.

Record settings : Type := {
  remove_existing : bool;
  offset : num
}.

Inductive event : Type :=
| LogProcessing (v : string)
| LogSkipping (v : string)
| Unlink (v : string)
| Spawn (v : string)
| Terminate (v : string)
| WriteSrt (v : string) (content : string)
| LogCompleted (v : string)
| LogError (v : string)
| LogUnexpected (v : string)
| LogStopped
| LogStarting (n : nat)
| LogComplete (success_count total : nat)
| LogCritical.

Record state : Type := {
  processing : bool;
  total_files : nat;
  files_processed : nat;
  processing_times : list Z;
  trace : list event
}.

Definition emit (e : event) (st : state) : state :=
  {| processing := processing st;
     total_files := total_files st;
     files_processed := files_processed st;
     processing_times := processing_times st;
     trace := (trace st ++ [e])%list |}.

Definition set_processing (b : bool) (st : state) : state :=
  {| processing := b;
     total_files := total_files st;
     files_processed := files_processed st;
     processing_times := processing_times st;
     trace := trace st |}.

(** Lines 427-429: the loop runs while the transcriber has not exited and
    the flag is set; [tick] numbers the sleeps.  Returns the flag read at
    line 431. *)
Fixpoint monitor (remaining tick : nat) (stop : option nat) (flag : bool) : bool :=
  match remaining with
  | O => flag
  | S r =>
      if flag then
        let flag' :=
          match stop with
          | Some k => negb (Nat.eqb k tick)
          | None => true
          end in
        monitor r (S tick) stop flag'
      else false
  end.

(** Lines 373-460; the exceptions caught at 453 and 456 are [Raise]. *)
Definition process_video_try (cfg : settings) (f : file_env) (st : state)
  : state * res bool :=
  let st := emit (LogProcessing (video f)) st in
  if srt_exists f && negb (remove_existing cfg) then
    (emit (LogSkipping (video f)) st, Ok true)
  else
    let unlinking := srt_exists f && remove_existing cfg in
    if unlinking && unlink_fails f then (st, Raise OSError)
    else
      let st := if unlinking then emit (Unlink (video f)) st else st in
      if spawn_fails f then (st, Raise OSError)
      else
        let st := emit (Spawn (video f)) st in
        let flag := monitor (run_polls f) 0 (stop_during f) (processing st) in
        let st := set_processing flag st in
        if negb flag then (emit (Terminate (video f)) st, Ok false)
        else if negb (returncode f =? 0) then (st, Raise CalledProcessError)
        else
          let st :=
            match srt_written f with
            | Some content =>
                if negb (PyNum.equals_zero (offset cfg))
                then emit (WriteSrt (video f) (apply_time_offset content (offset cfg))) st
                else st
            | None => st
            end in
          let st :=
            {| processing := processing st;
               total_files := total_files st;
               files_processed := files_processed st;
               processing_times := (processing_times st ++ [elapsed f])%list;
               trace := trace st |} in
          if stat_fails f then (st, Raise OSError)
          else (emit (LogCompleted (video f)) st, Ok true).

Definition process_video_optimized (cfg : settings) (f : file_env) (st : state)
  : state * bool :=
  match process_video_try cfg f st with
  | (st', Ok b) => (st', b)
  | (st', Raise CalledProcessError) => (emit (LogError (video f)) st', false)
  | (st', Raise _) => (emit (LogUnexpected (video f)) st', false)
  end.

(** Lines 533-541.  The last component tells whether the loop was left
    by [break]. *)
Fixpoint process_loop (cfg : settings) (video_files : list file_env)
  (st : state) (success_count : nat) : state * nat * bool :=
  match video_files with
  | [] => (st, success_count, false)
  | f :: rest =>
      if negb (processing st) then (emit LogStopped st, success_count, true)
      else
        let '(st1, ok) := process_video_optimized cfg f st in
        let success_count := if ok then S success_count else success_count in
        let st2 :=
          {| processing := processing st1;
             total_files := total_files st1;
             files_processed := S (files_processed st1);
             processing_times := processing_times st1;
             trace := trace st1 |} in
        process_loop cfg rest st2 success_count
  end.

(** Terminal states of a run. *)
Inductive outcome : Type :=
| Refused
| Completed
| StoppedByUser
| Failed.

Record run : Type := {
  final : state;
  success_count : nat;
  result : outcome
}.

(** The state [start_processing] hands to the worker (lines 571-577). *)
Definition started : state :=
  {| processing := true;
     total_files := 0;
     files_processed := 0;
     processing_times := [];
     trace := [] |}.

(** Lines 511-559.  [folder_valid] is the test of line 515, [found] the
    outcome of [find_video_files] with what happens around each file. *)
Definition process_videos (cfg : settings) (folder_valid : bool)
  (found : res (list file_env)) (st : state) : run :=
  if negb folder_valid then
    {| final := set_processing false st; success_count := 0; result := Refused |}
  else
    match found with
    | Raise _ =>
        {| final := set_processing false (emit LogCritical st);
           success_count := 0; result := Failed |}
    | Ok [] =>
        {| final := set_processing false st; success_count := 0; result := Refused |}
    | Ok video_files =>
        let st :=
          {| processing := processing st;
             total_files := List.length video_files;
             files_processed := 0;
             processing_times := processing_times st;
             trace := trace st |} in
        let st := emit (LogStarting (List.length video_files)) st in
        let '(st, n, stopped) := process_loop cfg video_files st 0 in
        let st := emit (LogComplete n (List.length video_files)) st in
        {| final := set_processing false st;
           success_count := n;
           result := if stopped then StoppedByUser else Completed |}
    end.

End Batch.

(** ** Subtitle paths: [with_suffix] *)

Module Paths.

Import Discovery.
Local Open Scope string_scope.

(** [s[:k]] *)
Fixpoint take (k : nat) (s : string) : string :=
  match k, s with
  | S k', String c s' => String c (take k' s')
  | _, _ => EmptyString
  end.

(** [PurePath.with_suffix] on the last component, for a new suffix that
    starts with a full stop and holds no separator: the old suffix, if
    there is one, is cut off and the new one appended. *)
Definition with_suffix_name (name new : string) : string :=
  let old_suffix := suffix name in
  match old_suffix with
  | EmptyString => name ++ new
  | _ => take (length name - length old_suffix) name ++ new
  end.

(** [p.with_suffix(new)]; a path without a name is refused. *)
Definition with_suffix (p : path) (new : string) : res path :=
  match name_of p with
  | EmptyString => Raise ValueError
  | name => Ok (removelast p ++ [with_suffix_name name new])%list
  end.

(** [p.parent] *)
Definition parent (p : path) : path := removelast p.

(** Line 381. *)
Definition srt_path (video_path : path) : res path :=
  with_suffix video_path ".srt".

End Paths.

(** ** Setup checks: [check_setup], [install_whisper], [preload_models] *)

Module Setup.

Local Open Scope string_scope.
Local Open Scope Z_scope.

(** What a command meets when [subprocess.run] starts it: it runs and
    exits with a status, there is no such executable, or the operating
    system refuses to start it. *)
Inductive launch : Type :=
| Exits (code : Z)
| NotFound
| Denied.

Inductive exc : Type :=
| CalledProcessError
| FileNotFoundError
| PermissionError
| TimeoutExpired.

Inductive ret (A : Type) : Type :=
| Returns (a : A)
| Raises (e : exc).

Arguments Returns {A} a.
Arguments Raises {A} e.

(** [subprocess.run(cmd, capture_output=True, check=True)] *)
Definition run_checked (l : launch) : ret unit :=
  match l with
  | Exits 0 => Returns tt
  | Exits _ => Raises CalledProcessError
  | NotFound => Raises FileNotFoundError
  | Denied => Raises PermissionError
  end.

(** The same with [timeout=10]; [None] is a command that is still running
    after ten seconds. *)
Definition run_checked_timeout (l : option launch) : ret unit :=
  match l with
  | Some l' => run_checked l'
  | None => Raises TimeoutExpired
  end.

(** What the commands of one setup check meet. *)
Record env : Type := {
  (** [ffmpeg -version] *)
  ffmpeg_version : launch;
  (** [whisper --help] *)
  whisper_help : launch;
  (** [pip install openai-whisper] *)
  pip_install : launch;
  (** [whisper --model <model> --help] *)
  model_help : string -> option launch
}.

Inductive event : Type :=
| Run (cmd : list string)
| LogChecking
| LogFfmpegFound
| LogFfmpegMissing
| LogWhisperFound
| LogWhisperMissing
| LogInstalling
| LogInstalled
| LogInstallFailed
| LogModels
| LogModelReady (model : string)
| LogModelLater (model : string)
| ShowError (title : string).

Record state : Type := {
  whisper_path : option string;
  processing : bool;
  log : list event
}.

Definition emit (e : event) (st : state) : state :=
  {| whisper_path := whisper_path st;
     processing := processing st;
     log := (log st ++ [e])%list |}.

Definition set_whisper_path (p : string) (st : state) : state :=
  {| whisper_path := Some p;
     processing := processing st;
     log := log st |}.

Definition set_processing (b : bool) (st : state) : state :=
  {| whisper_path := whisper_path st;
     processing := b;
     log := log st |}.

(** Lines 276-287: only [CalledProcessError] is caught. *)
Definition install_whisper (e : env) (st : state) : state * ret bool :=
  let st := emit LogInstalling st in
  let st := emit (Run ["pip"; "install"; "openai-whisper"]) st in
  match run_checked (pip_install e) with
  | Returns _ =>
      let st := emit LogInstalled st in
      (set_whisper_path "whisper" st, Returns true)
  | Raises CalledProcessError => (emit LogInstallFailed st, Returns false)
  | Raises x => (st, Raises x)
  end.

Definition models_to_check : list string := ["tiny"; "base"; "small"].

(** Lines 294-301: the loop over the models. *)
Fixpoint preload_loop (e : env) (models : list string) (st : state)
  : state * ret unit :=
  match models with
  | [] => (st, Returns tt)
  | model :: rest =>
      let st := emit (Run ["whisper"; "--model"; model; "--help"]) st in
      match run_checked_timeout (model_help e model) with
      | Returns _ => preload_loop e rest (emit (LogModelReady model) st)
      | Raises CalledProcessError | Raises TimeoutExpired =>
          preload_loop e rest (emit (LogModelLater model) st)
      | Raises x => (st, Raises x)
      end
  end.

(** Lines 289-301. *)
Definition preload_models (e : env) (st : state) : state * ret unit :=
  preload_loop e models_to_check (emit LogModels st).

(** Lines 250-274. *)
Definition check_setup (e : env) (st : state) : state * ret bool :=
  let st := emit LogChecking st in
  let st := emit (Run ["ffmpeg"; "-version"]) st in
  match run_checked (ffmpeg_version e) with
  | Raises CalledProcessError | Raises FileNotFoundError =>
      (emit LogFfmpegMissing st, Returns false)
  | Raises x => (st, Raises x)
  | Returns _ =>
      let st := emit LogFfmpegFound st in
      let st := emit (Run ["whisper"; "--help"]) st in
      let '(st, whisper) :=
        match run_checked (whisper_help e) with
        | Returns _ =>
            (emit LogWhisperFound (set_whisper_path "whisper" st), Returns true)
        | Raises CalledProcessError | Raises FileNotFoundError =>
            install_whisper e (emit LogWhisperMissing st)
        | Raises x => (st, Raises x)
        end in
      match whisper with
      | Raises x => (st, Raises x)
      | Returns false => (st, Returns false)
      | Returns true =>
          match preload_models e st with
          | (st, Raises x) => (st, Raises x)
          | (st, Returns _) => (st, Returns true)
          end
      end
  end.

(** Lines 561-584, up to the start of the worker thread: [true] is
    returned when the thread is started.  [log] is the history of
    messages and commands; that line 576 empties the text widget does
    not show in it. *)
Definition start_processing (folder : string) (e : env) (st : state)
  : state * ret bool :=
  match folder with
  | EmptyString => (emit (ShowError "Error") st, Returns false)
  | _ =>
      match check_setup e st with
      | (st, Raises x) => (st, Raises x)
      | (st, Returns false) => (emit (ShowError "Setup Error") st, Returns false)
      | (st, Returns true) => (set_processing true st, Returns true)
      end
  end.

(** Lines 610-629, the check made by [main] before the window is built:
    what is printed is left out. *)
Definition check_dependencies (e : env) : ret bool :=
  match run_checked (ffmpeg_version e) with
  | Raises CalledProcessError | Raises FileNotFoundError => Returns false
  | Raises x => Raises x
  | Returns _ =>
      match run_checked (whisper_help e) with
      | Returns _ | Raises CalledProcessError | Raises FileNotFoundError =>
          Returns true
      | Raises x => Raises x
      end
  end.

End Setup.

(** ** Elapsed time and ETA: [update_timing_display] *)

Module Display.

Import Float PyInt PyNum.
Local Open Scope string_scope.
Local Open Scope Z_scope.

(** What the two labels show; the average is shown with one decimal,
    which is not modelled: the number itself is kept. *)
Record labels : Type := {
  elapsed_str : string;
  avg_time_per_file : option num;
  eta : option (string * Z)
}.

(** [f"{int(t//60)}:{int(t%60):02d}"] (lines 360, 366 and 607). *)
Definition minutes_seconds (t : num) : res string :=
  q <- floordiv t (NInt 60) ;;
  minutes <- PyNum.int q ;;
  r <- modulo t (NInt 60) ;;
  seconds <- PyNum.int r ;;
  Ok (format_d 0 minutes ++ ":" ++ format_d 2 seconds).

(** Lines 354-371.  [start_time] is [None] until a batch starts; [now] is
    [time.time()]. *)
Definition update_timing_display (start_time : option float) (now : float)
  (files_processed total_files : Z) : res (option labels) :=
  match start_time with
  | None => Ok None
  | Some t0 =>
      if is_zero t0 then Ok None
      else
        let elapsed := NFloat (fsub now t0) in
        elapsed_str <- minutes_seconds elapsed ;;
        if 0 <? files_processed then
          avg_time_per_file <- truediv elapsed (NInt files_processed) ;;
          let remaining_files := total_files - files_processed in
          eta_seconds <- mul (NInt remaining_files) avg_time_per_file ;;
          eta_str <- minutes_seconds eta_seconds ;;
          Ok (Some {| elapsed_str := elapsed_str;
                      avg_time_per_file := Some avg_time_per_file;
                      eta := Some (eta_str, remaining_files) |})
        else
          Ok (Some {| elapsed_str := elapsed_str;
                      avg_time_per_file := None;
                      eta := None |})
  end.

End Display.

(** ** Speed profiles: [speed_configs], [set_speed_mode] *)

Module Profiles.

Import Float.
Local Open Scope string_scope.
Local Open Scope Z_scope.

Inductive mode : Type :=
| ultra_fast
| fast
| balanced.

Record config : Type := {
  model : string;
  threads : Z;
  chunk_length : Z;
  temperature : float;
  beam_size : Z;
  best_of : Z;
  no_speech_threshold : float;
  compression_ratio_threshold : float
}.

(** A decimal literal with one digit after the point, [n / 10]. *)
Definition tenths (n : Z) : float := of_ratio (n * U) 10.

(** [os.cpu_count() or 4] *)
Definition cpus (cpu_count : option Z) : Z :=
  match cpu_count with
  | Some n => if n =? 0 then 4 else n
  | None => 4
  end.

(** Lines 38-69, in the order of the dictionary. *)
Definition speed_configs (cpu_count : option Z) : list (mode * config) :=
  [ (ultra_fast,
     {| model := "tiny"; threads := cpus cpu_count; chunk_length := 10;
        temperature := tenths 0; beam_size := 1; best_of := 1;
        no_speech_threshold := tenths 3;
        compression_ratio_threshold := tenths 24 |});
    (fast,
     {| model := "base"; threads := Z.max 1 (cpus cpu_count - 1);
        chunk_length := 15;
        temperature := tenths 1; beam_size := 2; best_of := 2;
        no_speech_threshold := tenths 4;
        compression_ratio_threshold := tenths 22 |});
    (balanced,
     {| model := "small"; threads := Z.max 1 (cpus cpu_count - 2);
        chunk_length := 20;
        temperature := tenths 2; beam_size := 3; best_of := 3;
        no_speech_threshold := tenths 5;
        compression_ratio_threshold := tenths 20 |}) ].

Definition mode_eqb (a b : mode) : bool :=
  match a, b with
  | ultra_fast, ultra_fast | fast, fast | balanced, balanced => true
  | _, _ => false
  end.

(** [x == y] on floats. *)
Definition feq (x y : float) : bool :=
  match x, y with
  | Fin a, Fin b => a =? b
  | Inf a, Inf b => Bool.eqb a b
  | _, _ => false
  end.

(** [v == w] on two of the dictionaries: the same keys, equal values. *)
Definition config_eqb (v w : config) : bool :=
  String.eqb (model v) (model w) &&
  (threads v =? threads w) &&
  (chunk_length v =? chunk_length w) &&
  feq (temperature v) (temperature w) &&
  (beam_size v =? beam_size w) &&
  (best_of v =? best_of w) &&
  feq (no_speech_threshold v) (no_speech_threshold w) &&
  feq (compression_ratio_threshold v) (compression_ratio_threshold w).

(** [self.speed_configs[mode]] (line 243); the three buttons and line 228
    pass no other key. *)
Fixpoint lookup (m : mode) (d : list (mode * config)) : option config :=
  match d with
  | [] => None
  | (k, v) :: rest => if mode_eqb k m then Some v else lookup m rest
  end.

(** [next(k for k, v in self.speed_configs.items() if v == current)]
    (lines 325 and 348); [None] is [StopIteration]. *)
Fixpoint mode_of (current : config) (d : list (mode * config)) : option mode :=
  match d with
  | [] => None
  | (k, v) :: rest => if config_eqb v current then Some k else mode_of current rest
  end.

End Profiles.

(** * Vocabulary of the properties *)

Module Vocabulary.

Import Float PyStr PyInt PyNum Discovery Batch.
Local Open Scope string_scope.
Local Open Scope Z_scope.

(** ** Batch runs *)

(** A file that is skipped: subtitle present, overwriting off. *)
Definition skipped (cfg : settings) (f : file_env) : bool :=
  srt_exists f && negb (remove_existing cfg).

(** A file whose transcription runs to a zero exit and is recorded. *)
Definition transcribed (cfg : settings) (f : file_env) : bool :=
  negb (skipped cfg f) &&
  negb (srt_exists f && remove_existing cfg && unlink_fails f) &&
  negb (spawn_fails f) && (returncode f =? 0) && negb (stat_fails f).

(** The transcriber is started for the file and exits with a non-zero
    status. *)
Definition exits_nonzero (cfg : settings) (f : file_env) : bool :=
  negb (skipped cfg f) &&
  negb (srt_exists f && remove_existing cfg && unlink_fails f) &&
  negb (spawn_fails f) && negb (returncode f =? 0).

(** The transcriber is started for the file and [stop_processing()] is
    called while it is still running. *)
Definition stopped_midway (cfg : settings) (f : file_env) : bool :=
  negb (skipped cfg f) &&
  negb (srt_exists f && remove_existing cfg && unlink_fails f) &&
  negb (spawn_fails f) &&
  match stop_during f with
  | Some k => (k <? run_polls f)%nat
  | None => false
  end.

(** [stop_processing()] is not called while the file is handled. *)
Definition no_stop (f : file_env) : Prop := stop_during f = None.

(** Number of files of a batch with a property. *)
Definition count (p : file_env -> bool) (l : list file_env) : nat :=
  List.length (filter p l).

(** The trace shows that work on the video [v] began. *)
Definition started_for (v : string) (tr : list event) : bool :=
  existsb (fun e => match e with
                    | LogProcessing w | Spawn w => String.eqb v w
                    | _ => false
                    end) tr.

(** The trace shows [process.terminate()] for the video [v]. *)
Definition terminated (v : string) (tr : list event) : bool :=
  existsb (fun e => match e with
                    | Terminate w => String.eqb v w
                    | _ => false
                    end) tr.

(** The trace shows the transcriber started for the video [v]. *)
Definition spawned (v : string) (tr : list event) : bool :=
  existsb (fun e => match e with
                    | Spawn w => String.eqb v w
                    | _ => false
                    end) tr.

(** Line 541. *)
Definition bump (st : state) : state :=
  {| processing := processing st;
     total_files := total_files st;
     files_processed := S (files_processed st);
     processing_times := processing_times st;
     trace := trace st |}.

(** Sample environments: a video that transcribes, one whose subtitle is
    already there, one whose transcriber exits with status 1, one during
    which the user stops the run; and the settings with overwriting off. *)
Definition plain (v : string) : file_env :=
  {| video := v; srt_exists := false; unlink_fails := false;
     spawn_fails := false; run_polls := 5; returncode := 0;
     stop_during := None; srt_written := Some "1"%string;
     stat_fails := false; elapsed := 12 |}.

Definition with_subtitle (v : string) : file_env :=
  {| video := v; srt_exists := true; unlink_fails := false;
     spawn_fails := false; run_polls := 5; returncode := 0;
     stop_during := None; srt_written := None;
     stat_fails := false; elapsed := 0 |}.

Definition failing (v : string) : file_env :=
  {| video := v; srt_exists := false; unlink_fails := false;
     spawn_fails := false; run_polls := 5; returncode := 1;
     stop_during := None; srt_written := None;
     stat_fails := false; elapsed := 3 |}.

Definition interrupted (v : string) : file_env :=
  {| video := v; srt_exists := false; unlink_fails := false;
     spawn_fails := false; run_polls := 5; returncode := 0;
     stop_during := Some 2%nat; srt_written := None;
     stat_fails := false; elapsed := 3 |}.

Definition keep_existing : settings :=
  {| remove_existing := false; offset := NInt 0 |}.

(** ** Folder trees and the order of paths *)


(** [p <= q] for paths. *)
Definition path_le (p q : path) : Prop := path_leb p q = true.


(** ** Texts *)


(** The character [c] occurs in [s]. *)
Fixpoint occurs (c : ascii) (s : string) : bool :=
  match s with
  | String a s' => Ascii.eqb a c || occurs c s'
  | EmptyString => false
  end.

(** The one-character text. *)
Definition single (c : ascii) : string := String c "".

(** The first character is a digit. *)
Definition starts_with_digit (s : string) : bool :=
  match s with
  | String c _ => is_digit c
  | EmptyString => false
  end.

Definition comma : ascii := ","%char.
Definition colon : ascii := ":"%char.

(** The strict shape [HH:MM:SS,mmm] is made of digits only, two or more
    for the hours, two for minutes and seconds, three for milliseconds. *)
Fixpoint all_digits (s : string) : bool :=
  match s with
  | String c s' => is_digit c && all_digits s'
  | EmptyString => true
  end.

(** [s] has the strict shape. *)
Definition well_formed (s : string) : bool :=
  match split "," s with
  | [time_part; ms] =>
      match split ":" time_part with
      | [h; m; sec] =>
          all_digits h && (2 <=? length h)%nat &&
          all_digits m && (length m =? 2)%nat &&
          all_digits sec && (length sec =? 2)%nat &&
          all_digits ms && (length ms =? 3)%nat
      | _ => false
      end
  | _ => false
  end.



(** ** Floats *)

(** [2^-53] in units. *)
Definition P : Z := 2 ^ 1021.

(** The shift chosen by [round_pos]. *)
Definition shift (w : Z) : Z := Z.max 0 (bits w - 53).

(** At most 53 significant bits. *)
Definition fits53 (n : Z) : Prop :=
  exists q s, 0 <= s /\ n = q * 2 ^ s /\ 0 <= q <= 2 ^ 53.

(** Rounded floats that are not negative. *)
Definition nonneg (f : float) : Prop :=
  match f with
  | Fin n => 0 <= n /\ fits53 n
  | Inf b => b = false
  | NaN => False
  end.

(** Floats that are not negative, whatever their significand. *)
Definition sign_ok (f : float) : Prop :=
  match f with
  | Fin n => 0 <= n
  | Inf b => b = false
  | NaN => False
  end.

(** The quotient, before it is snapped to an integer. *)
Definition raw_quotient (x w : Z) : float :=
  fdiv (fsub (Fin x) (Fin (x mod w))) (Fin w).

(** The same float. *)
Definition same (x y : float) : bool :=
  match x, y with
  | Fin a, Fin b => a =? b
  | Inf a, Inf b => Bool.eqb a b
  | NaN, NaN => true
  | _, _ => false
  end.

(** Sum, product and quotient of two floats are those of [SpecFloat]. *)
Definition agree (a b : float) : bool :=
  same (of_spec (SFadd 53 1024 (to_spec a) (to_spec b))) (fadd a b) &&
  same (of_spec (SFmul 53 1024 (to_spec a) (to_spec b))) (fmul a b) &&
  same (of_spec (SFdiv 53 1024 (to_spec a) (to_spec b))) (fdiv a b).

(** Sample operands: [1.0], the floats nearest to [0.001] and [1.001], a
    subnormal, the largest finite float, [-5.0]. *)
Definition operands : list float :=
  [lit 1 0; lit 1152921504606847 (-60); lit 2254051613498933 (-51);
   lit 3 (-1074); lit (2 ^ 53 - 1) 971; lit (-5) 0].

(** ** Timestamps and offsets *)

(** The Timestamp invariant. *)
Definition timestamp (t : Z * Z * Z * Z) : Prop :=
  let '(hours, minutes, seconds, milliseconds) := t in
  0 <= hours /\ 0 <= minutes < 60 /\ 0 <= seconds < 60 /\ 0 <= milliseconds < 1000.


(** The offsets of the examples: [1.75], [-5.0], [1.0] and the smallest
    positive float. *)
Definition plus_1_75 : num := NFloat (lit 7 (-2)).
Definition minus_5 : num := NFloat (lit (-5) 0).


End Vocabulary.

(** * Vocabulary of the further properties *)

Module Terms.

Import Float PyStr PyInt PyNum Discovery Batch Vocabulary.
Local Open Scope string_scope.
Local Open Scope Z_scope.

(** ** Traces of a batch *)

(** The videos whose handling began, in the order of the trace. *)
Fixpoint started_videos (tr : list event) : list string :=
  match tr with
  | [] => []
  | LogProcessing v :: rest => v :: started_videos rest
  | _ :: rest => started_videos rest
  end.

(** What has to hold of the file [f] for the event [e] to be among those
    its handling adds: a subtitle is removed only if it was there and
    overwriting is on; the transcriber is started only if the file is not
    skipped; a subtitle is rewritten only under a non-zero offset, after
    exit status 0, with the transform of what the transcriber wrote; the
    messages of the loop itself are never added. *)
Definition justified (cfg : settings) (f : file_env) (e : event) : bool :=
  match e with
  | Unlink v => String.eqb v (video f) && srt_exists f && remove_existing cfg
  | Spawn v => String.eqb v (video f) && negb (skipped cfg f)
  | Terminate v => String.eqb v (video f) && negb (skipped cfg f)
  | WriteSrt v c =>
      String.eqb v (video f) && negb (PyNum.equals_zero (offset cfg)) &&
      (returncode f =? 0) &&
      match srt_written f with
      | Some c0 => String.eqb c (apply_time_offset c0 (offset cfg))
      | None => false
      end
  | LogProcessing v | LogSkipping v | LogCompleted v
  | LogError v | LogUnexpected v => String.eqb v (video f)
  | LogStopped | LogStarting _ | LogComplete _ _ | LogCritical => false
  end.

(** The event belongs to the loop, not to a file. *)
Definition of_loop (e : event) : bool :=
  match e with
  | LogStopped | LogStarting _ | LogComplete _ _ | LogCritical => true
  | _ => false
  end.

(** The state in which the loop of [process_videos] begins (lines
    525-529). *)
Definition run_start (len : nat) : state :=
  emit (LogStarting len)
    {| processing := true; total_files := len; files_processed := 0;
       processing_times := []; trace := [] |}.

Definition is_unlink (e : event) : bool :=
  match e with Unlink _ => true | _ => false end.

Definition is_write (e : event) : bool :=
  match e with WriteSrt _ _ => true | _ => false end.

Definition is_spawn (e : event) : bool :=
  match e with Spawn _ => true | _ => false end.

(** ** Folder trees *)

(** Two trees that differ only in the order in which the entries of their
    folders are listed. *)
Inductive shuffle : entry -> entry -> Prop :=
| shuffle_file (n : string) : shuffle (File n) (File n)
| shuffle_dir (n : string) (cs ds : list entry) :
    shuffles cs ds -> shuffle (Dir n cs) (Dir n ds)
with shuffles : list entry -> list entry -> Prop :=
| shuffles_nil : shuffles [] []
| shuffles_skip (e e' : entry) (cs ds : list entry) :
    shuffle e e' -> shuffles cs ds -> shuffles (e :: cs) (e' :: ds)
| shuffles_swap (a b : entry) (cs : list entry) :
    shuffles (a :: b :: cs) (b :: a :: cs)
| shuffles_trans (cs ds es : list entry) :
    shuffles cs ds -> shuffles ds es -> shuffles cs es.

(** An extension proper: not empty and without a full stop. *)
Definition extension (e : string) : Prop :=
  e <> "" /\ occurs "."%char e = false.

(** ** Timestamps in eighths of a second *)

(** One eighth of a second, in units. *)
Definition E8 : Z := 2 ^ 1071.

(** The fields of a time of [n] eighths of a second. *)
Definition of_eighths (n : Z) : Z * Z * Z * Z :=
  (n / 28800, n mod 28800 / 480, n mod 480 / 8, 125 * (n mod 8)).

(** A timestamp as a count of milliseconds. *)
Definition millis (t : Z * Z * Z * Z) : Z :=
  let '(hours, minutes, seconds, milliseconds) := t in
  ((hours * 60 + minutes) * 60 + seconds) * 1000 + milliseconds.

(** A text without white space. *)
Definition spaceless (s : string) : Prop :=
  forall c, is_space c = true -> occurs c s = false.

(** The integers from 0 to 999. *)
Definition below_1000 : list Z := map Z.of_nat (seq 0 1000).

(** Widths of the fields of line 507 for a number below 1000. *)
Definition widths_ok (n : Z) : bool :=
  (length (format_d 2 n) =? (if (n <? 100)%Z then 2 else 3))%nat &&
  (length (format_d 3 n) =? 3)%nat.

End Terms.

(** ** Setup checks *)

Module Readiness.

Import Setup.
Local Open Scope string_scope.

(** The command runs and exits with status 0. *)
Definition works (l : launch) : bool :=
  match l with
  | Exits 0 => true
  | _ => false
  end.

(** A failure that [except (CalledProcessError, FileNotFoundError)]
    catches: a non-zero status or no such executable. *)
Definition soft (l : launch) : bool :=
  match l with
  | Exits 0 => false
  | Exits _ => true
  | NotFound => true
  | Denied => false
  end.

(** A model check that [except (CalledProcessError, TimeoutExpired)] does
    not catch. *)
Definition uncaught (l : option launch) : bool :=
  match l with
  | Some NotFound | Some Denied => true
  | _ => false
  end.

(** [whisper] answers, or can be installed. *)
Definition whisper_available (e : env) : bool :=
  works (whisper_help e) || (soft (whisper_help e) && works (pip_install e)).

(** The environments in which the setup check succeeds. *)
Definition ready (e : env) : bool :=
  works (ffmpeg_version e) && whisper_available e &&
  forallb (fun model => negb (uncaught (model_help e model))) models_to_check.

(** A command of [pip] was run. *)
Definition is_pip (ev : event) : bool :=
  match ev with
  | Run (program :: _) => String.eqb program "pip"
  | _ => false
  end.

(** A message box with an error was shown. *)
Definition is_error_box (ev : event) : bool :=
  match ev with
  | ShowError _ => true
  | _ => false
  end.

(** What a setup check can raise: [FileNotFoundError] needs a missing
    [pip] after a failed [whisper] check, or a missing [whisper] at a
    model check; a missing [ffmpeg] is caught. *)
Definition raised (e : env) (x : exc) : Prop :=
  match x with
  | FileNotFoundError =>
      works (ffmpeg_version e) = true /\
      ((soft (whisper_help e) = true /\ pip_install e = NotFound) \/
       exists model, In model models_to_check /\ model_help e model = Some NotFound)
  | PermissionError =>
      ffmpeg_version e = Denied \/ whisper_help e = Denied \/
      pip_install e = Denied \/
      exists model, In model models_to_check /\ model_help e model = Some Denied
  | CalledProcessError | TimeoutExpired => False
  end.

(** An environment in which everything is installed, one without
    [whisper] and without [pip], and one in which [whisper] has just been
    installed but is not on the search path. *)
Definition all_installed : env :=
  {| ffmpeg_version := Exits 0; whisper_help := Exits 0;
     pip_install := Exits 0; model_help := fun _ => Some (Exits 0) |}.

Definition nothing_but_ffmpeg : env :=
  {| ffmpeg_version := Exits 0; whisper_help := NotFound;
     pip_install := NotFound; model_help := fun _ => Some NotFound |}.

Definition installed_off_path : env :=
  {| ffmpeg_version := Exits 0; whisper_help := NotFound;
     pip_install := Exits 0; model_help := fun _ => Some NotFound |}.

Definition idle : state :=
  {| whisper_path := None; processing := false; log := [] |}.

End Readiness.

(** * Properties *)

(** ** Batch orchestration *)

Module BatchFacts.

Import Vocabulary.
Import Batch.

Lemma monitor_no_stop (n t : nat) : monitor n t None true = true.
Proof.
  revert t; induction n as [|n IH]; intros t; simpl; auto.
Qed.

Lemma monitor_off (n t : nat) (stop : option nat) : monitor n t stop false = false.
Proof.
  destruct n; reflexivity.
Qed.

Lemma monitor_stop (n t k : nat) :
  (t <= k)%nat -> (k < t + n)%nat -> monitor n t (Some k) true = false.
Proof.
  revert t; induction n as [|n IH]; intros t Hle Hlt; simpl.
  - lia.
  - destruct (Nat.eqb k t) eqn:E; simpl.
    + apply monitor_off.
    + apply Nat.eqb_neq in E. apply IH; lia.
Qed.

(** Per-file outcomes, read off the environment. *)

Lemma video_skipped (cfg : settings) (f : file_env) (st : state) :
  skipped cfg f = true ->
  process_video_optimized cfg f st =
    (emit (LogSkipping (video f)) (emit (LogProcessing (video f)) st), true).
Proof.
  unfold skipped, process_video_optimized, process_video_try.
  intros ->. reflexivity.
Qed.

Lemma video_transcribed (cfg : settings) (f : file_env) (st : state) :
  transcribed cfg f = true -> no_stop f -> processing st = true ->
  exists st',
    process_video_optimized cfg f st = (st', true) /\
    processing st' = true /\
    files_processed st' = files_processed st /\
    spawned (video f) (trace st') = true.
Proof.
  unfold transcribed, skipped, no_stop, process_video_optimized, process_video_try.
  intros H Hs Hp.
  repeat (apply andb_prop in H; destruct H as [H ?]).
  destruct (srt_exists f && negb (remove_existing cfg)); [discriminate|].
  destruct (srt_exists f && remove_existing cfg) eqn:E1; simpl in *.
  - destruct (unlink_fails f); [discriminate|]. simpl.
    destruct (spawn_fails f); [discriminate|]. simpl.
    rewrite Hs, Hp, monitor_no_stop. simpl.
    destruct (returncode f =? 0); [|discriminate]. simpl.
    destruct (stat_fails f); [discriminate|].
    eexists; split; [reflexivity|].
    destruct (srt_written f), (PyNum.equals_zero (offset cfg)); simpl;
      repeat split; unfold spawned; rewrite !existsb_app; simpl;
      rewrite String.eqb_refl, ?orb_true_r; reflexivity.
  - destruct (spawn_fails f); [discriminate|]. simpl.
    rewrite Hs, Hp, monitor_no_stop. simpl.
    destruct (returncode f =? 0); [|discriminate]. simpl.
    destruct (stat_fails f); [discriminate|].
    eexists; split; [reflexivity|].
    destruct (srt_written f), (PyNum.equals_zero (offset cfg)); simpl;
      repeat split; unfold spawned; rewrite !existsb_app; simpl;
      rewrite String.eqb_refl, ?orb_true_r; reflexivity.
Qed.

Ltac split_fields f :=
  destruct f as [v se uf sf rp rc sd sw stf el]; simpl in *.

Lemma video_without_stop (cfg : settings) (f : file_env) (st : state) :
  no_stop f -> processing st = true ->
  exists st',
    process_video_optimized cfg f st = (st', skipped cfg f || transcribed cfg f) /\
    processing st' = true /\
    files_processed st' = files_processed st.
Proof.
  unfold no_stop, transcribed, skipped, process_video_optimized, process_video_try.
  intros Hs Hp. split_fields f. subst sd.
  destruct se, (remove_existing cfg), uf, sf, (rc =? 0), stf; simpl;
    rewrite ?Hp, ?monitor_no_stop; simpl;
    try (eexists; repeat split; eassumption);
    destruct sw, (PyNum.equals_zero (offset cfg)); simpl;
    eexists; repeat split; eassumption.
Qed.

Lemma video_exits_nonzero (cfg : settings) (f : file_env) (st : state) :
  exits_nonzero cfg f = true -> no_stop f -> processing st = true ->
  exists st',
    process_video_optimized cfg f st = (st', false) /\
    processing st' = true /\
    files_processed st' = files_processed st.
Proof.
  intros H Hs Hp.
  destruct (video_without_stop cfg f st Hs Hp) as (st' & E & P & Q).
  exists st'. repeat split; auto. rewrite E. f_equal.
  unfold exits_nonzero, transcribed in *.
  destruct (skipped cfg f); simpl in *; [discriminate|].
  destruct (returncode f =? 0); simpl in *;
    rewrite ?andb_false_r in *; [discriminate|reflexivity].
Qed.

Lemma video_stopped_midway (cfg : settings) (f : file_env) (st : state) :
  stopped_midway cfg f = true -> processing st = true ->
  exists st',
    process_video_optimized cfg f st = (st', false) /\
    processing st' = false /\
    files_processed st' = files_processed st /\
    terminated (video f) (trace st') = true.
Proof.
  unfold stopped_midway, skipped, process_video_optimized, process_video_try.
  intros H Hp. split_fields f.
  destruct sd as [k|]; [|rewrite andb_false_r in H; discriminate].
  repeat (apply andb_prop in H; destruct H as [H ?]).
  match goal with K : (k <? rp)%nat = true |- _ => apply Nat.ltb_lt in K end.
  assert (M : monitor rp 0 (Some k) true = false) by (apply monitor_stop; lia).
  destruct se, (remove_existing cfg), uf, sf; simpl in *; try discriminate;
    rewrite Hp, M; simpl; eexists;
    (split; [reflexivity|]); (split; [reflexivity|]); (split; [reflexivity|]);
    unfold terminated; simpl; rewrite !existsb_app; simpl;
    rewrite String.eqb_refl, ?orb_true_r; reflexivity.
Qed.

Lemma video_failure_logged (cfg : settings) (f : file_env) (st : state) :
  exits_nonzero cfg f = true -> no_stop f -> processing st = true ->
  In (LogError (video f)) (trace (fst (process_video_optimized cfg f st))).
Proof.
  unfold exits_nonzero, skipped, no_stop, process_video_optimized, process_video_try.
  intros H Hs Hp. split_fields f. subst sd.
  destruct se, (remove_existing cfg), uf, sf, (rc =? 0); simpl in *;
    try discriminate; rewrite ?Hp, ?monitor_no_stop; simpl;
    apply in_or_app; right; left; reflexivity.
Qed.

(** Everything a file adds to the trace names that file. *)
Lemma video_trace (cfg : settings) (f : file_env) (st : state) :
  exists evs,
    trace (fst (process_video_optimized cfg f st)) = (trace st ++ evs)%list /\
    forall w, String.eqb w (video f) = false -> started_for w evs = false.
Proof.
  unfold process_video_optimized, process_video_try. split_fields f.
  destruct (monitor rp 0 sd (processing st)) eqn:M;
  destruct se, (remove_existing cfg), uf, sf, (rc =? 0), stf; simpl;
    rewrite ?M; simpl;
    try destruct sw; try destruct (PyNum.equals_zero (offset cfg)); simpl;
    rewrite <- ?app_assoc; simpl;
    (eexists; split; [reflexivity|]); intros w Hw; simpl; rewrite ?Hw; reflexivity.
Qed.

Lemma loop_without_stop (cfg : settings) (files : list file_env) :
  Forall no_stop files ->
  forall (st : state) (n : nat),
    processing st = true ->
    exists st',
      process_loop cfg files st n =
        (st', (n + count (fun f => skipped cfg f || transcribed cfg f) files)%nat, false) /\
      processing st' = true /\
      files_processed st' = (files_processed st + List.length files)%nat.
Proof.
  induction 1 as [|f files Hf _ IH]; intros st n Hp; simpl.
  - exists st. rewrite !Nat.add_0_r. auto.
  - rewrite Hp. simpl.
    destruct (video_without_stop cfg f st Hf Hp) as (st1 & E & P & Q).
    rewrite E.
    set (st2 := {| processing := processing st1; total_files := total_files st1;
                   files_processed := S (files_processed st1);
                   processing_times := processing_times st1; trace := trace st1 |}).
    destruct (IH st2 (if skipped cfg f || transcribed cfg f then S n else n) P)
      as (st' & E' & P' & Q').
    exists st'. rewrite E'. repeat split; auto.
    + f_equal. f_equal. unfold count. simpl.
      destruct (skipped cfg f || transcribed cfg f); simpl; lia.
    + rewrite Q'. simpl. lia.
Qed.

Lemma count_disjoint (cfg : settings) (files : list file_env) :
  count (fun f => skipped cfg f || transcribed cfg f) files =
  (count (skipped cfg) files + count (transcribed cfg) files)%nat.
Proof.
  unfold count, transcribed.
  induction files as [|f files IH]; simpl; auto.
  destruct (skipped cfg f); simpl; [lia|].
  match goal with |- context [if ?b then _ else _] => destruct b end; simpl; lia.
Qed.

(** C1 (as amended): a file whose subtitle exists while overwriting is off
    is skipped, and the skip counts as processed and as a success: in a
    run without a stop request the final success count is the number of
    skipped files plus the number of files whose transcription succeeded,
    every file counts as processed, and the run completes. *)
Theorem skipped_files_count_as_success
  (cfg : settings) (f : file_env) (files : list file_env) :
  Forall no_stop (f :: files) ->
  let r := process_videos cfg true (Ok (f :: files)) started in
  success_count r =
    (count (skipped cfg) (f :: files) + count (transcribed cfg) (f :: files))%nat /\
  files_processed (final r) = List.length (f :: files) /\
  result r = Completed /\
  (forall g st, skipped cfg g = true ->
     process_video_optimized cfg g st =
       (emit (LogSkipping (video g)) (emit (LogProcessing (video g)) st), true)).
Proof.
  intros H r. subst r. unfold process_videos. cbn [negb].
  match goal with |- context [process_loop cfg ?l ?s 0] =>
    destruct (loop_without_stop cfg l H s 0 eq_refl) as (st' & E & P & Q) end.
  rewrite E. cbn [final success_count result].
  rewrite count_disjoint in *.
  repeat split; auto using video_skipped.
Qed.

Lemma loop_step (cfg : settings) (f : file_env) (rest : list file_env)
  (st st1 : state) (ok : bool) (n : nat) :
  processing st = true ->
  process_video_optimized cfg f st = (st1, ok) ->
  process_loop cfg (f :: rest) st n =
    process_loop cfg rest (bump st1) (if ok then S n else n).
Proof.
  intros Hp E. simpl. rewrite Hp, E. reflexivity.
Qed.

Lemma loop_stopped (cfg : settings) (f : file_env) (rest : list file_env)
  (st : state) (n : nat) :
  processing st = false ->
  process_loop cfg (f :: rest) st n = (emit LogStopped st, n, true).
Proof.
  intros Hp. simpl. rewrite Hp. reflexivity.
Qed.

(** C7: a non-zero exit of the transcriber is the failure of that file
    only.  In a batch of three files where the second exits non-zero and
    the other two transcribe, the third is still transcribed, the success
    count is 2 and the run ends Completed, not Failed. *)
Theorem nonzero_exit_is_not_fatal (cfg : settings) (f1 f2 f3 : file_env) :
  transcribed cfg f1 = true ->
  exits_nonzero cfg f2 = true ->
  transcribed cfg f3 = true ->
  Forall no_stop [f1; f2; f3] ->
  let r := process_videos cfg true (Ok [f1; f2; f3]) started in
  (forall st, processing st = true ->
     snd (process_video_optimized cfg f2 st) = false /\
     In (LogError (video f2)) (trace (fst (process_video_optimized cfg f2 st)))) /\
  spawned (video f3) (trace (final r)) = true /\
  success_count r = 2%nat /\
  files_processed (final r) = 3%nat /\
  result r = Completed /\
  result r <> Failed.
Proof.
  intros T1 X2 T3 Hs r.
  inversion Hs as [|? ? S1 Hs']; subst.
  inversion Hs' as [|? ? S2 Hs'']; subst.
  inversion Hs'' as [|? ? S3 _]; subst.
  split.
  { intros st Hp. split.
    - destruct (video_exits_nonzero cfg f2 st X2 S2 Hp) as (st' & E & _).
      rewrite E. reflexivity.
    - apply video_failure_logged; assumption. }
  subst r. unfold process_videos. cbn [negb].
  match goal with |- context [process_loop cfg _ ?s 0] => set (st0 := s) end.
  destruct (video_transcribed cfg f1 st0 T1 S1 eq_refl) as (st1 & E1 & P1 & Q1 & _).
  destruct (video_exits_nonzero cfg f2 (bump st1) X2 S2 P1) as (st2 & E2 & P2 & Q2).
  destruct (video_transcribed cfg f3 (bump st2) T3 S3 P2) as (st3 & E3 & P3 & Q3 & W3).
  rewrite (loop_step cfg f1 _ st0 st1 true 0 eq_refl E1).
  rewrite (loop_step cfg f2 _ (bump st1) st2 false 1 P1 E2).
  rewrite (loop_step cfg f3 _ (bump st2) st3 true 1 P2 E3).
  cbn [process_loop final success_count result set_processing emit trace files_processed bump].
  repeat split; try discriminate.
  - unfold spawned in *. rewrite existsb_app, W3. reflexivity.
  - rewrite Q3. simpl. rewrite Q2. simpl. rewrite Q1. reflexivity.
Qed.

(** C2 (as amended): [stop_processing()] called while the second of three
    files is being transcribed ends the run StoppedByUser after the
    transcriber of file 2 has been terminated; file 3 is never started;
    the success count is 1, file 2 not being a success; and
    [files_processed] is 2: the interrupted file counts as processed. *)
Theorem stop_midway_counts_interrupted_file (cfg : settings) (f1 f2 f3 : file_env) :
  transcribed cfg f1 = true ->
  no_stop f1 ->
  stopped_midway cfg f2 = true ->
  String.eqb (video f3) (video f1) = false ->
  String.eqb (video f3) (video f2) = false ->
  let r := process_videos cfg true (Ok [f1; f2; f3]) started in
  result r = StoppedByUser /\
  terminated (video f2) (trace (final r)) = true /\
  started_for (video f3) (trace (final r)) = false /\
  success_count r = 1%nat /\
  files_processed (final r) = 2%nat.
Proof.
  intros T1 S1 M2 N1 N2 r.
  subst r. unfold process_videos. cbn [negb].
  match goal with |- context [process_loop cfg _ ?s 0] => set (st0 := s) end.
  destruct (video_transcribed cfg f1 st0 T1 S1 eq_refl) as (st1 & E1 & P1 & Q1 & _).
  destruct (video_stopped_midway cfg f2 (bump st1) M2 P1) as (st2 & E2 & P2 & Q2 & K2).
  destruct (video_trace cfg f1 st0) as (ev1 & Tr1 & F1).
  destruct (video_trace cfg f2 (bump st1)) as (ev2 & Tr2 & F2).
  rewrite E1 in Tr1. rewrite E2 in Tr2. simpl in Tr1, Tr2.
  rewrite (loop_step cfg f1 _ st0 st1 true 0 eq_refl E1).
  rewrite (loop_step cfg f2 _ (bump st1) st2 false 1 P1 E2).
  rewrite (loop_stopped cfg f3 _ (bump st2) 1 P2).
  cbn [final success_count result set_processing emit trace files_processed bump].
  repeat split.
  - unfold terminated in *. rewrite !existsb_app, K2. reflexivity.
  - rewrite Tr2, Tr1. unfold started_for in *. rewrite !existsb_app. simpl.
    rewrite (F1 _ N1), (F2 _ N2). reflexivity.
  - rewrite Q2. simpl. rewrite Q1. reflexivity.
Qed.

Lemma skipped_files_count_as_success_witness :
  Forall no_stop [with_subtitle "a.mp4"; plain "b.mp4"] /\
  (let r := process_videos keep_existing true
              (Ok [with_subtitle "a.mp4"; plain "b.mp4"]) started in
   success_count r = 2%nat /\ files_processed (final r) = 2%nat).
Proof.
  assert (H : Forall no_stop [with_subtitle "a.mp4"; plain "b.mp4"])
    by (repeat constructor).
  split; [exact H|].
  destruct (skipped_files_count_as_success keep_existing _ _ H) as (A & B & _).
  split; [exact A | exact B].
Defined.

(** C1 as stated fails: a skipped file is added to the success count. *)
Lemma skipped_file_in_success_count :
  ~ (forall cfg f files,
       Forall no_stop (f :: files) ->
       success_count (process_videos cfg true (Ok (f :: files)) started) =
       count (transcribed cfg) (f :: files)).
Proof.
  intros H.
  specialize (H keep_existing (with_subtitle "a.mp4") []).
  assert (N : Forall no_stop [with_subtitle "a.mp4"]) by (repeat constructor).
  specialize (H N). vm_compute in H. discriminate.
Qed.

Lemma nonzero_exit_is_not_fatal_witness :
  (transcribed keep_existing (plain "a.mp4") = true /\
   exits_nonzero keep_existing (failing "b.mp4") = true /\
   transcribed keep_existing (plain "c.mp4") = true /\
   Forall no_stop [plain "a.mp4"; failing "b.mp4"; plain "c.mp4"]) /\
  (let r := process_videos keep_existing true
              (Ok [plain "a.mp4"; failing "b.mp4"; plain "c.mp4"]) started in
   success_count r = 2%nat /\ result r = Completed).
Proof.
  assert (H : Forall no_stop [plain "a.mp4"; failing "b.mp4"; plain "c.mp4"])
    by (repeat constructor).
  split; [repeat split; try reflexivity; exact H|].
  destruct (nonzero_exit_is_not_fatal keep_existing (plain "a.mp4")
              (failing "b.mp4") (plain "c.mp4") eq_refl eq_refl eq_refl H)
    as (_ & _ & A & _ & B & _).
  split; [exact A | exact B].
Defined.

Lemma stop_midway_counts_interrupted_file_witness :
  (transcribed keep_existing (plain "a.mp4") = true /\
   no_stop (plain "a.mp4") /\
   stopped_midway keep_existing (interrupted "b.mp4") = true) /\
  (let r := process_videos keep_existing true
              (Ok [plain "a.mp4"; interrupted "b.mp4"; plain "c.mp4"]) started in
   result r = StoppedByUser /\ success_count r = 1%nat /\
   files_processed (final r) = 2%nat).
Proof.
  split; [repeat split; reflexivity|].
  destruct (stop_midway_counts_interrupted_file keep_existing (plain "a.mp4")
              (interrupted "b.mp4") (plain "c.mp4")
              eq_refl eq_refl eq_refl eq_refl eq_refl)
    as (A & _ & _ & B & C).
  repeat split; assumption.
Defined.

(** C2 as stated fails: after the stop, [files_processed] is 2, not 1. *)
Lemma stop_midway_files_processed_is_two :
  ~ (forall cfg f1 f2 f3,
       transcribed cfg f1 = true -> no_stop f1 ->
       stopped_midway cfg f2 = true ->
       files_processed
         (final (process_videos cfg true (Ok [f1; f2; f3]) started)) = 1%nat).
Proof.
  intros H.
  specialize (H keep_existing (plain "a.mp4") (interrupted "b.mp4") (plain "c.mp4")
                eq_refl eq_refl eq_refl).
  vm_compute in H. discriminate.
Qed.

End BatchFacts.

(** ** File discovery *)

Module DiscoveryFacts.

Import Vocabulary.
Import Discovery.

(** Induction over a folder tree. *)
Section EntryInduction.
Variable Q : entry -> Prop.
Hypothesis file_case : forall n, Q (File n).
Hypothesis dir_case : forall n cs, Forall Q cs -> Q (Dir n cs).

End EntryInduction.



(** The order of paths is a total order. *)

Lemma ascii_compare_refl (a : ascii) : Ascii.compare a a = Eq.
Proof. unfold Ascii.compare. apply N.compare_refl. Qed.

Lemma ascii_lt_trans (a b c : ascii) :
  Ascii.compare a b = Lt -> Ascii.compare b c = Lt -> Ascii.compare a c = Lt.
Proof.
  unfold Ascii.compare. rewrite !N.compare_lt_iff. apply N.lt_trans.
Qed.

Lemma string_compare_refl (s : string) : String.compare s s = Eq.
Proof.
  induction s as [|a s IH]; simpl; auto.
  rewrite ascii_compare_refl. assumption.
Qed.

Lemma string_lt_trans (a : string) :
  forall b c, String.compare a b = Lt -> String.compare b c = Lt ->
              String.compare a c = Lt.
Proof.
  induction a as [|x a IH]; intros [|y b] [|z c]; simpl; try discriminate; auto.
  destruct (Ascii.compare x y) eqn:E1; try discriminate;
    destruct (Ascii.compare y z) eqn:E2; try discriminate; intros H1 H2.
  - apply Ascii.compare_eq_iff in E1, E2. subst.
    rewrite ascii_compare_refl. eauto.
  - apply Ascii.compare_eq_iff in E1. subst. rewrite E2. reflexivity.
  - apply Ascii.compare_eq_iff in E2. subst. rewrite E1. reflexivity.
  - rewrite (ascii_lt_trans _ _ _ E1 E2). reflexivity.
Qed.

Lemma path_compare_eq (p : path) : forall q, path_compare p q = Eq -> p = q.
Proof.
  induction p as [|a p IH]; intros [|b q]; simpl; try discriminate; auto.
  destruct (String.compare a b) eqn:E; try discriminate.
  intros H. apply String.compare_eq_iff in E. subst. f_equal. auto.
Qed.

Lemma path_compare_antisym (p : path) :
  forall q, path_compare p q = CompOpp (path_compare q p).
Proof.
  induction p as [|a p IH]; intros [|b q]; simpl; auto.
  rewrite (String.compare_antisym b a).
  destruct (String.compare a b); simpl; auto.
Qed.

Lemma path_lt_trans (p : path) :
  forall q r, path_compare p q = Lt -> path_compare q r = Lt -> path_compare p r = Lt.
Proof.
  induction p as [|a p IH]; intros [|b q] [|c r]; simpl; try discriminate; auto.
  destruct (String.compare a b) eqn:E1; try discriminate;
    destruct (String.compare b c) eqn:E2; try discriminate; intros H1 H2.
  - apply String.compare_eq_iff in E1, E2. subst.
    rewrite string_compare_refl. eauto.
  - apply String.compare_eq_iff in E1. subst. rewrite E2. reflexivity.
  - apply String.compare_eq_iff in E2. subst. rewrite E1. reflexivity.
  - rewrite (string_lt_trans _ _ _ E1 E2). reflexivity.
Qed.

Lemma path_le_total (p q : path) : path_leb p q = false -> path_le q p.
Proof.
  unfold path_le, path_leb. rewrite (path_compare_antisym q p).
  destruct (path_compare p q); simpl; auto; discriminate.
Qed.

Lemma path_le_trans (p q r : path) : path_le p q -> path_le q r -> path_le p r.
Proof.
  unfold path_le, path_leb.
  destruct (path_compare p q) eqn:E1; try discriminate;
    destruct (path_compare q r) eqn:E2; try discriminate; intros _ _.
  - apply path_compare_eq in E1. rewrite E1, E2. reflexivity.
  - apply path_compare_eq in E1. rewrite E1, E2. reflexivity.
  - apply path_compare_eq in E2. rewrite <- E2, E1. reflexivity.
  - rewrite (path_lt_trans _ _ _ E1 E2). reflexivity.
Qed.

Lemma insert_perm (p : path) (l : list path) : Permutation (p :: l) (insert p l).
Proof.
  induction l as [|q l IH]; simpl; auto.
  destruct (path_leb p q); auto.
  rewrite perm_swap. constructor. assumption.
Qed.

Lemma sorted_perm (l : list path) : Permutation l (sorted l).
Proof.
  induction l as [|p l IH]; simpl; auto.
  rewrite <- insert_perm. constructor. assumption.
Qed.

Lemma insert_sorted (p : path) (l : list path) :
  StronglySorted path_le l -> StronglySorted path_le (insert p l).
Proof.
  induction 1 as [|q l Hs IH Hq]; simpl.
  - repeat constructor.
  - destruct (path_leb p q) eqn:E.
    + constructor; [constructor; assumption|].
      constructor; [exact E|].
      rewrite Forall_forall in *. intros x Hx.
      apply path_le_trans with q; [exact E|auto].
    + apply path_le_total in E.
      constructor; [assumption|].
      rewrite Forall_forall in *. intros x Hx.
      apply (Permutation_in _ (Permutation_sym (insert_perm p l))) in Hx.
      destruct Hx as [<-|Hx]; auto.
Qed.

Lemma sorted_sorted (l : list path) : StronglySorted path_le (sorted l).
Proof.
  induction l as [|p l IH]; simpl; [constructor|].
  apply insert_sorted. assumption.
Qed.



End DiscoveryFacts.

(** ** Strings *)

Module StrFacts.

Import Vocabulary.
Local Open Scope string_scope.
Local Open Scope Z_scope.

Lemma occurs_app (c : ascii) (s t : string) :
  occurs c (s ++ t) = occurs c s || occurs c t.
Proof.
  induction s as [|a s IH]; simpl; auto.
  rewrite IH, orb_assoc. reflexivity.
Qed.

Lemma app_assoc_str (s t u : string) : (s ++ t) ++ u = s ++ t ++ u.
Proof.
  induction s as [|a s IH]; simpl; congruence.
Qed.

Lemma app_empty_r (s : string) : s ++ "" = s.
Proof.
  induction s as [|a s IH]; simpl; congruence.
Qed.








(** Splitting at a single character. *)

Lemma prefix_single (c a : ascii) (s : string) :
  prefix (single c) (String a s) = Ascii.eqb a c.
Proof.
  simpl. destruct (ascii_dec c a) as [->|N].
  - rewrite Ascii.eqb_refl. destruct s; reflexivity.
  - symmetry. apply Ascii.eqb_neq. congruence.
Qed.

Lemma split_single_none (c : ascii) (s : string) :
  occurs c s = false -> split_from (single c) 0 s = [s].
Proof.
  induction s as [|a s IH]; intros H; [reflexivity|].
  simpl in H. apply orb_false_elim in H. destruct H as (Ha & Hs).
  cbn [split_from]. rewrite prefix_single, Ha, (IH Hs). reflexivity.
Qed.

Lemma split_single_app (c : ascii) (x rest : string) :
  occurs c x = false ->
  split_from (single c) 0 (x ++ single c ++ rest) =
  x :: split_from (single c) 0 rest.
Proof.
  induction x as [|a x IH]; intros H.
  - cbn [append single split_from]. rewrite prefix_single, Ascii.eqb_refl.
    reflexivity.
  - simpl in H. apply orb_false_elim in H. destruct H as (Ha & Hx).
    cbn [append split_from]. rewrite prefix_single, Ha, (IH Hx). reflexivity.
Qed.






End StrFacts.

(** ** Integer literals *)

Module IntFacts.

Import Vocabulary.
Import StrFacts.
Local Open Scope string_scope.
Local Open Scope Z_scope.

Lemma code_digit_char (d : Z) : 0 <= d < 10 -> code (digit_char d) = 48 + d.
Proof.
  intros H. unfold code, digit_char.
  rewrite N_ascii_embedding by lia. lia.
Qed.

Lemma is_digit_spec (c : ascii) : is_digit c = true <-> 48 <= code c <= 57.
Proof.
  unfold is_digit. rewrite andb_true_iff, !Z.leb_le. tauto.
Qed.

Lemma digit_char_is_digit (d : Z) : 0 <= d < 10 -> is_digit (digit_char d) = true.
Proof.
  intros H. apply is_digit_spec. rewrite code_digit_char by assumption. lia.
Qed.

Lemma digit_val_char (d : Z) : 0 <= d < 10 -> digit_val (digit_char d) = d.
Proof.
  intros H. unfold digit_val. rewrite code_digit_char by assumption. lia.
Qed.

Lemma mod10_range (n : Z) : 0 <= n mod 10 < 10.
Proof. apply Z.mod_pos_bound. lia. Qed.

(** Characters that are not digits do not occur in a printed number. *)

Lemma digit_differs (c : ascii) (d : Z) :
  is_digit c = false -> Ascii.eqb (digit_char (d mod 10)) c = false.
Proof.
  intros H. apply Ascii.eqb_neq. intros E. subst.
  rewrite digit_char_is_digit in H by apply mod10_range. discriminate.
Qed.

Lemma digits_fuel_occurs (c : ascii) (f : nat) :
  is_digit c = false ->
  forall n acc, occurs c acc = false -> occurs c (digits_fuel f n acc) = false.
Proof.
  intros Hc. induction f as [|f IH]; intros n acc H; simpl; auto.
  assert (K : occurs c (String (digit_char (n mod 10)) acc) = false)
    by (cbn [occurs]; rewrite digit_differs, H by assumption; reflexivity).
  destruct (n <? 10); auto.
Qed.

Lemma zeros_occurs (c : ascii) (k : nat) :
  is_digit c = false -> occurs c (zeros k) = false.
Proof.
  intros Hc. induction k as [|k IH]; cbn [zeros occurs]; auto.
  rewrite IH, orb_false_r. apply Ascii.eqb_neq. intros E. subst. discriminate.
Qed.

Lemma format_d_occurs (c : ascii) (w : nat) (z : Z) :
  is_digit c = false -> 0 <= z -> occurs c (format_d w z) = false.
Proof.
  intros Hc Hz. unfold format_d, str_nat.
  destruct (z <? 0) eqn:E; [apply Z.ltb_lt in E; lia|].
  rewrite occurs_app, zeros_occurs, digits_fuel_occurs; auto.
Qed.

(** Reading a printed number. *)

Lemma scan_digit (acc : Z) (any : bool) (c : ascii) (s : string) :
  is_digit c = true ->
  scan_digits acc any false (String c s) =
  scan_digits (10 * acc + digit_val c) true false s.
Proof.
  intros H. simpl. rewrite H. reflexivity.
Qed.

Lemma scan_zeros (k : nat) (b : bool) (s : string) :
  scan_digits 0 b false (zeros k ++ s) =
  scan_digits 0 (b || (0 <? k)%nat) false s.
Proof.
  revert b. induction k as [|k IH]; intros b; simpl zeros; simpl append.
  - rewrite orb_false_r. reflexivity.
  - rewrite scan_digit by reflexivity.
    change (10 * 0 + digit_val "0") with 0.
    rewrite IH. simpl. rewrite orb_true_r. reflexivity.
Qed.

Lemma digits_fuel_S (f : nat) (n : Z) (acc : string) :
  digits_fuel (S f) n acc =
  if n <? 10 then String (digit_char (n mod 10)) acc
  else digits_fuel f (n / 10) (String (digit_char (n mod 10)) acc).
Proof. reflexivity. Qed.

Lemma scan_digits_fuel (f : nat) :
  forall n acc b,
    0 <= n < 10 ^ Z.of_nat (S f) ->
    scan_digits 0 b false (digits_fuel (S f) n acc) = scan_digits n true false acc.
Proof.
  induction f as [|f IH]; intros n acc b H; rewrite digits_fuel_S.
  - change (10 ^ Z.of_nat 1) with 10 in H.
    destruct (n <? 10) eqn:E.
    + rewrite scan_digit by (apply digit_char_is_digit, mod10_range).
      rewrite digit_val_char by apply mod10_range.
      f_equal. rewrite Z.mod_small by lia. lia.
    + apply Z.ltb_ge in E. lia.
  - destruct (n <? 10) eqn:E.
    + rewrite scan_digit by (apply digit_char_is_digit, mod10_range).
      rewrite digit_val_char by apply mod10_range.
      apply Z.ltb_lt in E. f_equal. rewrite Z.mod_small by lia. lia.
    + apply Z.ltb_ge in E.
      rewrite IH.
      * rewrite scan_digit by (apply digit_char_is_digit, mod10_range).
        rewrite digit_val_char by apply mod10_range.
        f_equal. pose proof (Z.div_mod n 10). lia.
      * split; [apply Z.div_pos; lia|].
        apply Z.div_lt_upper_bound; [lia|].
        replace (Z.of_nat (S (S f))) with (Z.succ (Z.of_nat (S f))) in H by lia.
        rewrite Z.pow_succ_r in H by lia. lia.
Qed.

Lemma enough_fuel (n : Z) : 0 <= n -> n < 10 ^ Z.of_nat (S (Z.to_nat (Z.log2 n))).
Proof.
  intros H.
  replace (Z.of_nat (S (Z.to_nat (Z.log2 n)))) with (Z.succ (Z.log2 n))
    by (pose proof (Z.log2_nonneg n); lia).
  destruct (Z.eq_dec n 0) as [->|N].
  - reflexivity.
  - assert (P : 0 < n) by lia.
    pose proof (Z.log2_spec n P) as (_ & Hu).
    apply Z.lt_le_trans with (1 := Hu).
    apply Z.pow_le_mono_l. lia.
Qed.

Lemma scan_str_nat (n : Z) (b : bool) :
  0 <= n -> scan_digits 0 b false (str_nat n) = Some (n, "").
Proof.
  intros H. unfold str_nat.
  rewrite scan_digits_fuel by (split; [assumption|apply enough_fuel; assumption]).
  reflexivity.
Qed.

Lemma digits_fuel_head (f : nat) :
  forall n acc, starts_with_digit (digits_fuel (S f) n acc) = true.
Proof.
  induction f as [|f IH]; intros n acc; rewrite digits_fuel_S.
  - destruct (n <? 10); simpl; apply digit_char_is_digit, mod10_range.
  - destruct (n <? 10); [simpl; apply digit_char_is_digit, mod10_range|].
    apply IH.
Qed.

Lemma format_d_head (w : nat) (z : Z) :
  0 <= z -> starts_with_digit (format_d w z) = true.
Proof.
  intros H. unfold format_d.
  destruct (z <? 0) eqn:E; [apply Z.ltb_lt in E; lia|].
  destruct (w - length (str_nat (Z.abs z)))%nat; simpl; [|reflexivity].
  apply digits_fuel_head.
Qed.

Lemma py_int_of_digits (s : string) (v : Z) :
  starts_with_digit s = true ->
  scan_digits 0 false false s = Some (v, "") ->
  py_int s = Ok v.
Proof.
  destruct s as [|c s]; [discriminate|].
  cbn [starts_with_digit]. intros Hd Hs.
  apply is_digit_spec in Hd.
  unfold py_int. cbn [skip_cspace].
  assert (E1 : is_cspace c = false).
  { unfold is_cspace. apply orb_false_intro.
    - apply andb_false_intro2. apply Z.leb_gt. lia.
    - apply Z.eqb_neq. lia. }
  rewrite E1.
  assert (E2 : (code c =? 43) = false) by (apply Z.eqb_neq; lia).
  assert (E3 : (code c =? 45) = false) by (apply Z.eqb_neq; lia).
  assert (E4 : (code c =? 95) = false) by (apply Z.eqb_neq; lia).
  rewrite E2, E3, E4, Hs. reflexivity.
Qed.

(** [int(format(z, "0<w>d")) == z] for a non-negative [z]. *)
Lemma py_int_format_d (w : nat) (z : Z) : 0 <= z -> py_int (format_d w z) = Ok z.
Proof.
  intros H. apply py_int_of_digits; [apply format_d_head; assumption|].
  unfold format_d.
  destruct (z <? 0) eqn:E; [apply Z.ltb_lt in E; lia|].
  rewrite scan_zeros, Z.abs_eq by assumption.
  apply scan_str_nat. assumption.
Qed.

End IntFacts.

(** ** Time codec *)

Module TimeFacts.

Import Vocabulary.
Import StrFacts IntFacts.
Local Open Scope string_scope.
Local Open Scope Z_scope.

(** Decoding a formatted timestamp gives its fields back. *)
Lemma decode_format_time (h m s ms : Z) :
  0 <= h -> 0 <= m -> 0 <= s -> 0 <= ms ->
  decode (format_time (h, m, s, ms)) = Ok (h, m, s, ms).
Proof.
  intros Hh Hm Hs Hms.
  set (H := format_d 2 h). set (M := format_d 2 m).
  set (S := format_d 2 s). set (MS := format_d 3 ms).
  assert (E : format_time (h, m, s, ms) =
              (H ++ single colon ++ M ++ single colon ++ S) ++ single comma ++ MS).
  { unfold format_time. fold H M S MS. rewrite !app_assoc_str. reflexivity. }
  unfold decode. rewrite E.
  change (split "," ?x) with (split_from (single comma) 0 x).
  rewrite split_single_app.
  2:{ rewrite !occurs_app. unfold H, M, S.
      rewrite !format_d_occurs by (assumption || reflexivity). reflexivity. }
  rewrite split_single_none by (apply format_d_occurs; [reflexivity|assumption]).
  change (split ":" ?x) with (split_from (single colon) 0 x).
  rewrite split_single_app by (apply format_d_occurs; [reflexivity|assumption]).
  rewrite split_single_app by (apply format_d_occurs; [reflexivity|assumption]).
  rewrite split_single_none by (apply format_d_occurs; [reflexivity|assumption]).
  unfold H, M, S, MS. rewrite !py_int_format_d by assumption. reflexivity.
Qed.

End TimeFacts.

(** ** Rounding *)

Module FloatFacts.

Import Vocabulary.
Import Float.
Local Open Scope Z_scope.

Lemma U_P : U = 2 ^ 53 * P.
Proof. unfold U, P. rewrite <- Z.pow_add_r by lia. reflexivity. Qed.

Lemma P_pos : 0 < P.
Proof. unfold P. apply Z.pow_pos_nonneg; lia. Qed.

Lemma U_pos : 0 < U.
Proof. rewrite U_P. pose proof P_pos. lia. Qed.

Lemma HUGE_U : HUGE = 2 ^ 1024 * U.
Proof. unfold HUGE, U. rewrite <- Z.pow_add_r by lia. reflexivity. Qed.

Lemma pow2_pos (s : Z) : 0 <= s -> 0 < 2 ^ s.
Proof. intros H. apply Z.pow_pos_nonneg; lia. Qed.

Lemma shift_nonneg (w : Z) : 0 <= shift w.
Proof. unfold shift. lia. Qed.

(** The quotient by [2 ^ shift w] has at most 53 bits. *)
Lemma shift_bound (w : Z) : 0 <= w -> w < 2 ^ 53 * 2 ^ shift w.
Proof.
  intros H. unfold shift, bits.
  destruct (w =? 0) eqn:E.
  - apply Z.eqb_eq in E. subst. simpl. lia.
  - apply Z.eqb_neq in E. assert (Hw : 0 < w) by lia.
    pose proof (Z.log2_spec w Hw) as (_ & Hu).
    pose proof (Z.log2_nonneg w).
    rewrite <- Z.pow_add_r by lia.
    apply Z.lt_le_trans with (1 := Hu).
    apply Z.pow_le_mono_r; lia.
Qed.

(** A positive shift means at least 54 bits. *)
Lemma shift_lower (w : Z) : 0 < shift w -> 2 ^ 52 * 2 ^ shift w <= w.
Proof.
  unfold shift, bits. intros H.
  destruct (w =? 0) eqn:E; [simpl in H; lia|].
  apply Z.eqb_neq in E.
  destruct (Z.le_gt_cases w 0) as [Hn|Hw].
  - rewrite (Z.log2_nonpos w Hn) in H. simpl in H. lia.
  - pose proof (Z.log2_spec w Hw) as (Hl & _).
    rewrite <- Z.pow_add_r by lia.
    replace (52 + Z.max 0 (Z.log2 w + 1 - 53)) with (Z.log2 w) by lia.
    assumption.
Qed.

Lemma shift_upper (w b : Z) : 0 <= w -> 53 <= b -> w < 2 ^ b -> shift w <= b - 53.
Proof.
  intros H Hb Hw. unfold shift, bits.
  destruct (w =? 0) eqn:E; [lia|].
  apply Z.eqb_neq in E.
  assert (Z.log2 w < b) by (apply Z.log2_lt_pow2; lia).
  lia.
Qed.

(** [round_pos] through its quotient and remainder. *)
Lemma round_pos_unfold (num den : Z) :
  round_pos num den =
  let s := shift (num / den) in
  let D := den * 2 ^ s in
  (if (D <? 2 * (num mod D)) || ((2 * (num mod D) =? D) && Z.odd (num / D))
   then num / D + 1 else num / D) * 2 ^ s.
Proof. reflexivity. Qed.

(** The result is the quotient or its successor, scaled. *)
Lemma round_pos_cases (num den : Z) :
  0 <= num -> 0 < den ->
  let s := shift (num / den) in
  let q := num / (den * 2 ^ s) in
  (round_pos num den = q * 2 ^ s \/
   (round_pos num den = (q + 1) * 2 ^ s /\
    den * 2 ^ s <= 2 * (num mod (den * 2 ^ s)))) /\
  0 <= q < 2 ^ 53.
Proof.
  intros Hn Hd s q. rewrite round_pos_unfold. fold s. cbv zeta. fold q.
  assert (Hs : 0 < 2 ^ s) by (apply pow2_pos, shift_nonneg).
  assert (HD : 0 < den * 2 ^ s) by lia.
  split.
  - destruct ((den * 2 ^ s <? 2 * (num mod (den * 2 ^ s)))
              || ((2 * (num mod (den * 2 ^ s)) =? den * 2 ^ s) && Z.odd q)) eqn:E.
    + right. split; [reflexivity|].
      apply orb_prop in E. destruct E as [E|E].
      * apply Z.ltb_lt in E. lia.
      * apply andb_prop in E. destruct E as (E & _). apply Z.eqb_eq in E. lia.
    + left. reflexivity.
  - split; [apply Z.div_pos; lia|].
    unfold q. rewrite <- Z.div_div by lia.
    apply Z.div_lt_upper_bound; [lia|].
    pose proof (shift_bound (num / den) (Z.div_pos _ _ Hn Hd)). fold s in H. lia.
Qed.

Lemma round_pos_nonneg (num den : Z) :
  0 <= num -> 0 < den -> 0 <= round_pos num den.
Proof.
  intros Hn Hd.
  pose proof (round_pos_cases num den Hn Hd) as (C & Q).
  cbv zeta in *.
  assert (Hs : 0 < 2 ^ shift (num / den)) by (apply pow2_pos, shift_nonneg).
  destruct C as [-> | (-> & _)]; nia.
Qed.

Lemma round_pos_fits (num den : Z) :
  0 <= num -> 0 < den -> fits53 (round_pos num den).
Proof.
  intros Hn Hd.
  pose proof (round_pos_cases num den Hn Hd) as (C & Q).
  cbv zeta in *.
  destruct C as [-> | (-> & _)]; eexists; eexists;
    (split; [apply shift_nonneg|]); (split; [reflexivity|]); lia.
Qed.

(** A common factor of numerator and denominator does not matter. *)
Lemma round_pos_cancel (w den : Z) :
  0 <= w -> 0 < den -> round_pos (w * den) den = round_pos w 1.
Proof.
  intros Hw Hd. rewrite !round_pos_unfold.
  rewrite Z.div_mul by lia. rewrite Z.div_1_r.
  set (s := shift w). cbv zeta.
  assert (Hs : 0 < 2 ^ s) by (apply pow2_pos, shift_nonneg).
  rewrite Z.mul_1_l.
  replace (w * den) with (den * w) by lia.
  rewrite Z.div_mul_cancel_l by lia.
  rewrite Z.mul_mod_distr_l by lia.
  replace (den * 2 ^ s <? 2 * (den * (w mod 2 ^ s)))
    with (2 ^ s <? 2 * (w mod 2 ^ s)).
  2:{ destruct (Z.ltb_spec (2 ^ s) (2 * (w mod 2 ^ s)));
      destruct (Z.ltb_spec (den * 2 ^ s) (2 * (den * (w mod 2 ^ s)))); auto; nia. }
  replace (2 * (den * (w mod 2 ^ s)) =? den * 2 ^ s)
    with (2 * (w mod 2 ^ s) =? 2 ^ s).
  2:{ destruct (Z.eqb_spec (2 * (w mod 2 ^ s)) (2 ^ s));
      destruct (Z.eqb_spec (2 * (den * (w mod 2 ^ s))) (den * 2 ^ s)); auto; nia. }
  reflexivity.
Qed.

(** Values with at most 53 significant bits are not changed. *)
Lemma round_pos_exact (a j : Z) :
  0 <= a < 2 ^ 53 -> 0 <= j -> round_pos (a * 2 ^ j) 1 = a * 2 ^ j.
Proof.
  intros Ha Hj. rewrite round_pos_unfold. rewrite Z.div_1_r.
  set (w := a * 2 ^ j). set (s := shift w). cbv zeta. rewrite Z.mul_1_l.
  assert (Hj2 : 0 < 2 ^ j) by (apply pow2_pos; assumption).
  assert (Hw : 0 <= w) by (unfold w; nia).
  assert (Hs : 0 <= s) by apply shift_nonneg.
  assert (Hsj : s <= j).
  { destruct (Z.eq_dec s 0) as [->|N]; [assumption|].
    assert (Hs' : 0 < shift w) by (fold s; lia).
    pose proof (shift_lower w Hs') as L. fold s in L.
    destruct (Z.le_gt_cases s j) as [|G]; [assumption|exfalso].
    assert (2 ^ (j + 1) <= 2 ^ s) by (apply Z.pow_le_mono_r; lia).
    rewrite Z.pow_add_r in H by lia. unfold w in L. nia. }
  assert (E : w = (a * 2 ^ (j - s)) * 2 ^ s).
  { unfold w. rewrite <- Z.mul_assoc, <- Z.pow_add_r by lia.
    f_equal. f_equal. lia. }
  assert (Hs2 : 0 < 2 ^ s) by (apply pow2_pos; assumption).
  assert (Hmod : w mod 2 ^ s = 0) by (rewrite E; apply Z.mod_mul; lia).
  assert (Hdiv : w / 2 ^ s = a * 2 ^ (j - s)) by (rewrite E; apply Z.div_mul; lia).
  rewrite Hmod, Hdiv.
  replace (2 ^ s <? 2 * 0) with false by (symmetry; apply Z.ltb_ge; lia).
  replace (2 * 0 =? 2 ^ s) with false by (symmetry; apply Z.eqb_neq; lia).
  simpl. symmetry. exact E.
Qed.

Lemma round_exact (a j : Z) :
  0 <= a < 2 ^ 53 -> 0 <= j -> a * 2 ^ j < HUGE ->
  round (a * 2 ^ j) 1 = Fin (a * 2 ^ j).
Proof.
  intros Ha Hj Hh. unfold round.
  assert (Hj2 : 0 < 2 ^ j) by (apply pow2_pos; assumption).
  rewrite Z.abs_eq by nia.
  rewrite round_pos_exact by assumption.
  replace (HUGE <=? a * 2 ^ j) with false by (symmetry; apply Z.leb_gt; lia).
  f_equal. destruct (Z.eq_dec a 0) as [->|N]; [reflexivity|].
  rewrite Z.sgn_pos by nia. lia.
Qed.

Lemma fits53_0 : fits53 0.
Proof. exists 0, 0. repeat split; lia. Qed.

Lemma round_nonneg (num den : Z) :
  0 <= num -> 0 < den -> nonneg (round num den).
Proof.
  intros Hn Hd. unfold round. rewrite Z.abs_eq by assumption.
  pose proof (round_pos_nonneg num den Hn Hd).
  pose proof (round_pos_fits num den Hn Hd).
  destruct (HUGE <=? round_pos num den).
  - simpl. apply Z.ltb_ge. assumption.
  - simpl. destruct (Z.eq_dec num 0) as [->|N].
    + simpl. split; [lia|apply fits53_0].
    + rewrite Z.sgn_pos by lia. rewrite Z.mul_1_l. auto.
Qed.

Lemma round_nonpos (num : Z) :
  num <= 0 ->
  match round num 1 with
  | Fin n => n <= 0
  | Inf b => b = true
  | NaN => False
  end.
Proof.
  intros Hn. unfold round.
  pose proof (round_pos_nonneg (Z.abs num) 1 (Z.abs_nonneg num) eq_refl).
  destruct (HUGE <=? round_pos (Z.abs num) 1) eqn:E.
  - apply Z.ltb_lt. apply Z.leb_le in E.
    destruct (Z.eq_dec num 0) as [->|N]; [|lia].
    exfalso. revert E. rewrite HUGE_U. pose proof U_pos.
    change (round_pos (Z.abs 0) 1) with 0. lia.
  - destruct (Z.eq_dec num 0) as [->|N]; [simpl; lia|].
    rewrite Z.sgn_neg by lia. lia.
Qed.

(** The fractional part of a float is at most [1 - 2^-53]. *)
Lemma frac_bound (x : Z) : 0 <= x -> fits53 x -> 0 <= x mod U <= U - P.
Proof.
  intros Hx (q & s & Hs & -> & Hq).
  pose proof U_pos. pose proof P_pos.
  split; [apply Z.mod_pos_bound; assumption|].
  destruct (Z.le_gt_cases 1021 s) as [L|G].
  - assert (E : 2 ^ s = 2 ^ (s - 1021) * P).
    { unfold P. rewrite <- Z.pow_add_r by lia. f_equal. lia. }
    rewrite E, U_P, Z.mul_assoc, Z.mul_mod_distr_r by lia.
    pose proof (Z.mod_pos_bound (q * 2 ^ (s - 1021)) (2 ^ 53) eq_refl). nia.
  - assert (E : P = 2 ^ (1021 - s) * 2 ^ s).
    { unfold P. rewrite <- Z.pow_add_r by lia. f_equal. lia. }
    assert (2 ^ 1 <= 2 ^ (1021 - s)) by (apply Z.pow_le_mono_r; lia).
    assert (0 < 2 ^ s) by (apply pow2_pos; assumption).
    pose proof (Z.mod_le (q * 2 ^ s) U Hx H).
    rewrite U_P in *. change (2 ^ 1) with 2 in *. nia.
Qed.

(** Rounding a thousand times a fractional part stays below 1000. *)
Lemma round_pos_below_1000 (w : Z) :
  0 <= w <= 1000 * (U - P) -> round_pos w 1 < 1000 * U.
Proof.
  intros Hw. pose proof P_pos as HP.
  pose proof (round_pos_cases w 1 (proj1 Hw) eq_refl) as (C & Q).
  cbv zeta in *. rewrite Z.div_1_r, Z.mul_1_l in *.
  set (s := shift w) in *.
  assert (Hs : 0 <= s) by apply shift_nonneg.
  assert (Hs2 : 0 < 2 ^ s) by (apply pow2_pos; assumption).
  assert (Hu : s <= 1031).
  { replace 1031 with (1084 - 53) by lia. apply shift_upper; try lia.
    replace (2 ^ 1084) with (2 ^ 10 * U)
      by (unfold U; rewrite <- Z.pow_add_r by lia; reflexivity).
    rewrite U_P in *. lia. }
  pose proof (Z.div_mod w (2 ^ s) ltac:(lia)) as DM.
  pose proof (Z.mod_pos_bound w (2 ^ s) Hs2) as MB.
  set (q := w / 2 ^ s) in *. set (r := w mod 2 ^ s) in *.
  destruct (Z.eq_dec s 1031) as [E|N].
  - assert (E2 : 2 ^ s = 1024 * P).
    { rewrite E. unfold P. change 1024 with (2 ^ 10).
      rewrite <- Z.pow_add_r by lia. reflexivity. }
    rewrite E2 in *. rewrite U_P in *.
    destruct C as [-> | (-> & Hr)]; [nia|].
    assert (1024 * q * P <= (1000 * 2 ^ 53 - 1512) * P) by lia.
    assert (1024 * q <= 1000 * 2 ^ 53 - 1512)
      by (apply Z.mul_le_mono_pos_r with P; assumption).
    assert (q + 1 <= 1000 * 2 ^ 43 - 1) by lia.
    apply Z.le_lt_trans with ((1000 * 2 ^ 43 - 1) * (1024 * P)); [nia|lia].
  - assert (2 ^ s <= 2 ^ 1030) by (apply Z.pow_le_mono_r; lia).
    assert (E3 : 2 ^ 1030 = 512 * P).
    { unfold P. change 512 with (2 ^ 9).
      rewrite <- Z.pow_add_r by lia. reflexivity. }
    rewrite U_P.
    apply Z.le_lt_trans with (2 ^ 53 * 2 ^ s).
    + destruct C as [-> | (-> & _)]; nia.
    + nia.
Qed.

(** Rounding at most doubles a value of at least one unit. *)
Lemma round_pos_le_double (w : Z) : 0 <= w -> round_pos w 1 <= 2 * w.
Proof.
  intros Hw.
  pose proof (round_pos_cases w 1 Hw eq_refl) as (C & Q).
  cbv zeta in *. rewrite Z.div_1_r, Z.mul_1_l in *.
  set (s := shift w) in *.
  assert (Hs2 : 0 < 2 ^ s) by (apply pow2_pos, shift_nonneg).
  pose proof (Z.div_mod w (2 ^ s) ltac:(lia)) as DM.
  pose proof (Z.mod_pos_bound w (2 ^ s) Hs2) as MB.
  destruct C as [-> | (-> & Hr)]; nia.
Qed.

(** The rounding agrees with the binary64 operations of the Standard
    Library's [SpecFloat] on the sample operands. *)

Lemma rounding_agrees_with_SpecFloat :
  forallb (fun a => forallb (agree a) operands) operands = true.
Proof. vm_compute. reflexivity. Qed.

End FloatFacts.

(** ** Python arithmetic on non-negative floats *)

Module ArithFacts.

Import Vocabulary.
Import Float FloatFacts.
Local Open Scope Z_scope.

Lemma nonneg_sign_ok (f : float) : nonneg f -> sign_ok f.
Proof. destruct f; simpl; tauto. Qed.

Lemma small_below_HUGE (a : Z) : 0 <= a < 2 ^ 53 -> a * U < HUGE.
Proof.
  intros H. rewrite HUGE_U. pose proof U_pos.
  assert (2 ^ 53 <= 2 ^ 1024) by (apply Z.pow_le_mono_r; lia). nia.
Qed.

Lemma round_pos_small (a : Z) : 0 <= a < 2 ^ 53 -> round_pos (a * U) 1 = a * U.
Proof.
  intros H. unfold U. apply round_pos_exact; [assumption|lia].
Qed.

Lemma round_small (a : Z) : 0 <= a < 2 ^ 53 -> round (a * U) 1 = Fin (a * U).
Proof.
  intros H. pose proof U_pos. unfold round.
  rewrite Z.abs_eq by nia. rewrite round_pos_small by assumption.
  replace (HUGE <=? a * U) with false
    by (symmetry; apply Z.leb_gt, small_below_HUGE; assumption).
  f_equal. destruct (Z.eq_dec a 0) as [->|N]; [reflexivity|].
  rewrite Z.sgn_pos by nia. lia.
Qed.

Lemma of_int_small (k : Z) : 0 <= k < 2 ^ 53 -> of_int k = Ok (Fin (k * U)).
Proof.
  intros H. unfold of_int. rewrite round_small by assumption. reflexivity.
Qed.

Lemma round_ratio_small (k c : Z) :
  0 <= k < 2 ^ 53 -> 0 < c -> round (k * U * (c * U)) (c * U) = Fin (k * U).
Proof.
  intros Hk Hc. pose proof U_pos. unfold round.
  rewrite Z.abs_eq by nia.
  rewrite round_pos_cancel by nia.
  rewrite round_pos_small by assumption.
  replace (HUGE <=? k * U) with false
    by (symmetry; apply Z.leb_gt, small_below_HUGE; assumption).
  f_equal. destruct (Z.eq_dec k 0) as [->|N]; [reflexivity|].
  rewrite Z.sgn_pos by nia. lia.
Qed.

Lemma py_mod_nonneg (x w : Z) :
  0 <= x -> 0 < w -> py_mod (Fin x) (Fin w) = Ok (Fin (x mod w)).
Proof.
  intros Hx Hw. unfold py_mod, fmod, is_zero, fzero, flt.
  replace (w =? 0) with false by (symmetry; apply Z.eqb_neq; lia).
  rewrite Z.rem_mod_nonneg by lia.
  pose proof (Z.mod_pos_bound x w Hw).
  destruct (x mod w =? 0) eqn:E.
  - apply Z.eqb_eq in E. rewrite E. reflexivity.
  - replace (w <? 0) with false by (symmetry; apply Z.ltb_ge; lia).
    replace (x mod w <? 0) with false by (symmetry; apply Z.ltb_ge; lia).
    reflexivity.
Qed.

Lemma py_floordiv_unfold (x w : Z) :
  0 <= x -> 0 < w ->
  py_floordiv (Fin x) (Fin w) =
  let d := raw_quotient x w in
  if is_zero d then Ok fzero
  else if flt fhalf (fsub d (ffloor d)) then Ok (fadd (ffloor d) fone)
       else Ok (ffloor d).
Proof.
  intros Hx Hw. unfold py_floordiv, raw_quotient, fmod.
  assert (Z1 : is_zero (Fin w) = false) by (apply Z.eqb_neq; lia).
  assert (Z2 : (w =? 0) = false) by (apply Z.eqb_neq; lia).
  rewrite Z1, Z2, Z.rem_mod_nonneg by lia.
  pose proof (Z.mod_pos_bound x w Hw).
  assert (A : negb (Bool.eqb (flt (Fin w) fzero) (flt (Fin (x mod w)) fzero)) = false).
  { unfold flt, fzero.
    replace (w <? 0) with false by (symmetry; apply Z.ltb_ge; lia).
    replace (x mod w <? 0) with false by (symmetry; apply Z.ltb_ge; lia).
    reflexivity. }
  cbv zeta. rewrite A.
  destruct (is_zero (Fin (x mod w))); reflexivity.
Qed.

Lemma raw_quotient_small (x c : Z) :
  0 <= x -> 0 < c -> x / (c * U) * c < 2 ^ 53 ->
  raw_quotient x (c * U) = Fin (x / (c * U) * U).
Proof.
  intros Hx Hc Hk. pose proof U_pos.
  assert (Hw : 0 < c * U) by nia.
  set (k := x / (c * U)) in *.
  assert (Hk0 : 0 <= k) by (apply Z.div_pos; lia).
  unfold raw_quotient, fsub, fneg, fadd.
  replace (x + - (x mod (c * U))) with ((c * k) * U)
    by (pose proof (Z.div_mod x (c * U) ltac:(lia)); fold k in H0; lia).
  rewrite round_small by nia.
  unfold fdiv.
  replace (c * U =? 0) with false by (symmetry; apply Z.eqb_neq; lia).
  unfold of_ratio.
  replace (0 <? c * U) with true by (symmetry; apply Z.ltb_lt; lia).
  replace (c * k * U * U) with (k * U * (c * U)) by lia.
  apply round_ratio_small; nia.
Qed.

Lemma py_floordiv_small (x c : Z) :
  0 <= x -> 0 < c -> x / (c * U) * c < 2 ^ 53 ->
  py_floordiv (Fin x) (Fin (c * U)) = Ok (Fin (x / (c * U) * U)).
Proof.
  intros Hx Hc Hk. pose proof U_pos.
  rewrite py_floordiv_unfold by nia.
  rewrite raw_quotient_small by assumption. cbv zeta.
  set (k := x / (c * U)) in *.
  unfold is_zero. destruct (k * U =? 0) eqn:E.
  - apply Z.eqb_eq in E. rewrite E. reflexivity.
  - unfold ffloor. rewrite Z.div_mul by lia.
    unfold fsub, fneg, fadd. rewrite Z.add_opp_diag_r.
    change (round 0 1) with (Fin 0).
    unfold flt, fhalf.
    replace (U / 2 <? 0) with false
      by (symmetry; apply Z.ltb_ge, Z.div_pos; lia).
    reflexivity.
Qed.

Lemma fadd_sign_ok (a b : Z) : 0 <= a -> 0 <= b -> sign_ok (fadd (Fin a) (Fin b)).
Proof.
  intros Ha Hb. apply nonneg_sign_ok. simpl. apply round_nonneg; lia.
Qed.

Lemma raw_quotient_sign (x w : Z) : 0 <= x -> 0 < w -> sign_ok (raw_quotient x w).
Proof.
  intros Hx Hw. unfold raw_quotient, fsub, fneg, fadd.
  pose proof (Z.mod_le x w Hx Hw). pose proof U_pos.
  pose proof (round_nonneg (x + - (x mod w)) 1 ltac:(lia) eq_refl) as N.
  destruct (round (x + - (x mod w)) 1) as [y| |]; simpl in N.
  - unfold fdiv.
    replace (w =? 0) with false by (symmetry; apply Z.eqb_neq; lia).
    unfold of_ratio.
    replace (0 <? w) with true by (symmetry; apply Z.ltb_lt; lia).
    apply nonneg_sign_ok, round_nonneg; nia.
  - subst. simpl. apply Z.ltb_ge. lia.
  - contradiction.
Qed.

Lemma py_floordiv_sign (x w : Z) (f : float) :
  0 <= x -> 0 < w -> py_floordiv (Fin x) (Fin w) = Ok f -> sign_ok f.
Proof.
  intros Hx Hw. rewrite py_floordiv_unfold by assumption. cbv zeta.
  pose proof (raw_quotient_sign x w Hx Hw) as S. pose proof U_pos.
  destruct (raw_quotient x w) as [d| |]; simpl in S; try contradiction.
  - assert (0 <= d / U * U) by (pose proof (Z.div_pos d U S ltac:(lia)); nia).
    destruct (is_zero (Fin d)); [intros [= <-]; simpl; lia|].
    unfold ffloor.
    destruct (flt fhalf (fsub (Fin d) (Fin (d / U * U)))); intros [= <-].
    + apply fadd_sign_ok; lia.
    + simpl. assumption.
  - subst. simpl. intros [= <-]. reflexivity.
Qed.

Lemma to_int_sign (f : float) (z : Z) : sign_ok f -> to_int f = Ok z -> 0 <= z.
Proof.
  destruct f; simpl; try discriminate. intros H [= <-].
  apply Z.quot_pos; [assumption|]. pose proof U_pos. lia.
Qed.

Lemma to_int_range (n k : Z) :
  0 <= n < k * U -> exists z, to_int (Fin n) = Ok z /\ 0 <= z < k.
Proof.
  intros H. pose proof U_pos. exists (Z.quot n U). split; [reflexivity|].
  rewrite Z.quot_div_nonneg by lia.
  split; [apply Z.div_pos; lia|apply Z.div_lt_upper_bound; lia].
Qed.

(** A thousand times a fractional part, as a float, is below 1000. *)
Lemma fmul_frac_1000 (x : Z) :
  0 <= x -> fits53 x ->
  exists n, fmul (Fin (x mod U)) (Fin (1000 * U)) = Fin n /\ 0 <= n < 1000 * U.
Proof.
  intros Hx Hf. pose proof U_pos. pose proof P_pos.
  pose proof (frac_bound x Hx Hf) as B.
  set (fr := x mod U) in *.
  unfold fmul, round.
  rewrite Z.abs_eq by nia.
  replace (fr * (1000 * U)) with (1000 * fr * U) by lia.
  rewrite round_pos_cancel by lia.
  pose proof (round_pos_below_1000 (1000 * fr) ltac:(lia)) as Hr.
  pose proof (round_pos_nonneg (1000 * fr) 1 ltac:(lia) eq_refl) as Hn.
  replace (HUGE <=? round_pos (1000 * fr) 1) with false.
  2:{ symmetry. apply Z.leb_gt. rewrite HUGE_U.
      assert (2 ^ 10 <= 2 ^ 1024) by (apply Z.pow_le_mono_r; lia).
      change (2 ^ 10) with 1024 in *. nia. }
  eexists. split; [reflexivity|].
  destruct (Z.eq_dec fr 0) as [E|N].
  - rewrite E. simpl. lia.
  - rewrite Z.sgn_pos by nia. lia.
Qed.

End ArithFacts.

(** ** The shift of a timestamp *)

Module ShiftFacts.

Import Vocabulary.
Import Float FloatFacts ArithFacts StrFacts IntFacts TimeFacts.
Local Open Scope string_scope.
Local Open Scope Z_scope.

Lemma two53 : 2 ^ 53 = 9007199254740992.
Proof. reflexivity. Qed.

(** Decomposition of a positive finite total. *)
Lemma decompose_float (x : Z) (t' : Z * Z * Z * Z) :
  0 < x -> fits53 x -> decompose (NFloat (Fin x)) = Ok t' -> timestamp t'.
Proof.
  intros Hx Hf. pose proof U_pos as HU.
  unfold decompose, floordiv, modulo, mul, to_float.
  rewrite !of_int_small by (rewrite two53; lia).
  cbn [bind].
  rewrite !py_mod_nonneg by lia.
  cbn [bind].
  destruct (py_floordiv (Fin x) (Fin (3600 * U))) as [fh|] eqn:E1;
    [|discriminate].
  cbn [bind PyNum.int].
  destruct (to_int fh) as [hours|] eqn:E2; [|discriminate].
  cbn [bind].
  assert (Hh : 0 <= hours).
  { apply to_int_sign with fh; [|assumption].
    apply py_floordiv_sign with x (3600 * U); try lia. assumption. }
  pose proof (Z.mod_pos_bound x (3600 * U) ltac:(lia)) as B1.
  assert (K : 0 <= x mod (3600 * U) / (60 * U) < 60).
  { split; [apply Z.div_pos; lia|apply Z.div_lt_upper_bound; lia]. }
  rewrite py_floordiv_small by (rewrite ?two53; lia).
  cbn [bind PyNum.int].
  destruct (to_int_range (x mod (3600 * U) / (60 * U) * U) 60) as (mi & -> & Hmi);
    [nia|].
  cbn [bind].
  pose proof (Z.mod_pos_bound x (60 * U) ltac:(lia)) as B2.
  destruct (to_int_range (x mod (60 * U)) 60 B2) as (se & -> & Hse).
  cbn [bind].
  rewrite Z.mul_1_l.
  destruct (fmul_frac_1000 x ltac:(lia) Hf) as (n & -> & Hn).
  destruct (to_int_range n 1000 Hn) as (ms & -> & Hms).
  cbn [bind].
  intros [= <-]. unfold timestamp. lia.
Qed.

Lemma decompose_zero : decompose (NInt 0) = Ok (0, 0, 0, 0).
Proof. reflexivity. Qed.












End ShiftFacts.

(** ** Offset transform *)

Module TransformFacts.

Import Vocabulary.
Import Float StrFacts IntFacts TimeFacts.
Local Open Scope string_scope.
Local Open Scope Z_scope.

(** C5: the timing line [00:00:01,000 --> 00:00:02,500] becomes
    [00:00:02,750 --> 00:00:04,250] under the offset +1.75 and
    [00:00:00,000 --> 00:00:00,000] under the offset -5. *)
Theorem offset_examples :
  apply_time_offset "00:00:01,000 --> 00:00:02,500" plus_1_75 =
    "00:00:02,750 --> 00:00:04,250" /\
  apply_time_offset "00:00:01,000 --> 00:00:02,500" minus_5 =
    "00:00:00,000 --> 00:00:00,000" /\
  apply_time_offset "00:00:01,000 --> 00:00:02,500" (NInt (-5)) =
    "00:00:00,000 --> 00:00:00,000".
Proof.
  split; [|split]; vm_compute; reflexivity.
Qed.






(** Lines stay lines: nothing the transform writes holds a line feed. *)












End TransformFacts.

(** * Further properties *)

(** ** Invariants of the batch loop *)

Module BatchInvariants.

Import Vocabulary Terms.
Import Batch BatchFacts.

Lemma started_videos_app (a b : list event) :
  started_videos (a ++ b) = (started_videos a ++ started_videos b)%list.
Proof.
  induction a as [|e a IH]; simpl; auto.
  destruct e; simpl; rewrite IH; reflexivity.
Qed.

(** What the handling of one file does to the state, whatever the
    environment and the flag. *)
Record step (cfg : settings) (f : file_env) (st st1 : state) (ok : bool)
  (evs : list event) : Prop := {
  step_trace : trace st1 = (trace st ++ evs)%list;
  step_processed : files_processed st1 = files_processed st;
  step_total : total_files st1 = total_files st;
  step_started : started_videos evs = [video f];
  step_flag : processing st1 = true -> processing st = true;
  step_justified : forallb (justified cfg f) evs = true;
  step_times :
    (List.length (processing_times st1) <=
     List.length (processing_times st) + List.length (filter is_spawn evs))%nat;
  step_spawns : (List.length (filter is_spawn evs) <= 1)%nat;
  step_success :
    ok = true -> skipped cfg f = true \/ returncode f = 0
}.

#[local] Arguments apply_time_offset : simpl never.

Lemma video_step (cfg : settings) (f : file_env) (st : state) :
  exists evs,
    step cfg f st (fst (process_video_optimized cfg f st))
      (snd (process_video_optimized cfg f st)) evs.
Proof.
  unfold process_video_optimized, process_video_try.
  destruct f as [v se uf sf rp rc sd sw stf el]. simpl.
  destruct (monitor rp 0 sd (processing st)) eqn:M;
    [assert (F : processing st = true)
       by (destruct (processing st) eqn:E; [reflexivity|];
           rewrite monitor_off in M; discriminate)|];
  destruct se, (remove_existing cfg) eqn:RE, uf, sf, (rc =? 0) eqn:RC, stf;
    simpl; rewrite ?M; simpl;
    try destruct sw; try destruct (PyNum.equals_zero (offset cfg)) eqn:OZ;
    simpl; rewrite <- ?app_assoc; simpl;
    (eexists; constructor;
     [ simpl; rewrite <- ?app_assoc; reflexivity
     | reflexivity | reflexivity | reflexivity
     | try (intros _; assumption); try (intros K; discriminate K); auto
     | simpl; unfold skipped; simpl;
       rewrite ?RE, ?RC, ?OZ, ?String.eqb_refl; reflexivity
     | simpl; rewrite ?length_app; simpl; lia
     | simpl; lia
     | unfold skipped; simpl; rewrite ?RE;
       try (intros K; discriminate K);
       try (intros _; left; reflexivity);
       try (intros _; right; apply Z.eqb_eq; assumption) ]).
Qed.

(** What the loop over [files] does to the state: [k] files are started. *)
Record looped (cfg : settings) (files : list file_env) (st st' : state)
  (n n' : nat) (b : bool) (k : nat) (evs : list event) : Prop := {
  looped_bound : (k <= List.length files)%nat;
  looped_processed : files_processed st' = (files_processed st + k)%nat;
  looped_total : total_files st' = total_files st;
  looped_success : (n <= n' <= n + k)%nat;
  looped_trace : trace st' = (trace st ++ evs)%list;
  looped_started : started_videos evs = firstn k (map video files);
  looped_break : b = true <-> (k < List.length files)%nat;
  looped_stopped : In LogStopped evs <-> b = true;
  looped_flag : b = true -> processing st' = false;
  looped_justified :
    Forall (fun e => e = LogStopped \/
                     exists f, In f files /\ justified cfg f e = true) evs;
  looped_times :
    (List.length (processing_times st') <=
     List.length (processing_times st) + List.length (filter is_spawn evs))%nat;
  looped_spawns : (List.length (filter is_spawn evs) <= k)%nat
}.

Lemma justified_not_stopped (cfg : settings) (f : file_env) (evs : list event) :
  forallb (justified cfg f) evs = true -> ~ In LogStopped evs.
Proof.
  intros J H. rewrite forallb_forall in J. apply J in H. discriminate.
Qed.

Lemma loop_invariants (cfg : settings) (files : list file_env) :
  forall st n,
  exists k evs,
    looped cfg files st
      (fst (fst (process_loop cfg files st n)))
      n (snd (fst (process_loop cfg files st n)))
      (snd (process_loop cfg files st n)) k evs.
Proof.
  induction files as [|f rest IH]; intros st n.
  - exists 0%nat, []. simpl. constructor; simpl; auto; try lia;
      try (rewrite app_nil_r; reflexivity);
      try (split; [discriminate|lia]);
      try (split; [contradiction|discriminate]);
      try discriminate.
  - cbn [process_loop]. destruct (processing st) eqn:Hp; cbn [negb].
    + destruct (video_step cfg f st) as (ev1 & S1).
      destruct (process_video_optimized cfg f st) as [st1 ok] eqn:E.
      cbn [fst snd] in S1.
      destruct (IH (bump st1) (if ok then S n else n)) as (k & ev2 & L).
      change {| processing := processing st1; total_files := total_files st1;
                files_processed := S (files_processed st1);
                processing_times := processing_times st1; trace := trace st1 |}
        with (bump st1).
      destruct (process_loop cfg rest (bump st1) (if ok then S n else n))
        as [[st' n'] b].
      cbn [fst snd] in *. destruct S1, L. cbn [bump files_processed total_files
        processing_times trace] in *.
      exists (S k), (ev1 ++ ev2)%list. constructor; cbn [List.length map firstn].
      * lia.
      * lia.
      * congruence.
      * destruct ok; lia.
      * rewrite looped_trace0, step_trace0, app_assoc. reflexivity.
      * rewrite started_videos_app, step_started0, looped_started0. reflexivity.
      * rewrite looped_break0. lia.
      * rewrite in_app_iff, looped_stopped0.
        pose proof (justified_not_stopped _ _ _ step_justified0). tauto.
      * assumption.
      * apply Forall_app. split.
        -- rewrite forallb_forall in step_justified0.
           apply Forall_forall. intros e He. right. exists f.
           split; [left; reflexivity|auto].
        -- eapply Forall_impl; [|exact looped_justified0].
           intros e [->|(g & Hg & J)]; [left; reflexivity|].
           right. exists g. split; [right; assumption|assumption].
      * rewrite filter_app, length_app. lia.
      * rewrite filter_app, length_app. lia.
    + exists 0%nat, [LogStopped]. cbn [fst snd]. constructor;
        cbn [List.length map firstn emit trace files_processed total_files
             processing_times processing filter is_spawn]; auto; try lia;
        first [ split; [intros _; simpl; lia | reflexivity]
              | split; [reflexivity | intros _; left; reflexivity]
              | constructor; [left; reflexivity|constructor] ].
Qed.

Lemma run_unfold (cfg : settings) (l : list file_env) :
  l <> [] ->
  process_videos cfg true (Ok l) started =
  let '(st, n, stopped) := process_loop cfg l (run_start (List.length l)) 0 in
  {| final := set_processing false (emit (LogComplete n (List.length l)) st);
     success_count := n;
     result := if stopped then StoppedByUser else Completed |}.
Proof.
  destruct l; [congruence|reflexivity].
Qed.

(** The shape of every run over a non-empty batch. *)
Lemma run_shape (cfg : settings) (l : list file_env) :
  l <> [] ->
  exists st' n b k evs,
    looped cfg l (run_start (List.length l)) st' 0 n b k evs /\
    final (process_videos cfg true (Ok l) started) =
      set_processing false (emit (LogComplete n (List.length l)) st') /\
    success_count (process_videos cfg true (Ok l) started) = n /\
    result (process_videos cfg true (Ok l) started) =
      (if b then StoppedByUser else Completed).
Proof.
  intros H. rewrite (run_unfold cfg l H).
  destruct (loop_invariants cfg l (run_start (List.length l)) 0) as (k & evs & L).
  destruct (process_loop cfg l (run_start (List.length l)) 0) as [[st' n] b].
  exists st', n, b, k, evs. cbn [fst snd] in L. auto.
Qed.



(** X3: files are started strictly in the order in which they were
    found, without gaps: the videos whose handling began are the first
    [files_processed] files of the batch. *)
Theorem files_start_in_order (cfg : settings) (f : file_env) (files : list file_env) :
  let r := process_videos cfg true (Ok (f :: files)) started in
  started_videos (trace (final r)) =
  firstn (files_processed (final r)) (map video (f :: files)).
Proof.
  intros r. subst r.
  destruct (run_shape cfg (f :: files) ltac:(discriminate))
    as (st' & n & b & k & evs & L & -> & _ & _).
  destruct L. cbn [set_processing emit files_processed trace run_start] in *.
  rewrite looped_trace0, looped_processed0, !started_videos_app, looped_started0.
  simpl. rewrite app_nil_r. reflexivity.
Qed.

(** X4: every event of a run is a message of the loop or is justified by
    a file of the batch: a subtitle is removed only if it existed and
    overwriting is on, the transcriber is started only for files that are
    not skipped, a subtitle is rewritten only under a non-zero offset
    after exit status 0 and with the transform of what the transcriber
    wrote.  So with overwriting off nothing is ever removed, and with a
    zero offset nothing is ever rewritten. *)
Theorem events_are_justified (cfg : settings) (f : file_env) (files : list file_env) :
  let r := process_videos cfg true (Ok (f :: files)) started in
  Forall (fun e => of_loop e = true \/
                   exists g, In g (f :: files) /\ justified cfg g e = true)
         (trace (final r)) /\
  (remove_existing cfg = false -> existsb is_unlink (trace (final r)) = false) /\
  (PyNum.equals_zero (offset cfg) = true ->
   existsb is_write (trace (final r)) = false).
Proof.
  intros r. subst r.
  destruct (run_shape cfg (f :: files) ltac:(discriminate))
    as (st' & n & b & k & evs & L & -> & _ & _).
  destruct L. cbn [set_processing emit trace run_start] in *.
  rewrite looped_trace0.
  assert (A : Forall (fun e => of_loop e = true \/
                               exists g, In g (f :: files) /\ justified cfg g e = true)
                ((([] ++ [LogStarting (List.length (f :: files))]) ++ evs) ++
                 [LogComplete n (List.length (f :: files))])%list).
  { repeat (apply Forall_app; split).
    - constructor.
    - constructor; [left; reflexivity|constructor].
    - eapply Forall_impl; [|exact looped_justified0].
      intros e [->|H]; [left; reflexivity|right; exact H].
    - constructor; [left; reflexivity|constructor]. }
  split; [exact A|].
  rewrite Forall_forall in A.
  split; intros H.
  - destruct (existsb is_unlink _) eqn:E; [|reflexivity].
    apply existsb_exists in E. destruct E as (e & He & Hu).
    destruct e; try discriminate Hu.
    destruct (A _ He) as [K|(g & _ & K)]; [discriminate K|].
    simpl in K. rewrite H, andb_false_r in K. discriminate.
  - destruct (existsb is_write _) eqn:E; [|reflexivity].
    apply existsb_exists in E. destruct E as (e & He & Hu).
    destruct e; try discriminate Hu.
    destruct (A _ He) as [K|(g & _ & K)]; [discriminate K|].
    simpl in K. rewrite H in K. simpl in K.
    rewrite andb_false_r in K. discriminate.
Qed.

Lemma events_are_justified_witness :
  existsb is_unlink
    (trace (final (process_videos keep_existing true
                     (Ok [with_subtitle "a.mp4"; plain "b.mp4"]) started))) = false /\
  existsb is_write
    (trace (final (process_videos keep_existing true
                     (Ok [with_subtitle "a.mp4"; plain "b.mp4"]) started))) = false.
Proof.
  destruct (events_are_justified keep_existing (with_subtitle "a.mp4")
              [plain "b.mp4"]) as (_ & A & B).
  split; [apply A|apply B]; reflexivity.
Defined.

Lemma loop_app (cfg : settings) (a b : list file_env) :
  forall st n,
    process_loop cfg (a ++ b) st n =
    let '(st1, n1, stopped) := process_loop cfg a st n in
    if stopped then (st1, n1, true) else process_loop cfg b st1 n1.
Proof.
  induction a as [|f a IH]; intros st n.
  - reflexivity.
  - cbn [app process_loop]. destruct (processing st); cbn [negb]; [|reflexivity].
    destruct (process_video_optimized cfg f st) as [st1 ok]. apply IH.
Qed.

(** X5: when the user stops the run while the last file is being
    transcribed, the transcriber is terminated and the file is no
    success, but the loop ends by exhaustion: every file counts as
    processed, the warning of line 535 is not logged, and the run ends
    like a completed one. *)
Theorem stop_during_last_file (cfg : settings) (files : list file_env)
  (last : file_env) :
  Forall no_stop files ->
  stopped_midway cfg last = true ->
  let r := process_videos cfg true (Ok (files ++ [last])%list) started in
  result r = Completed /\
  ~ In LogStopped (trace (final r)) /\
  terminated (video last) (trace (final r)) = true /\
  files_processed (final r) = total_files (final r) /\
  success_count r =
    count (fun f => skipped cfg f || transcribed cfg f) files.
Proof.
  intros Hs Hm r. subst r.
  assert (NE : (files ++ [last])%list <> []) by (destruct files; discriminate).
  set (l := (files ++ [last])%list) in *.
  destruct (loop_without_stop cfg files Hs (run_start (List.length l)) 0 eq_refl)
    as (st1 & E1 & P1 & Q1).
  destruct (video_stopped_midway cfg last st1 Hm P1) as (st2 & E2 & P2 & Q2 & K2).
  assert (E : process_loop cfg l (run_start (List.length l)) 0 =
              (bump st2,
               count (fun f => skipped cfg f || transcribed cfg f) files, false)).
  { unfold l at 1. rewrite loop_app, E1.
    rewrite (loop_step cfg last [] st1 st2 false _ P1 E2). reflexivity. }
  destruct (loop_invariants cfg l (run_start (List.length l)) 0) as (k & evs & L).
  rewrite (run_unfold cfg l NE). rewrite E in *. cbn [fst snd] in L.
  destruct L.
  cbn [final result success_count set_processing emit trace files_processed
       total_files bump run_start] in *.
  split; [reflexivity|]. split; [|split; [|split; [|reflexivity]]].
  - rewrite looped_trace0. rewrite !in_app_iff. simpl.
    intros [[[[]|[K|[]]]|K]|[K|[]]]; try discriminate K.
    apply looped_stopped0 in K. discriminate.
  - unfold terminated in *. rewrite existsb_app, K2. reflexivity.
  - assert (k = List.length l).
    { destruct (le_lt_dec (List.length l) k) as [G|G]; [lia|].
      apply looped_break0 in G. discriminate. }
    lia.
Qed.

Lemma stop_during_last_file_witness :
  (Forall no_stop [plain "a.mp4"] /\
   stopped_midway keep_existing (interrupted "b.mp4") = true) /\
  (let r := process_videos keep_existing true
              (Ok [plain "a.mp4"; interrupted "b.mp4"]) started in
   result r = Completed /\ success_count r = 1%nat).
Proof.
  assert (H : Forall no_stop [plain "a.mp4"]) by (repeat constructor).
  split; [split; [exact H|reflexivity]|].
  destruct (stop_during_last_file keep_existing [plain "a.mp4"]
              (interrupted "b.mp4") H eq_refl) as (A & _ & _ & _ & B).
  split; [exact A|exact B].
Defined.

End BatchInvariants.

(** ** Discovery and subtitle paths *)

Module PathFacts.

Import Vocabulary Terms.
Import Discovery Paths DiscoveryFacts StrFacts.

Scheme shuffle_ind2 := Minimality for shuffle Sort Prop
  with shuffles_ind2 := Minimality for shuffles Sort Prop.

Lemma shuffle_walk :
  forall e e', shuffle e e' ->
  forall dir, Permutation (walk dir e) (walk dir e').
Proof.
  apply (shuffle_ind2
           (fun e e' => forall dir, Permutation (walk dir e) (walk dir e'))
           (fun cs ds => forall dir,
                Permutation (flat_map (walk dir) cs) (flat_map (walk dir) ds))).
  - intros n dir. apply Permutation_refl.
  - intros n cs ds _ IH dir. simpl. constructor. apply IH.
  - intros dir. constructor.
  - intros e e' cs ds _ IH1 _ IH2 dir. simpl.
    apply Permutation_app; auto.
  - intros a b cs dir. simpl. rewrite !app_assoc.
    apply Permutation_app_tail, Permutation_app_comm.
  - intros cs ds es _ IH1 _ IH2 dir.
    eapply Permutation_trans; [apply IH1|apply IH2].
Qed.

Lemma shuffles_rglob (cs ds : list entry) :
  shuffles cs ds -> forall dir, Permutation (rglob dir cs) (rglob dir ds).
Proof.
  unfold rglob. induction 1 as [|e e' cs ds He _ IH| |cs ds es _ IH1 _ IH2];
    intros dir; simpl.
  - constructor.
  - apply Permutation_app; [apply shuffle_walk; assumption|apply IH].
  - rewrite !app_assoc. apply Permutation_app_tail, Permutation_app_comm.
  - eapply Permutation_trans; [apply IH1|apply IH2].
Qed.

Lemma path_le_antisym (p q : path) : path_le p q -> path_le q p -> p = q.
Proof.
  unfold path_le, path_leb. rewrite (path_compare_antisym q p).
  destruct (path_compare p q) eqn:E; simpl; try discriminate.
  intros _ _. apply path_compare_eq. assumption.
Qed.

(** A list has one sorted arrangement. *)
Lemma sorted_unique (l1 : list path) :
  forall l2,
    StronglySorted path_le l1 -> StronglySorted path_le l2 ->
    Permutation l1 l2 -> l1 = l2.
Proof.
  induction l1 as [|a l1 IH]; intros [|b l2] S1 S2 P.
  - reflexivity.
  - apply Permutation_nil in P. discriminate.
  - apply Permutation_sym, Permutation_nil in P. discriminate.
  - inversion S1 as [|? ? S1' F1]; subst. inversion S2 as [|? ? S2' F2]; subst.
    rewrite Forall_forall in F1, F2.
    assert (E : a = b).
    { assert (Ha : In a (b :: l2))
        by (apply (Permutation_in _ P); left; reflexivity).
      assert (Hb : In b (a :: l1))
        by (apply (Permutation_in _ (Permutation_sym P)); left; reflexivity).
      destruct Ha as [->|Ha]; [reflexivity|].
      destruct Hb as [->|Hb]; [reflexivity|].
      apply path_le_antisym; auto. }
    subst. f_equal. apply IH; auto.
    apply Permutation_cons_inv with b. assumption.
Qed.

Lemma sorted_of_permutation (l1 l2 : list path) :
  Permutation l1 l2 -> sorted l1 = sorted l2.
Proof.
  intros P. apply sorted_unique; try apply sorted_sorted.
  eapply Permutation_trans; [apply Permutation_sym, sorted_perm|].
  eapply Permutation_trans; [exact P|apply sorted_perm].
Qed.

(** X6: the result of [find_video_files] does not depend on the order in
    which the operating system lists the entries of any folder of the
    tree: the [sorted] of line 342 makes the processing order the same
    for every listing. *)
Theorem discovery_ignores_listing_order (folder : path) (cs ds : list entry) :
  shuffles cs ds ->
  find_video_files folder cs = find_video_files folder ds.
Proof.
  intros H. unfold find_video_files.
  apply sorted_of_permutation, Permutation_map.
  (* filtering keeps permutations *)
  pose proof (shuffles_rglob cs ds H folder) as P.
  induction P as [|x l l' _ IH|x y l|l l' l'' _ IH1 _ IH2]; simpl.
  - constructor.
  - destruct (is_video x); [constructor|]; assumption.
  - destruct (is_video x), (is_video y);
      first [apply perm_swap | apply Permutation_refl].
  - eapply Permutation_trans; eassumption.
Qed.

Lemma discovery_ignores_listing_order_witness :
  find_video_files ["v"] [File "b.mp4"; Dir "s" [File "d.mkv"; File "c.avi"]] =
  find_video_files ["v"] [Dir "s" [File "c.avi"; File "d.mkv"]; File "b.mp4"].
Proof.
  apply discovery_ignores_listing_order.
  eapply shuffles_trans; [apply shuffles_swap|].
  apply shuffles_skip; [|apply shuffles_skip; constructor].
  constructor. apply shuffles_swap.
Defined.

Local Open Scope string_scope.

Lemma code_full_stop (c : ascii) : (code c =? 46)%Z = Ascii.eqb c ".".
Proof.
  destruct c as [[] [] [] [] [] [] [] []]; reflexivity.
Qed.

Lemma from_last_dot_none (e : string) :
  occurs "." e = false -> from_last_dot e = None.
Proof.
  induction e as [|c e IH]; simpl; auto.
  intros H. apply orb_false_elim in H. destruct H as (Hc & He).
  rewrite (IH He), code_full_stop, Hc. reflexivity.
Qed.

Lemma from_last_dot_app (x e : string) :
  occurs "." e = false ->
  from_last_dot (x ++ "." ++ e) = Some ("." ++ e).
Proof.
  intros H. induction x as [|c x IH].
  - cbn [append from_last_dot]. rewrite (from_last_dot_none e H). reflexivity.
  - cbn [append from_last_dot] in *. rewrite IH. reflexivity.
Qed.

Lemma length_app_str (a b : string) : length (a ++ b) = (length a + length b)%nat.
Proof.
  induction a as [|c a IH]; simpl; auto.
Qed.

Lemma take_app (a b : string) : take (length a) (a ++ b) = a.
Proof.
  induction a as [|c a IH]; simpl.
  - destruct b; reflexivity.
  - rewrite IH. reflexivity.
Qed.

Lemma suffix_of_extension (stem e : string) :
  stem <> "" -> extension e -> suffix (stem ++ "." ++ e) = "." ++ e.
Proof.
  intros Hs (He & Hd). destruct stem as [|c stem]; [congruence|].
  unfold suffix. cbn [append]. 
  change (String "." e) with ("." ++ e).
  rewrite (from_last_dot_app stem e Hd).
  destruct e as [|d e]; [congruence|]. reflexivity.
Qed.

(** X7: the subtitle of a video lies in the folder of the video and is
    named by the stem alone: [stem.ext] gives [stem.srt] for every
    extension.  Two videos of one folder that differ only in their
    extension therefore share one subtitle path. *)
Theorem same_stem_same_subtitle (dir : path) (stem e1 e2 : string) :
  stem <> "" -> extension e1 -> extension e2 ->
  srt_path (dir ++ [(stem ++ "." ++ e1)%string])%list = Ok (dir ++ [(stem ++ ".srt")%string])%list /\
  srt_path (dir ++ [(stem ++ "." ++ e2)%string])%list =
    srt_path (dir ++ [(stem ++ "." ++ e1)%string])%list /\
  (forall p, srt_path (dir ++ [(stem ++ "." ++ e1)%string])%list = Ok p ->
     parent p = parent (dir ++ [(stem ++ "." ++ e1)%string])%list).
Proof.
  intros Hs H1 H2.
  assert (G : forall e, extension e ->
                srt_path (dir ++ [(stem ++ "." ++ e)%string])%list =
                Ok (dir ++ [(stem ++ ".srt")%string])%list).
  { intros e He. unfold srt_path, with_suffix, name_of.
    rewrite last_last, removelast_last.
    destruct (stem ++ "." ++ e) eqn:N.
    - destruct stem; [congruence|discriminate].
    - rewrite <- N. unfold with_suffix_name.
      rewrite (suffix_of_extension stem e Hs He).
      change ("." ++ e) with (String "." e).
      rewrite length_app_str, Nat.add_sub, take_app. reflexivity. }
  rewrite (G e1 H1), (G e2 H2). repeat split.
  intros p [= <-]. unfold parent. rewrite !removelast_last. reflexivity.
Qed.

Lemma same_stem_same_subtitle_witness :
  srt_path ["v"; "talk.mp4"] = Ok ["v"; "talk.srt"] /\
  srt_path ["v"; "talk.MKV"] = srt_path ["v"; "talk.mp4"].
Proof.
  assert (S : "talk" <> "") by discriminate.
  assert (E1 : extension "mp4") by (split; [discriminate|reflexivity]).
  assert (E2 : extension "MKV") by (split; [discriminate|reflexivity]).
  destruct (same_stem_same_subtitle ["v"] "talk" "mp4" "MKV" S E1 E2) as (A & B & _).
  split; [exact A|exact B].
Defined.

End PathFacts.

(** ** More on the time codec *)

Module CodecFacts.

Import Vocabulary Terms.
Import Float FloatFacts ArithFacts StrFacts IntFacts TimeFacts ShiftFacts PathFacts.
Local Open Scope string_scope.
Local Open Scope Z_scope.

Lemma all_digits_app (a b : string) :
  all_digits (a ++ b) = all_digits a && all_digits b.
Proof.
  induction a as [|c a IH]; simpl; auto.
  rewrite IH, andb_assoc. reflexivity.
Qed.

Lemma all_digits_zeros (k : nat) : all_digits (zeros k) = true.
Proof.
  induction k as [|k IH]; auto.
Qed.

Lemma all_digits_fuel (f : nat) :
  forall n acc, all_digits acc = true -> all_digits (digits_fuel f n acc) = true.
Proof.
  induction f as [|f IH]; intros n acc H; [exact H|].
  rewrite digits_fuel_S.
  assert (K : all_digits (String (digit_char (n mod 10)) acc) = true)
    by (cbn [all_digits]; rewrite digit_char_is_digit by apply mod10_range;
        exact H).
  destruct (n <? 10); auto.
Qed.

Lemma all_digits_format_d (w : nat) (z : Z) :
  0 <= z -> all_digits (format_d w z) = true.
Proof.
  intros H. unfold format_d, str_nat.
  destruct (z <? 0) eqn:E; [apply Z.ltb_lt in E; lia|].
  rewrite all_digits_app, all_digits_zeros, all_digits_fuel; reflexivity.
Qed.

Lemma length_zeros (k : nat) : length (zeros k) = k.
Proof.
  induction k as [|k IH]; simpl; auto.
Qed.

Lemma length_format_d (w : nat) (z : Z) :
  0 <= z -> (w <= length (format_d w z))%nat.
Proof.
  intros H. unfold format_d.
  destruct (z <? 0) eqn:E; [apply Z.ltb_lt in E; lia|].
  rewrite length_app_str, length_zeros. lia.
Qed.

Lemma widths_below_1000 : forallb widths_ok below_1000 = true.
Proof. vm_compute. reflexivity. Qed.

Lemma widths (n : Z) :
  0 <= n < 1000 ->
  length (format_d 2 n) = (if (n <? 100)%Z then 2 else 3)%nat /\
  length (format_d 3 n) = 3%nat.
Proof.
  intros H. pose proof widths_below_1000 as W.
  rewrite forallb_forall in W.
  assert (I : In n below_1000).
  { unfold below_1000. apply in_map_iff. exists (Z.to_nat n).
    split; [lia|]. apply in_seq. lia. }
  specialize (W n I). unfold widths_ok in W.
  apply andb_prop in W. destruct W as (A & B).
  apply Nat.eqb_eq in A, B. auto.
Qed.

(** X8: what line 507 writes for a timestamp has the strict shape
    [HH:MM:SS,mmm] - digits only, at least two for the hours, two for
    minutes and seconds, three for milliseconds - and lines 495-497 read
    the same fields back from it. *)
Theorem format_time_round_trip (t : Z * Z * Z * Z) :
  timestamp t ->
  well_formed (format_time t) = true /\
  decode (format_time t) = Ok t.
Proof.
  destruct t as [[[h m] s] ms]. intros (Hh & Hm & Hs & Hms).
  split; [|apply decode_format_time; lia].
  set (H := format_d 2 h). set (M := format_d 2 m).
  set (S := format_d 2 s). set (MS := format_d 3 ms).
  assert (E : format_time (h, m, s, ms) =
              (H ++ single colon ++ M ++ single colon ++ S) ++ single comma ++ MS).
  { unfold format_time. fold H M S MS. rewrite !app_assoc_str. reflexivity. }
  unfold well_formed. rewrite E.
  change (split "," ?x) with (split_from (single comma) 0 x).
  rewrite split_single_app.
  2:{ rewrite !occurs_app. unfold H, M, S.
      rewrite !format_d_occurs by (lia || reflexivity). reflexivity. }
  rewrite split_single_none by (apply format_d_occurs; [reflexivity|lia]).
  change (split ":" ?x) with (split_from (single colon) 0 x).
  rewrite split_single_app by (apply format_d_occurs; [reflexivity|lia]).
  rewrite split_single_app by (apply format_d_occurs; [reflexivity|lia]).
  rewrite split_single_none by (apply format_d_occurs; [reflexivity|lia]).
  unfold H, M, S, MS.
  rewrite !all_digits_format_d by lia.
  destruct (widths m ltac:(lia)) as (Wm & _).
  destruct (widths s ltac:(lia)) as (Ws & _).
  destruct (widths ms ltac:(lia)) as (_ & Wms).
  replace (m <? 100) with true in Wm by (symmetry; apply Z.ltb_lt; lia).
  replace (s <? 100) with true in Ws by (symmetry; apply Z.ltb_lt; lia).
  rewrite Wm, Ws, Wms.
  pose proof (length_format_d 2 h Hh) as Lh.
  apply Nat.leb_le in Lh. rewrite Lh. reflexivity.
Qed.

Lemma format_time_round_trip_witness :
  well_formed (format_time (123, 4, 5, 6)) = true /\
  decode (format_time (123, 4, 5, 6)) = Ok (123, 4, 5, 6).
Proof.
  apply format_time_round_trip. unfold timestamp. lia.
Defined.

(** Times that are whole eighths of a second. *)

Lemma U_E8 : U = 8 * E8.
Proof. unfold U, E8. change 8 with (2 ^ 3). rewrite <- Z.pow_add_r by lia. reflexivity. Qed.

Lemma E8_pos : 0 < E8.
Proof. unfold E8. apply pow2_pos. lia. Qed.

Lemma round_pos_E8 (a : Z) : 0 <= a < 2 ^ 53 -> round_pos (a * E8) 1 = a * E8.
Proof.
  intros H. unfold E8. apply round_pos_exact; [assumption|lia].
Qed.

Lemma round_E8 (a : Z) : 0 <= a < 2 ^ 53 -> round (a * E8) 1 = Fin (a * E8).
Proof.
  intros H. pose proof E8_pos. unfold round.
  rewrite Z.abs_eq by nia. rewrite round_pos_E8 by assumption.
  replace (HUGE <=? a * E8) with false.
  2:{ symmetry. apply Z.leb_gt. pose proof (small_below_HUGE a H).
      rewrite U_E8 in *. nia. }
  f_equal. destruct (Z.eq_dec a 0) as [->|N]; [reflexivity|].
  rewrite Z.sgn_pos by nia. lia.
Qed.

Lemma round_ratio_E8 (a den : Z) :
  0 <= a < 2 ^ 53 -> 0 < den -> round (a * E8 * den) den = Fin (a * E8).
Proof.
  intros H Hd. pose proof E8_pos. unfold round.
  rewrite Z.abs_eq by nia. rewrite round_pos_cancel by nia.
  rewrite round_pos_E8 by assumption.
  replace (HUGE <=? a * E8) with false.
  2:{ symmetry. apply Z.leb_gt. pose proof (small_below_HUGE a H).
      rewrite U_E8 in *. nia. }
  f_equal. destruct (Z.eq_dec a 0) as [->|N]; [reflexivity|].
  rewrite Z.sgn_pos by nia. lia.
Qed.

Lemma to_int_units (q : Z) : to_int (Fin (q * U)) = Ok q.
Proof.
  unfold to_int. rewrite Z.quot_mul; [reflexivity|]. pose proof U_pos. lia.
Qed.

Lemma total_seconds_eighths (h m s j : Z) :
  0 <= h * 3600 + m * 60 + s -> 0 <= j < 8 ->
  8 * (h * 3600 + m * 60 + s) + j < 2 ^ 53 ->
  total_seconds (h, m, s, 125 * j) =
  Ok (NFloat (Fin ((8 * (h * 3600 + m * 60 + s) + j) * E8))).
Proof.
  intros HT Hj Hb. rewrite two53 in Hb.
  unfold total_seconds, truediv, int_true_div.
  change (1000 =? 0) with false. unfold of_ratio. change (0 <? 1000) with true.
  cbv iota.
  replace (125 * j * U) with (j * E8 * 1000) by (rewrite U_E8; lia).
  rewrite round_ratio_E8 by (rewrite ?two53; lia).
  cbn [bind]. unfold add, to_float.
  rewrite of_int_small by (rewrite two53; lia).
  cbn [bind]. unfold fadd. do 2 f_equal.
  replace ((h * 3600 + m * 60 + s) * U + j * E8)
    with ((8 * (h * 3600 + m * 60 + s) + j) * E8) by (rewrite U_E8; lia).
  apply round_E8. rewrite two53. lia.
Qed.

Lemma decompose_eighths (n : Z) :
  0 < n < 2 ^ 53 -> decompose (NFloat (Fin (n * E8))) = Ok (of_eighths n).
Proof.
  intros Hn. rewrite two53 in Hn. pose proof E8_pos as HE. pose proof U_pos as HU.
  assert (D1 : n * E8 / (3600 * U) = n / 28800).
  { rewrite U_E8. replace (3600 * (8 * E8)) with (28800 * E8) by lia.
    apply Z.div_mul_cancel_r; lia. }
  assert (M1 : (n * E8) mod (3600 * U) = n mod 28800 * E8).
  { rewrite U_E8. replace (3600 * (8 * E8)) with (28800 * E8) by lia.
    apply Z.mul_mod_distr_r; lia. }
  assert (D2 : n mod 28800 * E8 / (60 * U) = n mod 28800 / 480).
  { rewrite U_E8. replace (60 * (8 * E8)) with (480 * E8) by lia.
    apply Z.div_mul_cancel_r; lia. }
  assert (M2 : (n * E8) mod (60 * U) = n mod 480 * E8).
  { rewrite U_E8. replace (60 * (8 * E8)) with (480 * E8) by lia.
    apply Z.mul_mod_distr_r; lia. }
  assert (M3 : (n * E8) mod (1 * U) = n mod 8 * E8).
  { rewrite U_E8. replace (1 * (8 * E8)) with (8 * E8) by lia.
    apply Z.mul_mod_distr_r; lia. }
  pose proof (Z.div_pos n 28800 ltac:(lia) ltac:(lia)) as Q1.
  pose proof (Z.mul_div_le n 28800 ltac:(lia)) as Q1'.
  pose proof (Z.mod_pos_bound n 28800 ltac:(lia)) as R1.
  pose proof (Z.mod_pos_bound n 480 ltac:(lia)) as R2.
  pose proof (Z.mod_pos_bound n 8 ltac:(lia)) as R3.
  pose proof (Z.div_pos (n mod 28800) 480 ltac:(lia) ltac:(lia)) as Q2.
  pose proof (Z.div_lt_upper_bound (n mod 28800) 480 60 ltac:(lia) ltac:(lia)) as Q2'.
  unfold decompose, floordiv, modulo, mul, to_float.
  rewrite !of_int_small by (rewrite two53; lia).
  cbn [bind].
  rewrite !py_mod_nonneg by nia.
  cbn [bind].
  rewrite py_floordiv_small by (rewrite ?D1, ?two53; first [lia | nia]).
  rewrite D1. cbn [bind PyNum.int]. rewrite to_int_units. cbn [bind].
  rewrite M1.
  rewrite py_floordiv_small by (rewrite ?D2, ?two53; first [lia | nia]).
  rewrite D2. cbn [bind PyNum.int]. rewrite to_int_units. cbn [bind].
  rewrite M2.
  assert (S1 : to_int (Fin (n mod 480 * E8)) = Ok (n mod 480 / 8)).
  { unfold to_int. rewrite Z.quot_div_nonneg by nia.
    rewrite U_E8. rewrite Z.div_mul_cancel_r by lia. reflexivity. }
  rewrite S1. cbn [bind].
  rewrite M3.
  assert (F1 : fmul (Fin (n mod 8 * E8)) (Fin (1000 * U)) =
               Fin (125 * (n mod 8) * U)).
  { unfold fmul.
    replace (n mod 8 * E8 * (1000 * U))
      with (125 * (n mod 8) * U * (1 * U)) by (rewrite U_E8; lia).
    replace U with (1 * U) at 3 by lia.
    apply round_ratio_small; rewrite ?two53; lia. }
  rewrite F1. rewrite to_int_units. cbn [bind].
  reflexivity.
Qed.

(** A shift by eighths of a second. *)
Lemma eighths_shift (time_str : string) (h m s j e : Z) :
  decode time_str = Ok (h, m, s, 125 * j) ->
  0 <= h < 2 ^ 30 -> 0 <= m < 60 -> 0 <= s < 60 -> 0 <= j < 8 ->
  - 2 ^ 50 < e < 2 ^ 50 ->
  adjust_time time_str (NFloat (Fin (e * E8))) =
  format_time (of_eighths (Z.max 0 (8 * (h * 3600 + m * 60 + s) + j + e))).
Proof.
  intros Hd Hh Hm Hs Hj He.
  change (2 ^ 30) with 1073741824 in Hh.
  change (2 ^ 50) with 1125899906842624 in He.
  set (n := 8 * (h * 3600 + m * 60 + s) + j).
  assert (Hn : 0 <= n < 2 ^ 50) by (change (2 ^ 50) with 1125899906842624; lia).
  change (2 ^ 50) with 1125899906842624 in Hn.
  unfold adjust_time, adjust_time_try. rewrite Hd. cbn [bind].
  unfold shifted_total.
  rewrite total_seconds_eighths by (rewrite ?two53; lia).
  fold n. cbn [bind add to_float]. unfold fadd.
  replace (n * E8 + e * E8) with ((n + e) * E8) by lia.
  pose proof E8_pos as HE.
  destruct (Z.lt_ge_cases 0 (n + e)) as [Pos|Neg].
  - rewrite round_E8 by (rewrite two53; lia).
    unfold PyNum.max, gt. rewrite Z.mul_0_l. unfold flt.
    replace (0 <? (n + e) * E8) with true by (symmetry; apply Z.ltb_lt; nia).
    cbn [bind]. rewrite decompose_eighths by (rewrite two53; lia).
    rewrite Z.max_r by lia. reflexivity.
  - pose proof (round_nonpos ((n + e) * E8) ltac:(nia)) as N.
    assert (G : PyNum.max (NInt 0) (NFloat (round ((n + e) * E8) 1)) = NInt 0).
    { unfold PyNum.max, gt. rewrite Z.mul_0_l.
      destruct (round ((n + e) * E8) 1); simpl in *.
      - replace (0 <? n0) with false by (symmetry; apply Z.ltb_ge; lia).
        reflexivity.
      - subst. reflexivity.
      - reflexivity. }
    rewrite G. cbn [bind]. rewrite decompose_zero. cbn [bind].
    rewrite Z.max_l by lia. reflexivity.
Qed.



(** The fields of a time in eighths. *)
Lemma of_eighths_fields (n : Z) :
  0 <= n ->
  let '(h, m, s, ms) := of_eighths n in
  0 <= h /\ 0 <= m < 60 /\ 0 <= s < 60 /\ ms = 125 * (n mod 8) /\
  0 <= n mod 8 < 8 /\ 8 * (h * 3600 + m * 60 + s) + n mod 8 = n.
Proof.
  intros H. unfold of_eighths. Z.to_euclidean_division_equations. lia.
Qed.

(** A shift by eighths of a time written by line 507. *)
Lemma shift_of_eighths (n e : Z) :
  0 <= n < 2 ^ 40 -> - 2 ^ 50 < e < 2 ^ 50 ->
  adjust_time (format_time (of_eighths n)) (NFloat (Fin (e * E8))) =
  format_time (of_eighths (Z.max 0 (n + e))).
Proof.
  intros Hn He. change (2 ^ 40) with 1099511627776 in Hn.
  pose proof (of_eighths_fields n ltac:(lia)) as F.
  unfold of_eighths in *.
  destruct F as (Hh & Hm & Hs & _ & Hj & E).
  rewrite (eighths_shift _ (n / 28800) (n mod 28800 / 480) (n mod 480 / 8)
             (n mod 8) e).
  - rewrite E. reflexivity.
  - apply decode_format_time; lia.
  - split; [lia|]. change (2 ^ 30) with 1073741824.
    apply Z.div_lt_upper_bound; lia.
  - lia.
  - lia.
  - lia.
  - assumption.
Qed.

End CodecFacts.

(** ** Order of shifted timestamps *)

Module OrderFacts.

Import Vocabulary Terms.
Import Float PyStr PyInt PyNum.
Import FloatFacts ArithFacts StrFacts IntFacts TimeFacts ShiftFacts CodecFacts.
Local Open Scope string_scope.
Local Open Scope Z_scope.

(** Rounding is monotone. *)
Lemma shift_mono (a b : Z) : 0 <= a <= b -> shift a <= shift b.
Proof.
  intros H. unfold shift, bits.
  destruct (a =? 0) eqn:Ea; destruct (b =? 0) eqn:Eb.
  - lia.
  - pose proof (Z.log2_nonneg b). lia.
  - apply Z.eqb_neq in Ea. apply Z.eqb_eq in Eb. lia.
  - pose proof (Z.log2_le_mono a b ltac:(lia)). lia.
Qed.

Lemma round_pos_mono (n1 n2 den : Z) :
  0 <= n1 <= n2 -> 0 < den -> round_pos n1 den <= round_pos n2 den.
Proof.
  intros Hn Hd.
  assert (Hq : 0 <= n1 / den <= n2 / den).
  { split; [apply Z.div_pos; lia | apply Z.div_le_mono; lia]. }
  pose proof (shift_mono _ _ Hq) as Hs.
  pose proof (shift_nonneg (n1 / den)) as Hs1.
  destruct (Z.eq_dec (shift (n1 / den)) (shift (n2 / den))) as [E|N].
  - rewrite !round_pos_unfold. cbv zeta. rewrite E.
    set (s := shift (n2 / den)) in *.
    assert (Hp : 0 < 2 ^ s) by (apply pow2_pos; lia).
    set (D := den * 2 ^ s). assert (HD : 0 < D) by (unfold D; nia).
    pose proof (Z.div_mod n1 D ltac:(lia)) as E1.
    pose proof (Z.div_mod n2 D ltac:(lia)) as E2.
    pose proof (Z.mod_pos_bound n1 D HD) as B1.
    pose proof (Z.mod_pos_bound n2 D HD) as B2.
    assert (Q : n1 / D <= n2 / D) by (apply Z.div_le_mono; lia).
    apply Z.mul_le_mono_nonneg_r; [lia|].
    destruct (Z.eq_dec (n1 / D) (n2 / D)) as [EQ|NQ].
    + rewrite EQ in *.
      assert (R : n1 mod D <= n2 mod D) by lia.
      destruct (Z.ltb_spec D (2 * (n1 mod D)));
      destruct (Z.ltb_spec D (2 * (n2 mod D)));
      destruct (Z.eqb_spec (2 * (n1 mod D)) D);
      destruct (Z.eqb_spec (2 * (n2 mod D)) D);
      destruct (Z.odd (n2 / D)); simpl; lia.
    + destruct (_ || _); destruct (_ || _); lia.
  - pose proof (round_pos_cases n1 den ltac:(lia) Hd) as (C1 & Q1).
    pose proof (round_pos_cases n2 den ltac:(lia) Hd) as (C2 & Q2).
    cbv zeta in *.
    set (s1 := shift (n1 / den)) in *. set (s2 := shift (n2 / den)) in *.
    assert (Hp1 : 0 < 2 ^ s1) by (apply pow2_pos; lia).
    assert (Hp2 : 2 * 2 ^ s1 <= 2 ^ s2).
    { rewrite <- Z.pow_succ_r by lia. apply Z.pow_le_mono_r; lia. }
    pose proof (shift_lower (n2 / den) ltac:(fold s2; lia)) as L. fold s2 in L.
    assert (L2 : 2 ^ 52 <= n2 / (den * 2 ^ s2)).
    { rewrite <- Z.div_div by lia. apply Z.div_le_lower_bound; lia. }
    change (2 ^ 53) with 9007199254740992 in *.
    change (2 ^ 52) with 4503599627370496 in *.
    assert (A : round_pos n1 den <= 9007199254740992 * 2 ^ s1)
      by (destruct C1 as [-> | (-> & _)]; nia).
    assert (B : 4503599627370496 * 2 ^ s2 <= round_pos n2 den)
      by (destruct C2 as [-> | (-> & _)]; nia).
    nia.
Qed.

Lemma round_pos_zero (den : Z) : 0 < den -> round_pos 0 den = 0.
Proof.
  intros Hd. pose proof (round_pos_cases 0 den ltac:(lia) Hd) as (C & _).
  cbv zeta in C. rewrite Zmod_0_l, !Zdiv_0_l in C.
  assert (0 < 2 ^ shift 0) by (apply pow2_pos, shift_nonneg).
  destruct C as [-> | (_ & C)]; nia.
Qed.

(** A ratio of at most [k] seconds rounds to a finite float of at most
    [k] seconds. *)
Lemma round_below (n den k : Z) :
  0 <= n <= k * U * den -> 0 < den -> 0 <= k < 2 ^ 53 ->
  round n den = Fin (round_pos n den) /\ 0 <= round_pos n den <= k * U.
Proof.
  intros Hn Hd Hk. pose proof U_pos as HU.
  pose proof (round_pos_mono n (k * U * den) den Hn Hd) as M.
  rewrite round_pos_cancel in M by nia.
  rewrite round_pos_small in M by assumption.
  pose proof (round_pos_nonneg n den ltac:(lia) Hd) as N.
  pose proof (small_below_HUGE k Hk) as B.
  split; [|lia].
  unfold round. rewrite Z.abs_eq by lia.
  replace (HUGE <=? round_pos n den) with false by (symmetry; apply Z.leb_gt; lia).
  f_equal. destruct (Z.eq_dec n 0) as [->|NZ].
  - rewrite round_pos_zero by assumption. reflexivity.
  - rewrite Z.sgn_pos by lia. lia.
Qed.

Lemma units_div_mod (x c : Z) : 0 < c -> x mod (c * U) / U = (x / U) mod c.
Proof.
  intros Hc. pose proof U_pos as HU.
  rewrite (Z.mul_comm c U). rewrite Z.rem_mul_r by lia.
  replace (x mod U + U * ((x / U) mod c)) with ((x / U) mod c * U + x mod U) by lia.
  rewrite Z.div_add_l by lia.
  rewrite (Z.div_small (x mod U) U) by (apply Z.mod_pos_bound; lia). lia.
Qed.

Lemma decompose_value (v : Z) :
  0 < v <= 2 ^ 45 * U -> fits53 v ->
  decompose (NFloat (Fin v)) =
  Ok (v / U / 3600, (v / U) mod 3600 / 60, (v / U) mod 60,
      round_pos (v mod U * (1000 * U)) U / U) /\
  0 <= round_pos (v mod U * (1000 * U)) U / U < 1000.
Proof.
  intros Hv Hf. pose proof U_pos as HU.
  change (2 ^ 45) with 35184372088832 in Hv.
  set (w := v / U).
  assert (Hw : 0 <= w <= 35184372088832).
  { unfold w. split; [apply Z.div_pos; lia|].
    apply Z.div_le_upper_bound; lia. }
  assert (D1 : v / (3600 * U) = w / 3600).
  { unfold w. rewrite (Z.mul_comm 3600 U). symmetry. apply Z.div_div; lia. }
  assert (D2 : v mod (3600 * U) / (60 * U) = w mod 3600 / 60).
  { rewrite (Z.mul_comm 60 U), <- Z.div_div by lia.
    rewrite units_div_mod by lia. reflexivity. }
  assert (D3 : v mod (60 * U) / U = w mod 60) by (apply units_div_mod; lia).
  pose proof (Z.mul_div_le w 3600 ltac:(lia)) as Q1.
  pose proof (Z.div_pos w 3600 ltac:(lia) ltac:(lia)) as Q1'.
  pose proof (Z.mod_pos_bound w 3600 ltac:(lia)) as R1.
  pose proof (Z.div_pos (w mod 3600) 60 ltac:(lia) ltac:(lia)) as Q2.
  pose proof (Z.div_lt_upper_bound (w mod 3600) 60 60 ltac:(lia) ltac:(lia)) as Q2'.
  pose proof (Z.mod_pos_bound v U HU) as R3.
  destruct (fmul_frac_1000 v ltac:(lia) Hf) as (n & F & Hn).
  destruct (round_below (v mod U * (1000 * U)) U 1000) as (F' & _);
    [nia | lia | rewrite two53; lia |].
  assert (E : round_pos (v mod U * (1000 * U)) U = n).
  { unfold fmul in F. rewrite F' in F. congruence. }
  split.
  2:{ rewrite E. split; [apply Z.div_pos; lia|apply Z.div_lt_upper_bound; lia]. }
  unfold decompose, floordiv, modulo, mul, to_float.
  rewrite !of_int_small by (rewrite two53; lia).
  cbn [bind].
  rewrite !py_mod_nonneg by lia.
  cbn [bind].
  rewrite py_floordiv_small by (rewrite ?D1, ?two53; lia).
  rewrite D1. cbn [bind PyNum.int]. rewrite to_int_units. cbn [bind].
  rewrite py_floordiv_small
    by (rewrite ?D2, ?two53; first [lia | apply Z.mod_pos_bound; lia]).
  rewrite D2. cbn [bind PyNum.int]. rewrite to_int_units. cbn [bind].
  assert (S1 : to_int (Fin (v mod (60 * U))) = Ok (w mod 60)).
  { unfold to_int. rewrite Z.quot_div_nonneg; [rewrite D3; reflexivity| |lia].
    apply Z.mod_pos_bound. lia. }
  rewrite S1. cbn [bind].
  rewrite Z.mul_1_l. unfold fmul. rewrite F'.
  unfold to_int. rewrite Z.quot_div_nonneg by lia.
  reflexivity.
Qed.

Lemma millis_fields (w ms : Z) :
  millis (w / 3600, w mod 3600 / 60, w mod 60, ms) = 1000 * w + ms.
Proof. unfold millis. Z.to_euclidean_division_equations. lia. Qed.

Lemma fits53_zero : fits53 0.
Proof. exists 0, 0. lia. Qed.

(** The seconds of a timestamp as a float (lines 498-499). *)
Lemma total_seconds_value (h m s ms : Z) :
  timestamp (h, m, s, ms) -> millis (h, m, s, ms) < 2 ^ 50 ->
  total_seconds (h, m, s, ms) =
  Ok (NFloat (Fin (round_pos ((h * 3600 + m * 60 + s) * U + round_pos (ms * U) 1000) 1))) /\
  0 <= round_pos (ms * U) 1000 <= U /\
  0 <= round_pos ((h * 3600 + m * 60 + s) * U + round_pos (ms * U) 1000) 1
    <= (h * 3600 + m * 60 + s + 1) * U.
Proof.
  intros (Hh & Hm & Hs & Hms) Hb. unfold millis in Hb.
  change (2 ^ 50) with 1125899906842624 in Hb. pose proof U_pos as HU.
  destruct (round_below (ms * U) 1000 1) as (F1 & B1);
    [nia | lia | rewrite two53; lia |].
  destruct (round_below ((h * 3600 + m * 60 + s) * U + round_pos (ms * U) 1000) 1
              (h * 3600 + m * 60 + s + 1)) as (F2 & B2);
    [nia | lia | rewrite two53; lia |].
  split; [|split; [lia|assumption]].
  unfold total_seconds, truediv, int_true_div.
  change (1000 =? 0) with false. unfold of_ratio. change (0 <? 1000) with true.
  cbv iota. rewrite F1. cbn [bind]. unfold add, to_float.
  rewrite of_int_small by (rewrite two53; lia).
  cbn [bind]. unfold fadd. rewrite F2. reflexivity.
Qed.

Lemma total_seconds_mono (h1 m1 s1 ms1 h2 m2 s2 ms2 : Z) :
  timestamp (h1, m1, s1, ms1) -> timestamp (h2, m2, s2, ms2) ->
  millis (h1, m1, s1, ms1) <= millis (h2, m2, s2, ms2) ->
  millis (h2, m2, s2, ms2) < 2 ^ 50 ->
  round_pos ((h1 * 3600 + m1 * 60 + s1) * U + round_pos (ms1 * U) 1000) 1 <=
  round_pos ((h2 * 3600 + m2 * 60 + s2) * U + round_pos (ms2 * U) 1000) 1.
Proof.
  intros T1 T2 L B.
  destruct (total_seconds_value h1 m1 s1 ms1 T1 ltac:(lia)) as (_ & R1 & _).
  destruct (total_seconds_value h2 m2 s2 ms2 T2 B) as (_ & R2 & _).
  destruct T1 as (Hh1 & Hm1 & Hs1 & Hms1). destruct T2 as (Hh2 & Hm2 & Hs2 & Hms2).
  unfold millis in L. pose proof U_pos as HU.
  apply round_pos_mono; [|lia].
  split; [nia|].
  destruct (Z.eq_dec (h1 * 3600 + m1 * 60 + s1) (h2 * 3600 + m2 * 60 + s2)) as [E|N].
  - rewrite E. apply Z.add_le_mono_l. apply round_pos_mono; [nia|lia].
  - assert (h1 * 3600 + m1 * 60 + s1 + 1 <= h2 * 3600 + m2 * 60 + s2) by lia.
    nia.
Qed.

(** Line 500 on finite operands: the sum is rounded once and clamped. *)
Lemma shifted_total_value (t : Z * Z * Z * Z) (x o : Z) :
  total_seconds t = Ok (NFloat (Fin x)) ->
  0 <= x <= 2 ^ 44 * U -> Z.abs o <= 2 ^ 40 * U ->
  exists c,
    shifted_total t (NFloat (Fin o)) =
      Ok (if 0 <? c then NFloat (Fin c) else NInt 0) /\
    c = (if 0 <? x + o then round_pos (x + o) 1 else 0) /\
    0 <= c <= 2 ^ 45 * U /\ fits53 c.
Proof.
  intros E Hx Ho. pose proof U_pos as HU.
  change (2 ^ 44) with 17592186044416 in Hx.
  change (2 ^ 40) with 1099511627776 in Ho.
  unfold shifted_total. rewrite E. cbn [bind add to_float]. unfold fadd.
  destruct (Z.ltb_spec 0 (x + o)) as [Pos|Neg].
  - destruct (round_below (x + o) 1 (2 ^ 45)) as (F & B);
      [change (2 ^ 45) with 35184372088832; lia | lia | rewrite two53; lia |].
    exists (round_pos (x + o) 1). split; [|split; [reflexivity|split]].
    + rewrite F. unfold PyNum.max, gt. rewrite Z.mul_0_l. unfold flt.
      destruct (0 <? round_pos (x + o) 1); reflexivity.
    + assumption.
    + apply round_pos_fits; lia.
  - exists 0. split; [|split; [reflexivity|split; [|apply fits53_zero]]].
    + pose proof (round_nonpos (x + o) Neg) as N.
      unfold PyNum.max, gt. rewrite Z.mul_0_l.
      destruct (round (x + o) 1); simpl in *.
      * replace (0 <? n) with false by (symmetry; apply Z.ltb_ge; lia).
        reflexivity.
      * subst. reflexivity.
      * reflexivity.
    + change (2 ^ 45) with 35184372088832. lia.
Qed.

(** Lines 502-505 keep the order of clamped totals. *)
Lemma decompose_mono (c1 c2 : Z) :
  0 <= c1 <= c2 -> c2 <= 2 ^ 45 * U -> fits53 c1 -> fits53 c2 ->
  exists t1 t2,
    decompose (if 0 <? c1 then NFloat (Fin c1) else NInt 0) = Ok t1 /\
    decompose (if 0 <? c2 then NFloat (Fin c2) else NInt 0) = Ok t2 /\
    timestamp t1 /\ timestamp t2 /\ millis t1 <= millis t2.
Proof.
  intros Hc Hb F1 F2. pose proof U_pos as HU.
  assert (Z0 : timestamp (0, 0, 0, 0)) by (unfold timestamp; lia).
  assert (V : forall v, 0 < v <= 2 ^ 45 * U -> fits53 v ->
            exists ms, decompose (NFloat (Fin v)) =
                         Ok (v / U / 3600, (v / U) mod 3600 / 60, (v / U) mod 60, ms) /\
                       ms = round_pos (v mod U * (1000 * U)) U / U /\
                       0 <= ms < 1000 /\
                       timestamp (v / U / 3600, (v / U) mod 3600 / 60, (v / U) mod 60, ms)).
  { intros v Hv Hf. destruct (decompose_value v Hv Hf) as (D & M).
    eexists. split; [exact D|]. split; [reflexivity|]. split; [exact M|].
    apply decompose_float with v; [lia|assumption|exact D]. }
  destruct (Z.ltb_spec 0 c1) as [P1|N1]; destruct (Z.ltb_spec 0 c2) as [P2|N2];
    try lia.
  - destruct (V c1 ltac:(lia) F1) as (ms1 & D1 & E1 & M1 & T1).
    destruct (V c2 ltac:(lia) F2) as (ms2 & D2 & E2 & M2 & T2).
    eexists. eexists. split; [exact D1|]. split; [exact D2|].
    split; [exact T1|]. split; [exact T2|].
    rewrite !millis_fields.
    assert (W : c1 / U <= c2 / U) by (apply Z.div_le_mono; lia).
    destruct (Z.eq_dec (c1 / U) (c2 / U)) as [EQ|NE]; [|lia].
    rewrite EQ. apply Z.add_le_mono_l. subst ms1 ms2.
    apply Z.div_le_mono; [lia|].
    pose proof (Z.div_mod c1 U ltac:(lia)) as A1.
    pose proof (Z.div_mod c2 U ltac:(lia)) as A2.
    pose proof (Z.mod_pos_bound c1 U HU) as R1.
    pose proof (Z.mod_pos_bound c2 U HU) as R2.
    rewrite EQ in A1.
    apply round_pos_mono; [|lia]. split; [nia|].
    apply Z.mul_le_mono_nonneg_r; [lia|lia].
  - destruct (V c2 ltac:(lia) F2) as (ms2 & D2 & E2 & M2 & T2).
    exists (0, 0, 0, 0). eexists.
    split; [apply decompose_zero|]. split; [exact D2|].
    split; [exact Z0|]. split; [exact T2|].
    rewrite millis_fields.
    assert (0 <= c2 / U) by (apply Z.div_pos; lia).
    change (millis (0, 0, 0, 0)) with 0. lia.
  - exists (0, 0, 0, 0), (0, 0, 0, 0).
    split; [apply decompose_zero|]. split; [apply decompose_zero|].
    split; [exact Z0|]. split; [exact Z0|]. lia.
Qed.

(** Two timestamps under one offset. *)
Lemma shifted_pair (sa sb : string) (a b : Z * Z * Z * Z) (o : Z) :
  decode sa = Ok a -> decode sb = Ok b ->
  timestamp a -> timestamp b ->
  millis a <= millis b -> millis b < 2 ^ 50 ->
  Z.abs o <= 2 ^ 40 * U ->
  exists a' b',
    adjust_time sa (NFloat (Fin o)) = format_time a' /\
    adjust_time sb (NFloat (Fin o)) = format_time b' /\
    timestamp a' /\ timestamp b' /\ millis a' <= millis b'.
Proof.
  intros Da Db Ta Tb L B Ho. pose proof U_pos as HU.
  destruct a as [[[h1 m1] s1] ms1]. destruct b as [[[h2 m2] s2] ms2].
  pose proof (total_seconds_mono _ _ _ _ _ _ _ _ Ta Tb L B) as M.
  destruct (total_seconds_value h1 m1 s1 ms1 Ta ltac:(lia)) as (E1 & _ & X1).
  destruct (total_seconds_value h2 m2 s2 ms2 Tb B) as (E2 & _ & X2).
  set (x1 := round_pos ((h1 * 3600 + m1 * 60 + s1) * U + round_pos (ms1 * U) 1000) 1) in *.
  set (x2 := round_pos ((h2 * 3600 + m2 * 60 + s2) * U + round_pos (ms2 * U) 1000) 1) in *.
  assert (K : x2 <= 2 ^ 44 * U).
  { unfold millis, timestamp in *. change (2 ^ 50) with 1125899906842624 in B.
    change (2 ^ 44) with 17592186044416. nia. }
  destruct (shifted_total_value _ x1 o E1 ltac:(lia) Ho) as (c1 & S1 & C1 & R1 & F1).
  destruct (shifted_total_value _ x2 o E2 ltac:(lia) Ho) as (c2 & S2 & C2 & R2 & F2).
  assert (Lc : c1 <= c2).
  { subst c1 c2.
    destruct (Z.ltb_spec 0 (x1 + o)); destruct (Z.ltb_spec 0 (x2 + o)); try lia.
    apply round_pos_mono; lia. }
  destruct (decompose_mono c1 c2 ltac:(lia) ltac:(lia) F1 F2)
    as (t1 & t2 & D1 & D2 & T1 & T2 & Lm).
  exists t1, t2.
  unfold adjust_time, adjust_time_try.
  rewrite Da, Db. cbn [bind]. rewrite S1, S2. cbn [bind]. rewrite D1, D2.
  cbn [bind]. auto.
Qed.



End OrderFacts.

(** ** Cue lines *)

Module CueFacts.

Import Float PyStr PyInt PyNum.
Import Vocabulary Terms.
Import FloatFacts ArithFacts StrFacts IntFacts TimeFacts ShiftFacts CodecFacts OrderFacts.
Local Open Scope string_scope.
Local Open Scope Z_scope.

Lemma space_not_digit (c : ascii) : is_space c = true -> is_digit c = false.
Proof.
  unfold is_space, is_digit. intros H.
  destruct (48 <=? code c) eqn:A; [|reflexivity].
  destruct (code c <=? 57) eqn:B; [|reflexivity].
  apply Z.leb_le in A.
  apply orb_prop in H. destruct H as [H|H]; apply andb_prop in H;
    destruct H as (_ & H); apply Z.leb_le in H; lia.
Qed.

Lemma occurs_single (a c : ascii) :
  is_space c = true -> is_space a = false -> occurs c (single a) = false.
Proof.
  intros Hc Ha. simpl. rewrite orb_false_r.
  destruct (Ascii.eqb_spec a c) as [->|]; [congruence|reflexivity].
Qed.

Lemma format_time_spaceless (t : Z * Z * Z * Z) :
  timestamp t -> spaceless (format_time t).
Proof.
  destruct t as [[[h m] s] ms]. intros (Hh & Hm & Hs & Hms) c Hc.
  pose proof (space_not_digit c Hc) as Hd.
  unfold format_time.
  change ":" with (single colon). change "," with (single comma).
  rewrite !occurs_app, !format_d_occurs, !occurs_single by (auto; lia).
  reflexivity.
Qed.

Lemma format_time_nonempty (t : Z * Z * Z * Z) : format_time t <> "".
Proof.
  destruct t as [[[h m] s] ms]. unfold format_time. intros E.
  apply (f_equal (occurs colon)) in E.
  change ":" with (single colon) in E.
  rewrite !occurs_app in E. simpl in E.
  rewrite !orb_true_r in E. discriminate.
Qed.

Lemma spaceless_cons (c : ascii) (s : string) :
  spaceless (String c s) -> is_space c = false /\ spaceless s.
Proof.
  intros H. split.
  - destruct (is_space c) eqn:E; [|reflexivity].
    specialize (H c E). simpl in H. rewrite Ascii.eqb_refl in H. discriminate.
  - intros a Ha. specialize (H a Ha). simpl in H.
    apply orb_false_elim in H. tauto.
Qed.

Lemma space_is_space : is_space " "%char = true.
Proof. reflexivity. Qed.

(** A text without white space holds no arrow separator. *)
Lemma split_arrow_none (y : string) :
  spaceless y -> split_from " --> " 0 y = [y].
Proof.
  induction y as [|c y IH]; intros H; [reflexivity|].
  apply spaceless_cons in H. destruct H as (Hc & Hy).
  cbn [split_from]. rewrite (IH Hy).
  replace (prefix " --> " (String c y)) with false; [reflexivity|].
  cbn [prefix]. destruct (ascii_dec " " c) as [<-|]; [discriminate Hc|reflexivity].
Qed.

Lemma split_arrow (x y : string) :
  spaceless x -> spaceless y ->
  split " --> " (x ++ " --> " ++ y) = [x; y].
Proof.
  unfold split. intros Hx Hy. induction x as [|c x IH].
  - cbn [append split_from prefix]. simpl. rewrite split_arrow_none by assumption.
    destruct y; reflexivity.
  - apply spaceless_cons in Hx. destruct Hx as (Hc & Hx).
    change (String c x ++ " --> " ++ y) with (String c (x ++ " --> " ++ y)).
    cbn [split_from]. rewrite (IH Hx).
    replace (prefix " --> " (String c (x ++ " --> " ++ y))) with false; [reflexivity|].
    cbn [prefix]. destruct (ascii_dec " " c) as [<-|]; [discriminate Hc|reflexivity].
Qed.

Lemma contains_arrow (x y : string) : contains "-->" (x ++ " --> " ++ y) = true.
Proof.
  induction x as [|c x IH].
  - destruct y; reflexivity.
  - change (String c x ++ " --> " ++ y) with (String c (x ++ " --> " ++ y)).
    cbn [contains]. rewrite IH. apply orb_true_r.
Qed.

Lemma lstrip_spaceless (s : string) : spaceless s -> lstrip s = s.
Proof.
  destruct s as [|c s]; [reflexivity|]. intros H.
  apply spaceless_cons in H. destruct H as (Hc & _).
  simpl. rewrite Hc. reflexivity.
Qed.

Lemma rstrip_spaceless (s : string) : spaceless s -> rstrip s = s.
Proof.
  induction s as [|c s IH]; [reflexivity|]. intros H.
  apply spaceless_cons in H. destruct H as (Hc & Hs).
  cbn [rstrip]. rewrite (IH Hs). destruct s; [rewrite Hc|]; reflexivity.
Qed.

Lemma rstrip_app (s y : string) : rstrip y <> "" -> rstrip (s ++ y) = s ++ rstrip y.
Proof.
  intros H. induction s as [|c s IH]; [reflexivity|].
  change (String c s ++ y) with (String c (s ++ y)).
  cbn [rstrip]. rewrite IH.
  destruct (s ++ rstrip y) eqn:E.
  - destruct s; [simpl in E; congruence|discriminate].
  - simpl. rewrite E. reflexivity.
Qed.

Lemma strip_cue (x y : string) :
  spaceless x -> spaceless y -> x <> "" -> y <> "" ->
  strip (x ++ " --> " ++ y) = x ++ " --> " ++ y.
Proof.
  intros Hx Hy Nx Ny. unfold strip.
  destruct x as [|c x]; [congruence|].
  destruct (spaceless_cons c x Hx) as (Hc & _).
  assert (L : lstrip (String c x ++ " --> " ++ y) = String c x ++ " --> " ++ y).
  { change (String c x ++ " --> " ++ y) with (String c (x ++ " --> " ++ y)).
    cbn [lstrip]. rewrite Hc. reflexivity. }
  rewrite L. rewrite <- (app_assoc_str (String c x) " --> " y).
  rewrite rstrip_app; rewrite rstrip_spaceless by assumption; auto.
Qed.

(** Lines 476-480 on a cue line of two valid timestamps. *)
Lemma transform_cue (a b : Z * Z * Z * Z) (o : num) :
  timestamp a -> timestamp b ->
  transform_line o (format_time a ++ " --> " ++ format_time b) =
  adjust_time (format_time a) o ++ " --> " ++ adjust_time (format_time b) o.
Proof.
  intros Ta Tb. unfold transform_line.
  rewrite contains_arrow.
  rewrite strip_cue, split_arrow
    by (try apply format_time_spaceless; try apply format_time_nonempty; assumption).
  reflexivity.
Qed.

Lemma timestamp_of_eighths (n : Z) : 0 <= n -> timestamp (of_eighths n).
Proof.
  intros H. pose proof (of_eighths_fields n H) as F.
  unfold of_eighths in *. unfold timestamp. lia.
Qed.

(** X11: a cue line made of two valid timestamps in order, as line 507
    writes them, is recognised by lines 476-477 and rewritten to a cue
    line of the same make: two valid timestamps, still in order.  The
    transformed file can therefore be shifted again. *)
Theorem cue_stays_ordered (a b : Z * Z * Z * Z) (o : Z) :
  timestamp a -> timestamp b ->
  millis a <= millis b -> millis b < 2 ^ 50 ->
  Z.abs o <= 2 ^ 40 * U ->
  exists a' b',
    transform_line (NFloat (Fin o)) (format_time a ++ " --> " ++ format_time b) =
      format_time a' ++ " --> " ++ format_time b' /\
    timestamp a' /\ timestamp b' /\ millis a' <= millis b'.
Proof.
  intros Ta Tb L B Ho.
  assert (Da : decode (format_time a) = Ok a).
  { destruct a as [[[h m] s] ms]. destruct Ta as (? & ? & ? & ?).
    apply decode_format_time; lia. }
  assert (Db : decode (format_time b) = Ok b).
  { destruct b as [[[h m] s] ms]. destruct Tb as (? & ? & ? & ?).
    apply decode_format_time; lia. }
  destruct (shifted_pair _ _ a b o Da Db Ta Tb L B Ho)
    as (a' & b' & Ea & Eb & Ta' & Tb' & L').
  exists a', b'. split; [|auto].
  rewrite transform_cue by assumption.
  rewrite Ea, Eb. reflexivity.
Qed.

Lemma cue_stays_ordered_witness :
  exists a' b',
    transform_line (NFloat (Fin (2 * U)))
      (format_time (0, 0, 1, 0) ++ " --> " ++ format_time (0, 0, 2, 500)) =
      format_time a' ++ " --> " ++ format_time b' /\
    timestamp a' /\ timestamp b' /\ millis a' <= millis b'.
Proof.
  apply cue_stays_ordered.
  - unfold timestamp. lia.
  - unfold timestamp. lia.
  - unfold millis. lia.
  - unfold millis. change (2 ^ 50) with 1125899906842624. lia.
  - pose proof U_pos. change (2 ^ 40) with 1099511627776. lia.
Defined.

(** X12: a shift by eighths of a second is undone by the opposite shift.
    A cue line whose two times are whole eighths of a second, moved by
    [e] eighths without reaching zero and then by [-e] eighths, is the
    line it was. *)
Theorem eighth_shifts_undo (n k e : Z) :
  0 <= n < 2 ^ 40 -> 0 <= k < 2 ^ 40 ->
  0 <= n + e < 2 ^ 40 -> 0 <= k + e < 2 ^ 40 ->
  let cue := format_time (of_eighths n) ++ " --> " ++ format_time (of_eighths k) in
  transform_line (NFloat (Fin (- e * E8)))
    (transform_line (NFloat (Fin (e * E8))) cue) = cue.
Proof.
  intros Hn Hk Hne Hke cue. subst cue.
  change (2 ^ 40) with 1099511627776 in *.
  rewrite transform_cue by (apply timestamp_of_eighths; lia).
  rewrite !shift_of_eighths
    by (change (2 ^ 40) with 1099511627776;
        change (2 ^ 50) with 1125899906842624; lia).
  rewrite !Z.max_r by lia.
  rewrite transform_cue by (apply timestamp_of_eighths; lia).
  rewrite !shift_of_eighths
    by (change (2 ^ 40) with 1099511627776;
        change (2 ^ 50) with 1125899906842624; lia).
  rewrite !Z.max_r by lia.
  replace (n + e + - e) with n by lia.
  replace (k + e + - e) with k by lia.
  reflexivity.
Qed.

Lemma eighth_shifts_undo_witness :
  transform_line (NFloat (Fin (- 14 * E8)))
    (transform_line (NFloat (Fin (14 * E8)))
       (format_time (of_eighths 8) ++ " --> " ++ format_time (of_eighths 20))) =
  format_time (of_eighths 8) ++ " --> " ++ format_time (of_eighths 20).
Proof.
  apply (eighth_shifts_undo 8 20 14);
    change (2 ^ 40) with 1099511627776; lia.
Defined.

End CueFacts.

(** ** Setup checks *)

Module SetupFacts.

Import Setup Readiness.
Local Open Scope string_scope.
Local Open Scope Z_scope.

(** What the loop over the models adds to the log, and how it ends. *)
Lemma preload_loop_spec (e : env) (models : list string) (st : state) :
  existsb is_pip (log (fst (preload_loop e models st))) = existsb is_pip (log st) /\
  whisper_path (fst (preload_loop e models st)) = whisper_path st /\
  processing (fst (preload_loop e models st)) = processing st /\
  (snd (preload_loop e models st) = Returns tt <->
   forallb (fun model => negb (uncaught (model_help e model))) models = true) /\
  (forall x, snd (preload_loop e models st) = Raises x ->
     exists model, In model models /\
       ((x = FileNotFoundError /\ model_help e model = Some NotFound) \/
        (x = PermissionError /\ model_help e model = Some Denied))).
Proof.
  revert st. induction models as [|model rest IH]; intros st.
  - simpl. repeat split; auto; intros; discriminate.
  - cbn [preload_loop forallb].
    destruct (model_help e model) as [[[|p|p]| |]|] eqn:M;
      cbn [run_checked_timeout run_checked uncaught negb andb].
    all: try match goal with
         | |- context [preload_loop _ _ ?s] =>
             destruct (IH s) as (L & W & G & R & X);
             split; [rewrite L; cbn [log emit]; rewrite !existsb_app; cbn;
                     rewrite !orb_false_r; reflexivity|];
             split; [rewrite W; reflexivity|];
             split; [rewrite G; reflexivity|];
             split; [exact R|];
             intros x Hx; destruct (X x Hx) as (m' & I & C); exists m';
             split; [right; exact I|exact C]
         end.
    + cbn [fst snd log emit whisper_path processing].
      split; [rewrite existsb_app; cbn; rewrite orb_false_r; reflexivity|].
      split; [reflexivity|]. split; [reflexivity|].
      split; [split; discriminate|].
      intros x [= <-]. exists model. split; [left; reflexivity|]. left. auto.
    + cbn [fst snd log emit whisper_path processing].
      split; [rewrite existsb_app; cbn; rewrite orb_false_r; reflexivity|].
      split; [reflexivity|]. split; [reflexivity|].
      split; [split; discriminate|].
      intros x [= <-]. exists model. split; [left; reflexivity|]. right. auto.
Qed.

#[local] Ltac log_pip :=
  cbn [fst snd log emit set_whisper_path whisper_path processing];
  rewrite ?existsb_app; cbn [existsb is_pip String.eqb Ascii.eqb Bool.eqb];
  rewrite ?orb_false_r, ?orb_true_r; try reflexivity.

#[local] Ltac facts :=
  repeat match goal with
         | H : ffmpeg_version _ = _ |- _ => rewrite H
         | H : whisper_help _ = _ |- _ => rewrite H
         | H : pip_install _ = _ |- _ => rewrite H
         end.

(** One setup check, in full. *)
Lemma check_setup_spec (e : env) (st : state) :
  existsb is_pip (log (fst (check_setup e st))) =
    existsb is_pip (log st) || (works (ffmpeg_version e) && soft (whisper_help e)) /\
  processing (fst (check_setup e st)) = processing st /\
  (snd (check_setup e st) = Returns true <-> ready e = true) /\
  (snd (check_setup e st) = Returns true ->
   whisper_path (fst (check_setup e st)) = Some "whisper") /\
  (forall x, snd (check_setup e st) = Raises x -> raised e x).
Proof.
  unfold check_setup, ready, whisper_available, install_whisper, preload_models.
  destruct (ffmpeg_version e) as [[|p|p]| |] eqn:F;
    cbn [run_checked works soft andb orb];
    try (split; [log_pip|]; split; [reflexivity|];
         split; [split; discriminate|]; split; [discriminate|];
         intros x [= <-]; cbn; facts; cbn; auto; fail).
  destruct (whisper_help e) as [[|p|p]| |] eqn:W;
    cbn [run_checked works soft andb orb];
    try (destruct (pip_install e) as [[|p'|p']| |] eqn:P;
         cbn [run_checked works soft andb orb]);
    try (split; [log_pip|]; split; [reflexivity|];
         split; [split; discriminate|]; split; [discriminate|];
         intros x [= <-]; cbn; facts; cbn; auto 6; fail).
  all: match goal with
       | |- context [preload_loop ?e0 models_to_check ?s] =>
           destruct (preload_loop_spec e0 models_to_check s) as (L & WP & G & R & X);
           destruct (preload_loop e0 models_to_check s) as [st' [[]|x']] eqn:PL;
           cbn [fst snd] in *
       end.
  all: split; [rewrite L; log_pip|].
  all: split; [rewrite G; reflexivity|].
  all: split; [first [split; [intros _; apply R; reflexivity|reflexivity]
                     | split; [discriminate|intros H; apply R in H; discriminate]]|].
  all: split; [first [intros _; rewrite WP; reflexivity | discriminate]|].
  all: intros x Hx; try discriminate Hx.
  all: injection Hx as <-;
       destruct (X x' eq_refl) as (m & I & [(-> & C)|(-> & C)]);
       unfold raised; facts;
       [ split; [reflexivity|right; exists m; split; assumption]
       | right; right; right; exists m; split; assumption ].
Qed.

(** X13: the setup check returns [True] exactly in the environments in
    which [ffmpeg -version] exits with 0, [whisper --help] exits with 0 or
    fails softly while [pip install] exits with 0, and no model check
    meets a missing or refused [whisper].  It then has set
    [whisper_path], and the check that [main] makes before it builds the
    window succeeds in the same environment. *)
Theorem setup_succeeds_iff (e : env) (st : state) :
  (snd (check_setup e st) = Returns true <-> ready e = true) /\
  (snd (check_setup e st) = Returns true ->
   whisper_path (fst (check_setup e st)) = Some "whisper") /\
  (snd (check_setup e st) = Returns true -> check_dependencies e = Returns true).
Proof.
  destruct (check_setup_spec e st) as (_ & _ & R & W & _).
  split; [exact R|]. split; [exact W|].
  intros H. apply R in H. unfold ready, whisper_available in H.
  apply andb_prop in H. destruct H as (H & _).
  apply andb_prop in H. destruct H as (F & A).
  unfold check_dependencies.
  destruct (ffmpeg_version e) as [[|p|p]| |]; try discriminate F.
  destruct (whisper_help e) as [[|p|p]| |]; try discriminate A; reflexivity.
Qed.

Lemma setup_succeeds_iff_witness :
  snd (check_setup all_installed idle) = Returns true /\
  whisper_path (fst (check_setup all_installed idle)) = Some "whisper" /\
  check_dependencies all_installed = Returns true.
Proof.
  destruct (setup_succeeds_iff all_installed idle) as (R & W & D).
  assert (H : snd (check_setup all_installed idle) = Returns true)
    by (apply R; reflexivity).
  split; [exact H|]. split; [exact (W H)|exact (D H)].
Defined.

(** X14: the worker thread is started exactly for a non-empty folder
    text in an environment in which the setup check succeeds; only then
    is the [processing] flag raised, and for an empty folder text nothing
    is run at all. *)
Theorem thread_starts_iff (folder : string) (e : env) (st : state) :
  (snd (start_processing folder e st) = Returns true <->
   folder <> "" /\ ready e = true) /\
  processing (fst (start_processing folder e st)) =
    processing st || (negb (String.eqb folder "") && ready e) /\
  (folder = "" ->
   log (fst (start_processing folder e st)) = (log st ++ [ShowError "Error"])%list).
Proof.
  destruct (check_setup_spec e st) as (_ & P & R & _ & _).
  unfold start_processing.
  destruct folder as [|c folder'].
  - cbn. rewrite orb_false_r. split; [|split; reflexivity].
    split; [discriminate|intros (H & _); contradiction].
  - change (String.eqb (String c folder') "") with false. cbn [negb andb].
    destruct (check_setup e st) as [st' [[|]|x]] eqn:C; cbn [fst snd] in *.
    + assert (H : ready e = true) by (apply R; reflexivity).
      rewrite H, orb_true_r.
      split; [|split; [reflexivity|discriminate]].
      split; [intros _; split; [discriminate|reflexivity]|reflexivity].
    + assert (H : ready e = false).
      { destruct (ready e); [|reflexivity].
        destruct R as (_ & R). discriminate (R eq_refl). }
      rewrite H, orb_false_r.
      split; [|split; [exact P|discriminate]].
      split; [discriminate|intros (_ & A); discriminate].
    + assert (H : ready e = false).
      { destruct (ready e); [|reflexivity].
        destruct R as (_ & R). discriminate (R eq_refl). }
      rewrite H, orb_false_r.
      split; [|split; [exact P|discriminate]].
      split; [discriminate|intros (_ & A); discriminate].
Qed.

Lemma thread_starts_iff_witness :
  log (fst (start_processing "" nothing_but_ffmpeg idle)) = [ShowError "Error"].
Proof.
  destruct (thread_starts_iff "" nothing_but_ffmpeg idle) as (_ & _ & L).
  exact (L eq_refl).
Defined.

(** X15: [pip] is run exactly when [ffmpeg] answers and the check of
    [whisper] fails softly: never when [ffmpeg] is missing, never when
    [whisper] answers. *)
Theorem pip_runs_only_when_needed (e : env) (st : state) :
  existsb is_pip (log (fst (check_setup e st))) =
  existsb is_pip (log st) || (works (ffmpeg_version e) && soft (whisper_help e)).
Proof. apply check_setup_spec. Qed.

(** X16: no [CalledProcessError] and no [TimeoutExpired] leaves the setup
    check, and neither does the [FileNotFoundError] of a missing [ffmpeg]
    or of a missing [whisper] at line 265; what can leave it is the
    [FileNotFoundError] of a missing [pip] or of a [whisper] missing at a
    model check, and errors of the operating system. *)
Theorem setup_raises_only (e : env) (st : state) (x : exc) :
  snd (check_setup e st) = Raises x -> raised e x.
Proof. apply check_setup_spec. Qed.

Lemma setup_raises_only_witness : raised installed_off_path FileNotFoundError.
Proof.
  apply (setup_raises_only installed_off_path idle FileNotFoundError).
  reflexivity.
Defined.

(** X17: where [ffmpeg] answers, [whisper] fails softly and there is no
    [pip], [install_whisper] does not return [False]: the
    [FileNotFoundError] leaves the setup check and [start_processing];
    no message box is shown, [whisper_path] and the [processing] flag
    stay as they were. *)
Theorem missing_pip_escapes (folder : string) (e : env) (st : state) :
  works (ffmpeg_version e) = true ->
  soft (whisper_help e) = true ->
  pip_install e = NotFound ->
  folder <> "" ->
  let r := start_processing folder e st in
  snd (check_setup e st) = Raises FileNotFoundError /\
  snd r = Raises FileNotFoundError /\
  whisper_path (fst r) = whisper_path st /\
  processing (fst r) = processing st /\
  existsb is_error_box (log (fst r)) = existsb is_error_box (log st).
Proof.
  intros F W P N r. subst r.
  unfold start_processing. destruct folder as [|c folder']; [contradiction|].
  unfold check_setup, install_whisper.
  destruct (ffmpeg_version e) as [[|p|p]| |]; try discriminate F.
  rewrite P.
  destruct (whisper_help e) as [[|p|p]| |]; try discriminate W;
    cbn [run_checked fst snd whisper_path processing emit log];
    rewrite ?existsb_app; cbn [existsb is_error_box]; rewrite ?orb_false_r; auto.
Qed.

Lemma missing_pip_escapes_witness :
  snd (check_setup nothing_but_ffmpeg idle) = Raises FileNotFoundError /\
  snd (start_processing "/videos" nothing_but_ffmpeg idle) = Raises FileNotFoundError.
Proof.
  destruct (missing_pip_escapes "/videos" nothing_but_ffmpeg idle
              eq_refl eq_refl eq_refl ltac:(discriminate))
    as (A & B & _).
  split; [exact A|exact B].
Defined.

End SetupFacts.

(** ** Elapsed time and ETA *)

Module DisplayFacts.

Import Float PyStr PyInt PyNum Display.
Import Vocabulary Terms.
Import FloatFacts ArithFacts StrFacts IntFacts TimeFacts ShiftFacts CodecFacts OrderFacts.
Local Open Scope string_scope.
Local Open Scope Z_scope.

(** The clock of a non-negative time below [2^53] seconds. *)
Lemma minutes_seconds_value (x : Z) :
  0 <= x < 2 ^ 53 * U ->
  minutes_seconds (NFloat (Fin x)) =
  Ok (format_d 0 (x / U / 60) ++ ":" ++ format_d 2 ((x / U) mod 60)).
Proof.
  intros Hx. pose proof U_pos as HU. rewrite two53 in Hx.
  set (w := x / U).
  assert (Hw : 0 <= w < 9007199254740992).
  { unfold w. split; [apply Z.div_pos; lia|apply Z.div_lt_upper_bound; lia]. }
  assert (D1 : x / (60 * U) = w / 60).
  { unfold w. rewrite (Z.mul_comm 60 U). symmetry. apply Z.div_div; lia. }
  pose proof (Z.mul_div_le w 60 ltac:(lia)) as Q1.
  pose proof (Z.div_pos w 60 ltac:(lia) ltac:(lia)) as Q1'.
  unfold minutes_seconds, floordiv, modulo, to_float.
  rewrite !of_int_small by (rewrite two53; lia).
  cbn [bind].
  rewrite py_floordiv_small by (rewrite ?D1, ?two53; lia).
  rewrite D1. cbn [bind PyNum.int]. rewrite to_int_units. cbn [bind].
  rewrite py_mod_nonneg by lia. cbn [bind PyNum.int].
  unfold to_int. rewrite Z.quot_div_nonneg;
    [|apply Z.mod_pos_bound; lia|lia].
  rewrite units_div_mod by lia. reflexivity.
Qed.

(** X18: for a time from 0 up to [2^53] seconds the clock text
    [minutes:seconds] of lines 360 and 366 shows the whole seconds of the
    time: the seconds are between 0 and 59 and sixty times the minutes
    plus the seconds is the time rounded down. *)
Theorem clock_shows_whole_seconds (x : Z) :
  0 <= x < 2 ^ 53 * U ->
  exists m s,
    minutes_seconds (NFloat (Fin x)) = Ok (format_d 0 m ++ ":" ++ format_d 2 s) /\
    0 <= s < 60 /\ 60 * m + s = x / U.
Proof.
  intros Hx. exists (x / U / 60), ((x / U) mod 60).
  split; [apply minutes_seconds_value; assumption|].
  split; [apply Z.mod_pos_bound; lia|].
  pose proof (Z.div_mod (x / U) 60 ltac:(lia)). lia.
Qed.

Lemma clock_shows_whole_seconds_witness :
  exists m s,
    minutes_seconds (NFloat (Fin (75 * U))) = Ok (format_d 0 m ++ ":" ++ format_d 2 s) /\
    0 <= s < 60 /\ 60 * m + s = 75 * U / U.
Proof.
  apply clock_shows_whole_seconds. pose proof U_pos. rewrite two53. lia.
Defined.

(** X19: the display is computed without an exception for every elapsed
    time from 0 to [2^30] seconds and every count of files below [2^20]:
    the division of line 363 is made only after a file was processed.
    There is an ETA exactly when a file was processed, it counts
    [total_files - files_processed] files, and it reads [0:00] when all
    files are processed. *)
Theorem display_is_total (t0 now files_processed total_files : Z) :
  t0 <> 0 -> 0 <= now - t0 <= 2 ^ 30 * U ->
  0 <= files_processed <= total_files -> total_files < 2 ^ 20 ->
  exists l,
    update_timing_display (Some (Fin t0)) (Fin now) files_processed total_files =
      Ok (Some l) /\
    (eta l = None <-> files_processed = 0) /\
    (0 < files_processed ->
     exists text, eta l = Some (text, total_files - files_processed)) /\
    (0 < files_processed -> files_processed = total_files ->
     eta l = Some ("0:00", 0)).
Proof.
  intros Ht He Hf Hb. pose proof U_pos as HU.
  change (2 ^ 30) with 1073741824 in He. change (2 ^ 20) with 1048576 in Hb.
  unfold update_timing_display, is_zero.
  replace (t0 =? 0) with false by (symmetry; apply Z.eqb_neq; assumption).
  unfold fsub, fneg, fadd.
  destruct (round_below (now + - t0) 1 1073741824) as (E & Bx);
    [lia | lia | rewrite two53; lia |].
  rewrite E. set (x := round_pos (now + - t0) 1) in *.
  rewrite minutes_seconds_value by (rewrite two53; nia).
  cbn [bind].
  destruct (Z.ltb_spec 0 files_processed) as [P|Z0].
  - unfold truediv, to_float.
    rewrite of_int_small by (rewrite two53; lia). cbn [bind].
    unfold is_zero.
    replace (files_processed * U =? 0) with false
      by (symmetry; apply Z.eqb_neq; nia).
    unfold fdiv.
    replace (files_processed * U =? 0) with false
      by (symmetry; apply Z.eqb_neq; nia).
    unfold of_ratio.
    replace (0 <? files_processed * U) with true
      by (symmetry; apply Z.ltb_lt; nia).
    destruct (round_below (x * U) (files_processed * U) 1073741824) as (A & Ba);
      [nia | nia | rewrite two53; lia |].
    rewrite A. set (avg := round_pos (x * U) (files_processed * U)) in *.
    cbn [bind]. unfold mul, to_float.
    rewrite of_int_small by (rewrite two53; lia). cbn [bind]. unfold fmul.
    assert (N : 0 <= (total_files - files_processed) * U * avg <=
                1048576 * 1073741824 * U * U).
    { split; [apply Z.mul_nonneg_nonneg; nia|].
      replace (1048576 * 1073741824 * U * U)
        with (1048576 * U * (1073741824 * U)) by ring.
      apply Z.mul_le_mono_nonneg; nia. }
    destruct (round_below ((total_files - files_processed) * U * avg) U
                (1048576 * 1073741824)) as (M & Bm);
      [exact N | lia | rewrite two53; lia |].
    rewrite M.
    set (eta_seconds := round_pos ((total_files - files_processed) * U * avg) U) in *.
    rewrite minutes_seconds_value by (rewrite two53; nia).
    cbn [bind]. eexists. split; [reflexivity|]. cbn [eta].
    split; [split; [discriminate|lia]|].
    split; [intros _; eexists; reflexivity|].
    intros _ EQ. subst eta_seconds.
    replace (total_files - files_processed) with 0 by lia.
    rewrite !Z.mul_0_l, round_pos_zero by lia. reflexivity.
  - eexists. split; [reflexivity|]. cbn [eta].
    split; [split; [lia|reflexivity]|]. split; intros; lia.
Qed.

Lemma display_is_total_witness :
  exists l,
    update_timing_display (Some (Fin (1000 * U))) (Fin (1090 * U)) 3 3 =
      Ok (Some l) /\
    (eta l = None <-> 3 = 0) /\
    (0 < 3 -> exists text, eta l = Some (text, 3 - 3)) /\
    (0 < 3 -> 3 = 3 -> eta l = Some ("0:00", 0)).
Proof.
  apply display_is_total.
  - pose proof U_pos. lia.
  - pose proof U_pos. change (2 ^ 30) with 1073741824. lia.
  - lia.
  - reflexivity.
Defined.

End DisplayFacts.

(** ** Speed profiles *)

Module ProfileFacts.

Import Float Profiles.
Local Open Scope string_scope.
Local Open Scope Z_scope.

Lemma feq_tenths (k : Z) : feq (tenths k) (tenths k) = true.
Proof.
  unfold tenths, of_ratio. change (0 <? 10) with true. cbv iota.
  unfold round. destruct (HUGE <=? _); simpl.
  - apply eqb_reflx.
  - apply Z.eqb_refl.
Qed.

(** X20: the reverse lookup of lines 325 and 348 finds the mode that was
    set: for every CPU count the three dictionaries differ, also on one
    core, where [fast] and [balanced] both use one thread.  Each profile
    uses at least one thread and at most as many as there are cores. *)
Theorem profile_is_recovered (cpu_count : option Z) (m : mode) :
  exists c,
    lookup m (speed_configs cpu_count) = Some c /\
    mode_of c (speed_configs cpu_count) = Some m /\
    (1 <= cpus cpu_count -> 1 <= threads c <= cpus cpu_count).
Proof.
  destruct m; eexists; (split; [reflexivity|]); split.
  all: try (cbn [threads]; lia).
  all: unfold speed_configs, mode_of, config_eqb;
    cbn [model threads chunk_length temperature beam_size best_of
         no_speech_threshold compression_ratio_threshold
         String.eqb Ascii.eqb Bool.eqb andb];
    rewrite ?Z.eqb_refl, ?feq_tenths; reflexivity.
Qed.

End ProfileFacts.
